(** * Event manager: a shallow embedding of [src/event_manager.py]

    The development follows the layers of the program:
    - [Py]: the few Python built-ins the program calls on text
      ([in], [str.split], [sorted]);
    - [Datetime]: [datetime] values, their difference and order, and the
      codec [strftime]/[strptime] for the fixed format
      [%Y-%m-%d %H:%M];
    - [Json]: persisted documents, and [json.load] with an [object_hook];
    - the world an operation runs in (files, clock, the user's console) and
      the monad [M] the operations are written in;
    - the classes [Event] and [EventManager], operation by operation;
    - the vocabulary of the statements, and the statements;
    - further properties of the code: the date prompt, saving, what a
      whole session keeps, which exceptions come out, files written by
      hand, and what [__str__] shows. *)

From Stdlib Require Import ZArith Ascii String.
From stdpp Require Import base list option strings gmap sorting.

#[local] Set Warnings "-register-all".

#[local] Open Scope string_scope.
#[local] Open Scope list_scope.
#[local] Open Scope Z_scope.

(* ===================================================================== *)
(** ** Python built-ins on text and lists *)
(* ===================================================================== *)

Module Py.

(** [prefix p s]: [s] starts with [p]. *)
Fixpoint startswith (p s : string) : bool :=
  match p, s with
  | EmptyString, _ => true
  | String a p', String b s' => if Ascii.eqb a b then startswith p' s' else false
  | String _ _, EmptyString => false
  end.

(** [q in s] for two [str]: [q] occurs in [s] as a contiguous run of
    characters.  The comparison is by code point, hence case-sensitive. *)
Fixpoint str_in (q s : string) : bool :=
  startswith q s ||
  match s with
  | EmptyString => false
  | String _ s' => str_in q s'
  end.

(** What [q in s] decides. *)
Definition substring_of (q s : string) : Prop :=
  ∃ before after : string, s = before +:+ q +:+ after.

(** [s.split(sep)] for a one-character separator: the pieces between the
    occurrences of [sep], always at least one piece. *)
Fixpoint split (sep : ascii) (s : string) : list string :=
  match s with
  | EmptyString => [EmptyString]
  | String c s' =>
      if Ascii.eqb c sep then EmptyString :: split sep s'
      else match split sep s' with
           | piece :: pieces => String c piece :: pieces
           | [] => [String c EmptyString]
           end
  end.

(** [sep.join(pieces)]. *)
Fixpoint join (sep : string) (pieces : list string) : string :=
  match pieces with
  | [] => EmptyString
  | [piece] => piece
  | piece :: rest => piece +:+ sep +:+ join sep rest
  end.

(** [any(f(x) for x in l)]. *)
Definition any {A} (f : A → bool) (l : list A) : bool := existsb f l.

Section Sorted.
  Context {A K : Type} (key : A → K) (lt : K → K → bool).

  (** [sorted(l, key=key)] compares keys with [<] only and is stable.
      Insertion from the right end computes the one list with those two
      properties. *)
Fixpoint insort (x : A) (l : list A) : list A :=
    match l with
    | [] => [x]
    | y :: l' => if lt (key y) (key x) then y :: insort x l' else x :: y :: l'
    end.

Fixpoint sorted (l : list A) : list A :=
    match l with
    | [] => []
    | x :: l' => insort x (sorted l')
    end.
End Sorted.

End Py.

(* ===================================================================== *)
(** ** datetime *)
(* ===================================================================== *)

Module Datetime.

Record datetime : Type := mk_datetime {
    year : Z; month : Z; day : Z;
    hour : Z; minute : Z; second : Z; microsecond : Z
}.

#[global] Instance datetime_eq_dec : EqDecision datetime.
Proof. solve_decision. Defined.

Definition is_leap (y : Z) : bool :=
  (y mod 4 =? 0) && (negb (y mod 100 =? 0) || (y mod 400 =? 0)).

Definition days_in_month (y m : Z) : Z :=
  match m with
  | 1 | 3 | 5 | 7 | 8 | 10 | 12 => 31
  | 4 | 6 | 9 | 11 => 30
  | 2 => if is_leap y then 29 else 28
  | _ => 0
  end.

(** The dates the [date] constructor accepts ([MINYEAR = 1],
    [MAXYEAR = 9999]); anything else is a [ValueError]. *)
Definition valid_date (y m d : Z) : bool :=
  (1 <=? y) && (y <=? 9999) && (1 <=? m) && (m <=? 12) &&
  (1 <=? d) && (d <=? days_in_month y m).

Definition valid_time (H M S us : Z) : bool :=
  (0 <=? H) && (H <? 24) && (0 <=? M) && (M <? 60) &&
  (0 <=? S) && (S <? 60) && (0 <=? us) && (us <? 1000000).

(** Every [datetime] object satisfies this: the constructor checks it. *)
Definition valid (dt : datetime) : bool :=
  valid_date (year dt) (month dt) (day dt) &&
  valid_time (hour dt) (minute dt) (second dt) (microsecond dt).

(** What the format [%Y-%m-%d %H:%M] can express. *)
Definition minute_precision (dt : datetime) : bool :=
  (second dt =? 0) && (microsecond dt =? 0).

(** *** Difference and order *)

Definition days_before_year (y : Z) : Z :=
  let y' := y - 1 in y' * 365 + y' / 4 - y' / 100 + y' / 400.

Definition days_before_month (y m : Z) : Z :=
  match m with
  | 1 => 0 | 2 => 31 | 3 => 59 | 4 => 90 | 5 => 120 | 6 => 151
  | 7 => 181 | 8 => 212 | 9 => 243 | 10 => 273 | 11 => 304 | _ => 334
  end + (if (2 <? m) && is_leap y then 1 else 0).

Definition toordinal (dt : datetime) : Z :=
  days_before_year (year dt) + days_before_month (year dt) (month dt) + day dt.

(** A [timedelta] is normalised to (days, seconds, microseconds) and
    compared as that triple; the model keeps the number of microseconds
    it stands for, which orders the same way. *)
Definition timedelta : Type := Z.

Definition mk_timedelta (days seconds microseconds : Z) : timedelta :=
  (days * 86400 + seconds) * 1000000 + microseconds.

Definition timedelta_days (days : Z) : timedelta := mk_timedelta days 0 0.

(** [a - b] on two naive datetimes. *)
Definition sub (a b : datetime) : timedelta :=
  mk_timedelta
    (toordinal a - toordinal b)
    ((second a + minute a * 60 + hour a * 3600)
     - (second b + minute b * 60 + hour b * 3600))
    (microsecond a - microsecond b).

Definition timedelta_le (a b : timedelta) : bool := a <=? b.

(** [a < b] on two naive datetimes: the fields compared as a tuple. *)
Fixpoint tuple_lt (a b : list Z) : bool :=
  match a, b with
  | x :: a', y :: b' => (x <? y) || ((x =? y) && tuple_lt a' b')
  | [], _ :: _ => true
  | _, [] => false
  end.

Definition fields (dt : datetime) : list Z :=
  [year dt; month dt; day dt; hour dt; minute dt; second dt; microsecond dt].

Definition lt (a b : datetime) : bool := tuple_lt (fields a) (fields b).

(** [a <= b], as a relation. *)
Definition le (a b : datetime) : Prop := lt b a = false.

(** *** strftime('%Y-%m-%d %H:%M') *)

Definition digit_char (d : Z) : ascii := ascii_of_nat (48 + Z.to_nat d).

Definition two_digits (n : Z) (rest : string) : string :=
  String (digit_char (n / 10)) (String (digit_char (n mod 10)) rest).

Definition four_digits (n : Z) (rest : string) : string :=
  String (digit_char (n / 1000))
    (String (digit_char (n / 100 mod 10)) (two_digits (n mod 100) rest)).

(** [%Y] is left to the C library, and glibc writes the year as a decimal
    number with no padding: a year below 1000 has fewer than four digits
    ([999-01-01 00:00]).  The other fields are zero-padded to two. *)
Definition year_digits (n : Z) (rest : string) : string :=
  if n <? 10 then String (digit_char n) rest
  else if n <? 100 then two_digits n rest
  else if n <? 1000 then String (digit_char (n / 100)) (two_digits (n mod 100) rest)
  else four_digits n rest.

Definition strftime (dt : datetime) : string :=
  year_digits (year dt) (String "-"
    (two_digits (month dt) (String "-"
      (two_digits (day dt) (String " "
        (two_digits (hour dt) (String ":"
          (two_digits (minute dt) EmptyString)))))))).

(** *** strptime(s, '%Y-%m-%d %H:%M')

    [_strptime] turns the format into the regular expression
<<
    (?P<Y>\d\d\d\d)-(?P<m>1[0-2]|0[1-9]|[1-9])-
    (?P<d>3[0-1]|[1-2]\d|0[1-9]|[1-9]| [1-9])\s+
    (?P<H>2[0-3]|[0-1]\d|\d):(?P<M>[0-5]\d|\d)
>>
    and matches it at the start of the text.  A regular expression is
    modelled by the list of its matches in the order backtracking tries
    them, each with the value read and the text left over. *)

Definition re (A : Type) : Type := string → list (A * string).

Definition re_ret {A} (a : A) : re A := λ s, [(a, s)].

Definition re_bind {A B} (r : re A) (k : A → re B) : re B :=
  λ s, concat (map (λ m, k (fst m) (snd m)) (r s)).

(** [r1|r2]: the matches of [r1] are tried before those of [r2]. *)
Definition re_alt {A} (r1 r2 : re A) : re A := λ s, r1 s ++ r2 s.

Definition digit_value (c : ascii) : option Z :=
  let n := Z.of_nat (nat_of_ascii c) in
  if (48 <=? n) && (n <=? 57) then Some (n - 48) else None.

(** [[lo-hi]] for two digits [lo], [hi]; [\d] is [[0-9]]. *)
Definition re_digit (lo hi : Z) : re Z := λ s,
  match s with
  | String c s' =>
      match digit_value c with
      | Some d => if (lo <=? d) && (d <=? hi) then [(d, s')] else []
      | None => []
      end
  | EmptyString => []
  end.

Definition re_char (c : ascii) : re unit := λ s,
  match s with
  | String c' s' => if Ascii.eqb c c' then [(tt, s')] else []
  | EmptyString => []
  end.

(** The code points below 256 that [\s] matches. *)
Definition is_space (c : ascii) : bool :=
  let n := nat_of_ascii c in
  ((9 <=? n) && (n <=? 13) || (28 <=? n) && (n <=? 32)
   || (n =? 133) || (n =? 160))%nat.

(** [\s+] is greedy: the longest run first, then the shorter ones. *)
Fixpoint re_spaces (s : string) : list (unit * string) :=
  match s with
  | String c s' => if is_space c then re_spaces s' ++ [(tt, s')] else []
  | EmptyString => []
  end.

Declare Scope re_scope.
Delimit Scope re_scope with re.
Notation "x ← r ; k" := (re_bind r (λ x, k))
  (at level 20, r at level 100, k at level 200, only parsing) : re_scope.
Notation "r ;; k" := (re_bind r (λ _, k))
  (at level 100, k at level 200, right associativity, only parsing) : re_scope.
Infix "|||" := re_alt (at level 50, left associativity) : re_scope.

#[local] Open Scope re_scope.

Definition re_Y : re Z :=
  a ← re_digit 0 9; b ← re_digit 0 9; c ← re_digit 0 9; d ← re_digit 0 9;
  re_ret (((a * 10 + b) * 10 + c) * 10 + d).

Definition re_m : re Z :=
  (re_char "1" ;; b ← re_digit 0 2; re_ret (10 + b))
  ||| (re_char "0" ;; b ← re_digit 1 9; re_ret b)
  ||| re_digit 1 9.

Definition re_d : re Z :=
  (re_char "3" ;; b ← re_digit 0 1; re_ret (30 + b))
  ||| (a ← re_digit 1 2; b ← re_digit 0 9; re_ret (a * 10 + b))
  ||| (re_char "0" ;; b ← re_digit 1 9; re_ret b)
  ||| re_digit 1 9
  ||| (re_char " " ;; re_digit 1 9).

Definition re_H : re Z :=
  (re_char "2" ;; b ← re_digit 0 3; re_ret (20 + b))
  ||| (a ← re_digit 0 1; b ← re_digit 0 9; re_ret (a * 10 + b))
  ||| re_digit 0 9.

Definition re_M : re Z :=
  (a ← re_digit 0 5; b ← re_digit 0 9; re_ret (a * 10 + b))
  ||| re_digit 0 9.

Definition format_regex : re datetime :=
  Y ← re_Y; re_char "-" ;; m ← re_m; re_char "-" ;; d ← re_d; re_spaces ;;
  H ← re_H; re_char ":" ;; M ← re_M;
  re_ret (mk_datetime Y m d H M 0 0).

#[local] Close Scope re_scope.

(** [None] stands for [ValueError]: no match, text left over after the
    match, or a date that does not exist. *)
Definition strptime (s : string) : option datetime :=
  match format_regex s with
  | (dt, EmptyString) :: _ =>
      if valid_date (year dt) (month dt) (day dt) then Some dt else None
  | (_, String _ _) :: _ => None
  | [] => None
  end.

End Datetime.

(* ===================================================================== *)
(** ** Exceptions *)
(* ===================================================================== *)

(** The exception classes the program can meet.  All of them derive from
    [Exception]; [JSONDecodeError] derives from [ValueError], and
    [FileNotFoundError] and [PermissionError] from [OSError]. *)
Inductive exn : Type :=
| FileNotFoundError
| PermissionError
| JSONDecodeError
| ValueError
| TypeError.

#[global] Instance exn_eq_dec : EqDecision exn.
Proof. solve_decision. Defined.

(** A call that may raise. *)
Definition result (A : Type) : Type := exn + A.

Definition result_bind {A B} (r : result A) (k : A → result B) : result B :=
  match r with
  | inl e => inl e
  | inr a => k a
  end.

(** [[f(x) for x in l]] where [f] may raise: left to right, the first
    exception ends the comprehension. *)
Fixpoint result_map {A B} (f : A → result B) (l : list A) : result (list B) :=
  match l with
  | [] => inr []
  | x :: l' =>
      result_bind (f x) (λ y, result_bind (result_map f l') (λ ys, inr (y :: ys)))
  end.

(* ===================================================================== *)
(** ** JSON documents and the values [json.load] builds *)
(* ===================================================================== *)

Module Json.
Import Datetime.

(** What the text of a file denotes.  [JSyntaxError] marks the place where
    a malformed text stops being JSON: the scanner works left to right,
    so everything before that place is decoded (and hooked) first, and
    nothing after it is looked at. *)
Inductive json : Type :=
| JNull
| JBool (b : bool)
| JNumber (n : Z)
| JString (s : string)
| JArray (items : list json)
| JObject (members : list (string * json))
| JSyntaxError.

(** The Python values the program handles. *)
Inductive value : Type :=
| VNone
| VBool (b : bool)
| VInt (n : Z)
| VStr (s : string)
| VList (items : list value)
| VDict (items : list (string * value))
| VDatetime (dt : datetime).

(** A [dict] with [str] keys: its items in insertion order, no key
    twice. *)
Definition dict : Type := list (string * value).

(** [d.get(k)], [None] when [k not in d]. *)
Fixpoint dict_get (k : string) (d : dict) : option value :=
  match d with
  | [] => None
  | (k', v) :: d' => if String.eqb k k' then Some v else dict_get k d'
  end.

(** [k in d]. *)
Definition dict_has (k : string) (d : dict) : bool :=
  match dict_get k d with Some _ => true | None => false end.

(** [d[k] = v]: a key already there keeps its place. *)
Fixpoint dict_set (k : string) (v : value) (d : dict) : dict :=
  match d with
  | [] => [(k, v)]
  | (k', v') :: d' =>
      if String.eqb k k' then (k, v) :: d' else (k', v') :: dict_set k v d'
  end.

(** [dict(pairs)]. *)
Definition dict_of_pairs (pairs : list (string * value)) : dict :=
  fold_left (λ d kv, dict_set (fst kv) (snd kv) d) pairs [].

(** [bool(v)], as [or] and [if] use it. *)
Definition truthy (v : value) : bool :=
  match v with
  | VNone => false
  | VBool b => b
  | VInt n => negb (n =? 0)
  | VStr s => negb (String.eqb s EmptyString)
  | VList items => match items with [] => false | _ => true end
  | VDict items => match items with [] => false | _ => true end
  | VDatetime _ => true
  end.

(** [json.load(file, object_hook=hook)] on the document [j]: every
    object becomes a [dict] and is passed through [hook] as soon as it is
    complete, inner objects before the object that holds them. *)
Section Load.
  Variable object_hook : dict → result value.

Fixpoint load (j : json) : result value :=
    match j with
    | JNull => inr VNone
    | JBool b => inr (VBool b)
    | JNumber n => inr (VInt n)
    | JString s => inr (VStr s)
    | JArray items =>
        result_bind
          ((fix load_items (l : list json) : result (list value) :=
              match l with
              | [] => inr []
              | x :: l' =>
                  result_bind (load x) (λ v,
                  result_bind (load_items l') (λ vs, inr (v :: vs)))
              end) items)
          (λ vs, inr (VList vs))
    | JObject members =>
        result_bind
          ((fix load_members (l : list (string * json))
              : result (list (string * value)) :=
              match l with
              | [] => inr []
              | (k, x) :: l' =>
                  result_bind (load x) (λ v,
                  result_bind (load_members l') (λ kvs, inr ((k, v) :: kvs)))
              end) members)
          (λ pairs, object_hook (dict_of_pairs pairs))
    | JSyntaxError => inl JSONDecodeError
    end.
End Load.

(** [json.dump(v, file)]: the document written for [v]; a [datetime] is
    not JSON serializable. *)
Fixpoint dump (v : value) : result json :=
  match v with
  | VNone => inr JNull
  | VBool b => inr (JBool b)
  | VInt n => inr (JNumber n)
  | VStr s => inr (JString s)
  | VList items =>
      result_bind
        ((fix dump_items (l : list value) : result (list json) :=
            match l with
            | [] => inr []
            | x :: l' =>
                result_bind (dump x) (λ j,
                result_bind (dump_items l') (λ js, inr (j :: js)))
            end) items)
        (λ js, inr (JArray js))
  | VDict items =>
      result_bind
        ((fix dump_members (l : list (string * value))
            : result (list (string * json)) :=
            match l with
            | [] => inr []
            | (k, x) :: l' =>
                result_bind (dump x) (λ j,
                result_bind (dump_members l') (λ kjs, inr ((k, j) :: kjs)))
            end) items)
        (λ kjs, inr (JObject kjs))
  | VDatetime _ => inl TypeError
  end.

(** A file as [json.load] sees it: the document its text denotes, and
    whether anything but white space follows the document (then
    [json.load] raises [JSONDecodeError] once the document is decoded). *)
Record file : Type := mk_file {
    document : json;
    extra_data : bool
}.

(** The file [json.dump] leaves behind. *)
Definition written (j : json) : file := mk_file j false.

(** A file just opened for writing: no text at all. *)
Definition truncated : file := mk_file JSyntaxError false.

Definition load_file (object_hook : dict → result value) (f : file)
  : result value :=
  result_bind (load object_hook (document f)) (λ v,
    if extra_data f then inl JSONDecodeError else inr v).

End Json.

Import Datetime Json.

(* ===================================================================== *)
(** ** The class [Event] *)
(* ===================================================================== *)

(** An event of the store: a title, a [datetime] and a list of tags. *)
Record Event : Type := mk_Event {
  title : string;
  date_time : datetime;
  tags : list string
}.

#[global] Instance Event_eq_dec : EqDecision Event.
Proof. solve_decision. Defined.

(** [tags or []]. *)
Definition or_empty (tags : option (list string)) : list string :=
  match tags with
  | Some (tag :: tags') => tag :: tags'
  | Some [] | None => []
  end.

(** [Event.__init__(self, title, date_time, tags=None)]. *)
Definition Event_init (title : string) (date_time : datetime)
    (tags : option (list string)) : Event :=
  {| title := title; date_time := date_time; tags := or_empty tags |}.

Definition set_title (v : string) (e : Event) : Event :=
  {| title := v; date_time := date_time e; tags := tags e |}.
Definition set_date_time (v : datetime) (e : Event) : Event :=
  {| title := title e; date_time := v; tags := tags e |}.
Definition set_tags (v : list string) (e : Event) : Event :=
  {| title := title e; date_time := date_time e; tags := v |}.

(** [event.__dict__]: the attributes in the order [__init__] assigns
    them. *)
Definition Event_dict (e : Event) : dict :=
  [("title", VStr (title e));
   ("date_time", VDatetime (date_time e));
   ("tags", VList (map VStr (tags e)))].

(** [str(dt)] for a naive [datetime]: [isoformat] with a blank between
    date and time, the seconds always written and the microseconds only
    when they are not zero. *)
Definition six_digits (n : Z) (rest : string) : string :=
  two_digits (n / 10000) (two_digits (n / 100 mod 100) (two_digits (n mod 100) rest)).

Definition datetime_str (dt : datetime) : string :=
  four_digits (year dt) (String "-"
    (two_digits (month dt) (String "-"
      (two_digits (day dt) (String " "
        (two_digits (hour dt) (String ":"
          (two_digits (minute dt) (String ":"
            (two_digits (second dt)
               (if microsecond dt =? 0 then EmptyString
                else String "." (six_digits (microsecond dt) EmptyString)))))))))))).

Definition newline : string := String "010"%char EmptyString.

(** [Event.__str__(self)], the f-string
    [Title: {self.title}\nDate and Time: {self.date_time}\nTags: {", ".join(self.tags)}\n]. *)
Definition Event_str (e : Event) : string :=
  "Title: " +:+ title e +:+ newline
  +:+ "Date and Time: " +:+ datetime_str (date_time e) +:+ newline
  +:+ "Tags: " +:+ Py.join ", " (tags e) +:+ newline.

(** An [Event] object as [load_events] builds it from a file: Python
    checks none of the three attributes, so each holds whatever value the
    file gave. *)
Record EventObject : Type := mk_EventObject {
  attr_title : value;
  attr_date_time : value;
  attr_tags : value
}.

(** [Event.__init__] on values of any type. *)
Definition EventObject_init (title date_time : value) (tags : value)
  : EventObject :=
  {| attr_title := title;
     attr_date_time := date_time;
     attr_tags := if truthy tags then tags else VList [] |}.

(** The object an event of the store is. *)
Definition object_of (e : Event) : EventObject :=
  {| attr_title := VStr (title e);
     attr_date_time := VDatetime (date_time e);
     attr_tags := VList (map VStr (tags e)) |}.

(** [Event] called with the keyword arguments [event_data]: it has to be a
    mapping whose keys are parameter names of [__init__], [title] and
    [date_time] among them. *)
Definition Event_kwargs (event_data : value) : result EventObject :=
  match event_data with
  | VDict d =>
      if forallb (λ k, bool_decide (k ∈ ["title"; "date_time"; "tags"])) (map fst d)
      then match dict_get "title" d, dict_get "date_time" d with
           | Some t, Some dt =>
               inr (EventObject_init t dt (default VNone (dict_get "tags" d)))
           | _, _ => inl TypeError
           end
      else inl TypeError
  | _ => inl TypeError
  end.

(** [for x in v]: the elements of a list, the keys of a dict, the
    characters of a text; nothing else here is iterable. *)
Definition iterate (v : value) : result (list value) :=
  match v with
  | VList items => inr items
  | VDict items => inr (map (λ kv, VStr (fst kv)) items)
  | VStr s => inr (map (λ c, VStr (String c EmptyString)) (list_ascii_of_string s))
  | VNone | VBool _ | VInt _ | VDatetime _ => inl TypeError
  end.

(* ===================================================================== *)
(** ** The world an operation runs in *)
(* ===================================================================== *)

(** What the program does at the console, through the view. *)
Inductive console_event : Type :=
| get_input_call (prompt : string)
| display_message_call (text : string)
| display_error_call (text : string)
| display_events_list_call (events : list Event)
| display_event_details_call (event : Event)
| error_report (e : exn).

Record EventManager : Type := mk_EventManager {
  file_path : string;
  events : list Event
}.

Record state : Type := mk_state {
  self : EventManager;
  (** the files that exist, by path *)
  files : gmap string file;
  (** the paths [open] refuses with [PermissionError] *)
  denied : gset string;
  (** what [datetime.now()] answers, call after call *)
  clock : nat → datetime;
  ticks : nat;
  (** the lines the user is going to type *)
  keyboard : list string;
  (** what has happened at the console so far, oldest first *)
  console : list console_event
}.

Definition with_events (evs : list Event) (st : state) : state :=
  mk_state (mk_EventManager (file_path (self st)) evs)
    (files st) (denied st) (clock st) (ticks st) (keyboard st) (console st).
Definition with_files (fs : gmap string file) (st : state) : state :=
  mk_state (self st) fs (denied st) (clock st) (ticks st) (keyboard st) (console st).
Definition with_ticks (n : nat) (st : state) : state :=
  mk_state (self st) (files st) (denied st) (clock st) n (keyboard st) (console st).
Definition with_keyboard (k : list string) (st : state) : state :=
  mk_state (self st) (files st) (denied st) (clock st) (ticks st) k (console st).
Definition with_console (c : list console_event) (st : state) : state :=
  mk_state (self st) (files st) (denied st) (clock st) (ticks st) (keyboard st) c.

(** How a call ends: it returns, it raises, or it waits for a line the
    user never types. *)
Inductive outcome (A : Type) : Type :=
| Return (a : A)
| Raise (e : exn)
| Blocked.
Arguments Return {A} a.
Arguments Raise {A} e.
Arguments Blocked {A}.

(** A method of [EventManager]: it runs in a state and leaves one. *)
Definition M (A : Type) : Type := state → outcome A * state.

#[global] Instance M_ret : MRet M := λ A a st, (Return a, st).
#[global] Instance M_bind : MBind M := λ A B k m st,
  match m st with
  | (Return a, st') => k a st'
  | (Raise e, st') => (Raise e, st')
  | (Blocked, st') => (Blocked, st')
  end.

Definition raise {A} (e : exn) : M A := λ st, (Raise e, st).
Definition blocked {A} : M A := λ st, (Blocked, st).
Definition get {A} (f : state → A) : M A := λ st, (Return (f st), st).
Definition modify (f : state → state) : M unit := λ st, (Return tt, f st).
Definition lift_result {A} (r : result A) : M A :=
  match r with inl e => raise e | inr a => mret a end.

Definition log (c : console_event) : M unit :=
  modify (λ st, with_console (console st ++ [c]) st).

(** *** The view *)

Module view.

(** Modelled from the spec: the view ([EventConsoleView] of the module
    [base_view]), which is not part of the sources.  Its contract is
    [get_input(prompt) -> text] and the procedures [display_message],
    [display_error], [display_events_list] and [display_event_details].
    The model logs every call and answers [get_input] with the next line
    the user types; with no line left the call never returns. *)
Definition get_input (prompt : string) : M string :=
  log (get_input_call prompt) ;;
  k ← get keyboard;
  match k with
  | [] => blocked
  | line :: k' => modify (with_keyboard k') ;; mret line
  end.
Definition display_message (text : string) : M unit :=
  log (display_message_call text).
Definition display_error (text : string) : M unit :=
  log (display_error_call text).
Definition display_events_list (l : list Event) : M unit :=
  log (display_events_list_call l).
Definition display_event_details (e : Event) : M unit :=
  log (display_event_details_call e).
End view.

(** [datetime.now()]. *)
Definition datetime_now : M datetime :=
  n ← get ticks;
  c ← get clock;
  modify (with_ticks (S n)) ;;
  mret (c n).

(** [open(path, 'r')] followed by reading the file. *)
Definition open_r (path : string) (st : state) : result file :=
  match files st !! path with
  | None => inl FileNotFoundError
  | Some f => if bool_decide (path ∈ denied st) then inl PermissionError else inr f
  end.

(** [open(path, 'w')]: the file is created or emptied. *)
Definition open_w (path : string) : M unit := λ st,
  if bool_decide (path ∈ denied st) then (Raise PermissionError, st)
  else (Return tt, with_files (<[path := truncated]> (files st)) st).

(** Modelled from the spec: the decorator [handle_error] of the module
    [common], which is not part of the sources.  It wraps an operation,
    catches whatever exception the operation raises, reports it and
    returns normally; it takes no corrective action. *)
Definition handle_error (func : M unit) : M unit := λ st,
  match func st with
  | (Raise e, st') => log (error_report e) st'
  | other => other
  end.

(* ===================================================================== *)
(** ** The class [EventManager] *)
(* ===================================================================== *)

Definition dquote : string := String "034"%char EmptyString.

(** The f-string [Event with title "{title}" not found.] *)
Definition not_found_message (title : string) : string :=
  "Event with title " +:+ dquote +:+ title +:+ dquote +:+ " not found.".

Definition date_format_hint : string :=
  "Please enter date and time in the format YYYY-MM-DD HH:MM.".

(** [try: body  except FileNotFoundError: handler]. *)
Definition try_except_FileNotFoundError {A} (body handler : M A) : M A := λ st,
  match body st with
  | (Raise FileNotFoundError, st') => handler st'
  | other => other
  end.

(** [event_decoder(self, obj)], the [object_hook] of [load_events].
    [strptime] raises [TypeError] when its argument is not a [str] and
    [ValueError] when the text does not fit the format. *)
Definition event_decoder (obj : dict) : result value :=
  if dict_has "date_time" obj then
    match dict_get "date_time" obj with
    | Some (VStr s) =>
        match strptime s with
        | Some dt => inr (VDict (dict_set "date_time" (VDatetime dt) obj))
        | None => inl ValueError
        end
    | _ => inl TypeError
    end
  else inr (VDict obj).

(** The body of the [try] in [load_events]. *)
Definition load_events_body : M (list EventObject) :=
  path ← get (λ st, file_path (self st));
  file ← (λ st, match open_r path st with
                | inl e => (Raise e, st)
                | inr f => (Return f, st)
                end);
  events_data ← lift_result (load_file event_decoder file);
  items ← lift_result (iterate events_data);
  lift_result (result_map Event_kwargs items).

(** [load_events(self)]. *)
Definition load_events : M (list EventObject) :=
  try_except_FileNotFoundError load_events_body (mret []).

(** The list [events_data] that [save_events] builds. *)
Definition events_data_of (evs : list Event) : list dict :=
  map (λ event,
         dict_set "date_time" (VStr (strftime (date_time event))) (Event_dict event))
      evs.

(** [save_events(self)]. *)
Definition save_events : M unit :=
  evs ← get (λ st, events (self st));
  let events_data := events_data_of evs in
  path ← get (λ st, file_path (self st));
  open_w path ;;
  doc ← lift_result (dump (VList (map VDict events_data)));
  modify (λ st, with_files (<[path := written doc]> (files st)) st).

(** The loop
<<
  while True:
      date_time_str = self.view.get_input(prompt)
      try:
          date_time = datetime.strptime(date_time_str, '%Y-%m-%d %H:%M')
          break
      except ValueError:
          self.view.display_message('Please enter ...')
>>
  Every round consumes a line of the keyboard, so one round more than
  there are lines is all the loop can ever run. *)
Fixpoint read_date_time_rounds (rounds : nat) (prompt : string) : M datetime :=
  match rounds with
  | O => blocked
  | S rounds' =>
      date_time_str ← view.get_input prompt;
      match strptime date_time_str with
      | Some date_time => mret date_time
      | None =>
          view.display_message date_format_hint ;;
          read_date_time_rounds rounds' prompt
      end
  end.

Definition read_date_time (prompt : string) : M datetime := λ st,
  read_date_time_rounds (S (length (keyboard st))) prompt st.

(** [add_event(self)], without its decorator. *)
Definition add_event_body : M unit :=
  title ← view.get_input "Enter event title: ";
  date_time ← read_date_time "Enter event date and time (YYYY-MM-DD HH:MM): ";
  tags_str ← view.get_input "Enter tags separated by commas: ";
  let tags := Py.split "," tags_str in
  let event := Event_init title date_time (Some tags) in
  modify (λ st, with_events (events (self st) ++ [event]) st) ;;
  save_events ;;
  view.display_message "Event added successfully.".

Definition add_event : M unit := handle_error add_event_body.

(** The test of the comprehension in [search_event]. *)
Definition search_test (query : string) (event : Event) : bool :=
  Py.str_in query (title event) || Py.any (Py.str_in query) (tags event).

(** [search_event(self)]. *)
Definition search_event : M unit :=
  query ← view.get_input "Enter event title to search: ";
  evs ← get (λ st, events (self st));
  let results := List.filter (search_test query) evs in
  match results with
  | _ :: _ =>
      view.display_message "Search results" ;;
      view.display_events_list results
  | [] => view.display_error "No events found matching the query"
  end.

(** [event.title = new_title] and the like, for the object at position
    [i] of [self.events]. *)
Definition assign (i : nat) (f : Event → Event) : M unit :=
  modify (λ st, with_events (alter f i (events (self st))) st).

(** The [for] loop of [edit_event], from position [i] on; [rest] is what is
    left to visit. *)
Fixpoint edit_event_loop (title0 : string) (i : nat) (rest : list Event) : M unit :=
  match rest with
  | [] => view.display_error (not_found_message title0)
  | event :: rest' =>
      if String.eqb (title event) title0 then
        new_title ← view.get_input "Enter new event title: ";
        new_date_time ←
          read_date_time "Enter new event date and time (YYYY-MM-DD HH:MM): ";
        new_tags_str ← view.get_input "Enter new tags separated by commas: ";
        let new_tags := Py.split "," new_tags_str in
        assign i (set_title new_title) ;;
        assign i (set_date_time new_date_time) ;;
        assign i (set_tags new_tags) ;;
        view.display_message "Event edited successfully. Updated details:" ;;
        evs ← get (λ st, events (self st));
        match evs !! i with
        | Some event' => view.display_event_details event'
        | None => mret tt
        end ;;
        save_events
      else edit_event_loop title0 (S i) rest'
  end.

(** [edit_event(self)]. *)
Definition edit_event : M unit :=
  title0 ← view.get_input "Enter event title to edit: ";
  evs ← get (λ st, events (self st));
  edit_event_loop title0 0 evs.

(** [l.remove(x)]: the first item equal to [x] goes; [ValueError] when
    there is none. *)
Fixpoint list_remove (x : Event) (l : list Event) : result (list Event) :=
  match l with
  | [] => inl ValueError
  | y :: l' =>
      if bool_decide (y = x) then inr l'
      else result_bind (list_remove x l') (λ r, inr (y :: r))
  end.

(** The [for] loop of [delete_event]; [rest] is what is left to visit. *)
Fixpoint delete_event_loop (title0 : string) (rest : list Event) : M unit :=
  match rest with
  | [] => view.display_error (not_found_message title0)
  | event :: rest' =>
      if String.eqb (title event) title0 then
        evs ← get (λ st, events (self st));
        evs' ← lift_result (list_remove event evs);
        modify (with_events evs') ;;
        view.display_message "Event deleted successfully." ;;
        save_events
      else delete_event_loop title0 rest'
  end.

(** [delete_event(self)]. *)
Definition delete_event : M unit :=
  title0 ← view.get_input "Enter event title to delete: ";
  evs ← get (λ st, events (self st));
  delete_event_loop title0 evs.

(** [time_until_event(self)]: the clock is read at every call. *)
Definition time_until_event (event : Event) : M timedelta :=
  now ← datetime_now;
  mret (sub (date_time event) now).

(** [[event for event in l if event.time_until_event() <= timedelta(days=7)]] *)
Fixpoint within_a_week (l : list Event) : M (list Event) :=
  match l with
  | [] => mret []
  | event :: l' =>
      until ← time_until_event event;
      kept ← within_a_week l';
      mret (if timedelta_le until (timedelta_days 7) then event :: kept else kept)
  end.

(** [show_upcoming_events(self)], without its decorator. *)
Definition show_upcoming_events_body : M unit :=
  today ← datetime_now;
  evs ← get (λ st, events (self st));
  upcoming_events ← within_a_week evs;
  match upcoming_events with
  | _ :: _ =>
      let sorted_upcoming_events := Py.sorted date_time Datetime.lt upcoming_events in
      view.display_message "Upcoming events within a week:" ;;
      view.display_events_list sorted_upcoming_events
  | [] => view.display_error "No upcoming events within a week."
  end.

Definition show_upcoming_events : M unit := handle_error show_upcoming_events_body.

(** [show_all_events(self)], without its decorator. *)
Definition show_all_events_body : M unit :=
  evs ← get (λ st, events (self st));
  match evs with
  | [] => view.display_message "No events found."
  | _ :: _ => view.display_events_list evs
  end.

Definition show_all_events : M unit := handle_error show_all_events_body.

(* ===================================================================== *)
(** * The vocabulary of the statements *)
(* ===================================================================== *)

(** The fixed shape of a persisted event,
    [{"title": ..., "date_time": "YYYY-MM-DD HH:MM", "tags": [...]}]. *)
Definition event_json (e : Event) : json :=
  JObject [("title", JString (title e));
           ("date_time", JString (strftime (date_time e)));
           ("tags", JArray (map JString (tags e)))].

(** The document of a store: the array of its events, in store order. *)
Definition store_document (evs : list Event) : json :=
  JArray (map event_json evs).

(** An event the format can express: its date exists and is exact to the
    minute.  (Whether its text is read back depends on the year as well:
    see [four_digit_year].) *)
Definition storable (e : Event) : Prop :=
  valid (date_time e) = true ∧ minute_precision (date_time e) = true.

(** The year of the event is written with four digits. *)
Definition four_digit_year (e : Event) : Prop := 1000 ≤ year (date_time e).

(** The file of the store holds the document of the in-memory list, and
    nothing else. *)
Definition persisted (st : state) : Prop :=
  files st !! file_path (self st)
  = Some (written (store_document (events (self st)))).

(** What the body of [load_events] computes; it changes nothing. *)
Definition load_result (st : state) : result (list EventObject) :=
  result_bind (open_r (file_path (self st)) st) (λ file,
  result_bind (load_file event_decoder file) (λ events_data,
  result_bind (iterate events_data) (result_map Event_kwargs))).

(** An operation keeps the store when it leaves the in-memory list and the
    files as it found them, however it ends. *)
Definition keeps_store {A} (m : M A) : Prop :=
  ∀ st, self (m st).2 = self st ∧ files (m st).2 = files st.

(** What [search_event] looks for: the query is a substring of the title
    or of one of the tags. *)
Definition matches (query : string) (event : Event) : Prop :=
  Py.substring_of query (title event)
  ∨ Exists (Py.substring_of query) (tags event).

(** What [search_event] shows for a list of results. *)
Definition search_report (results : list Event) : list console_event :=
  match results with
  | [] => [display_error_call "No events found matching the query"]
  | _ :: _ => [display_message_call "Search results";
               display_events_list_call results]
  end.

(** What the re-prompting loop shows for the lines it refuses. *)
Definition reprompts (prompt : string) (bad : list string) : list console_event :=
  flat_map (λ _, [get_input_call prompt; display_message_call date_format_hint]) bad.

(** The state [add_event] has built when it comes to save: the new event is
    in the list and the three answers are consumed. *)
Definition added (title_in : string) (bad : list string) (dt : datetime)
    (tags_in : string) (rest : list string) (st : state) : state :=
  with_events
    (events (self st) ++ [mk_Event title_in dt (Py.split "," tags_in)])
    (with_keyboard rest
       (with_console
          (console st
           ++ get_input_call "Enter event title: "
           :: reprompts "Enter event date and time (YYYY-MM-DD HH:MM): " bad
           ++ [get_input_call "Enter event date and time (YYYY-MM-DD HH:MM): ";
               get_input_call "Enter tags separated by commas: "])
          st)).

(** The state a successful [save_events] followed by a message leaves. *)
Definition saved (message : list console_event) (st : state) : state :=
  with_console (console st ++ message)
    (with_files
       (<[file_path (self st) := written (store_document (events (self st)))]>
          (files st))
       st).

(** The state [edit_event] has built when it comes to save. *)
Definition edited (before after : list Event) (new_title : string)
    (bad : list string) (dt : datetime) (tags_in : string) (rest : list string)
    (st : state) : state :=
  with_events
    (before ++ mk_Event new_title dt (Py.split "," tags_in) :: after)
    (with_keyboard rest
       (with_console
          (console st
           ++ get_input_call "Enter event title to edit: "
           :: get_input_call "Enter new event title: "
           :: reprompts "Enter new event date and time (YYYY-MM-DD HH:MM): " bad
           ++ [get_input_call "Enter new event date and time (YYYY-MM-DD HH:MM): ";
               get_input_call "Enter new tags separated by commas: ";
               display_message_call "Event edited successfully. Updated details:";
               display_event_details_call
                 (mk_Event new_title dt (Py.split "," tags_in))])
          st)).

(** The state [delete_event] has built when it comes to save. *)
Definition deleted (before after : list Event) (rest : list string) (st : state)
  : state :=
  with_events (before ++ after)
    (with_keyboard rest
       (with_console
          (console st
           ++ [get_input_call "Enter event title to delete: ";
               display_message_call "Event deleted successfully."])
          st)).

(** The state after a title that no event has. *)
Definition missed (prompt title0 : string) (rest : list string) (st : state) : state :=
  with_keyboard rest
    (with_console
       (console st
        ++ [get_input_call prompt; display_error_call (not_found_message title0)])
       st).

(** [a] comes no later than [b] in the order of the keys. *)
Definition key_le {A K : Type} (key : A → K) (lt : K → K → bool) (a b : A) : Prop :=
  lt (key b) (key a) = false.

(** The event is at most seven days after [now] (and may be before it). *)
Definition within_horizon (now : datetime) (event : Event) : Prop :=
  sub (date_time event) now ≤ timedelta_days 7.

#[global] Instance within_horizon_dec (now : datetime) (event : Event) :
  Decision (within_horizon now event).
Proof. unfold within_horizon. apply _. Defined.

(** The events kept when the clock answers [nows], one answer per event. *)
Fixpoint judged (l : list Event) (nows : list datetime) : list Event :=
  match l, nows with
  | event :: l', now :: nows' =>
      if decide (within_horizon now event) then event :: judged l' nows'
      else judged l' nows'
  | _, _ => []
  end.

(** What [show_upcoming_events] shows for a list of events. *)
Definition upcoming_report (shown : list Event) : list console_event :=
  match shown with
  | [] => [display_error_call "No upcoming events within a week."]
  | _ :: _ => [display_message_call "Upcoming events within a week:";
               display_events_list_call shown]
  end.

(** Every match of [r] reads a value that satisfies [P]. *)
Definition re_post {A} (r : re A) (P : A → Prop) : Prop :=
  ∀ s a s', (a, s') ∈ r s → P a.

(** Every event of the in-memory list has a date that exists, exact to the
    minute. *)
Definition stores_well (st : state) : Prop := Forall storable (events (self st)).

(** [m] keeps the invariant however it ends, and what it returns
    satisfies [post]. *)
Definition preserves {A} (m : M A) (post : A → Prop) : Prop :=
  ∀ st, stores_well st →
        stores_well (m st).2 ∧ ∀ a, (m st).1 = Return a → post a.

(** ** Sessions *)

(** The six operations of the manager. *)
Inductive operation : Type :=
| op_add_event
| op_show_upcoming_events
| op_show_all_events
| op_search_event
| op_edit_event
| op_delete_event.

Definition perform (o : operation) : M unit :=
  match o with
  | op_add_event => add_event
  | op_show_upcoming_events => show_upcoming_events
  | op_show_all_events => show_all_events
  | op_search_event => search_event
  | op_edit_event => edit_event
  | op_delete_event => delete_event
  end.

(** The states a session can come to from [st0]: the user types lines,
    and operations run one after the other, each ending as it may. *)
Inductive reachable (st0 : state) : state → Prop :=
| reachable_start : reachable st0 st0
| reachable_typed (st : state) (lines : list string) :
    reachable st0 st → reachable st0 (with_keyboard lines st)
| reachable_performed (st : state) (o : operation) :
    reachable st0 st → reachable st0 (perform o st).2.

(** The file of the store can be opened. *)
Definition writable (st : state) : Prop := file_path (self st) ∉ denied st.

(** Memory and file agree: the file holds the document of the in-memory
    list, or there is no file yet and the list is empty. *)
Definition agrees (st : state) : Prop :=
  (files st !! file_path (self st) = None ∧ events (self st) = [])
  ∨ persisted st.

(** [m], started in a state of [P], ends with an outcome and in a state
    that satisfy [Q]. *)
Definition hoare {A} (P : state → Prop) (m : M A)
    (Q : outcome A → state → Prop) : Prop :=
  ∀ st, P st → Q (m st).1 (m st).2.

(** [m] raises nothing and leaves the manager, the files and their
    permissions as they are. *)
Definition harmless {A} (m : M A) : Prop :=
  ∀ st, self (m st).2 = self st ∧ files (m st).2 = files st
        ∧ denied (m st).2 = denied st ∧ ∀ e, (m st).1 ≠ Raise e.

(** What holds between two operations of a session on the path [p] with
    the permissions [d].  Under [G] the dates of the events exist, exact to
    the minute, and, the file being writable, memory and file agree. *)
Definition session_inv (G : Prop) (p : string) (d : gset string) (st : state) : Prop :=
  file_path (self st) = p ∧ denied st = d
  ∧ (G → stores_well st) ∧ (G → p ∉ d → agrees st).

(** What holds inside a mutation, between the change of the list and the
    save. *)
Definition session_mid (G : Prop) (p : string) (d : gset string) (st : state) : Prop :=
  file_path (self st) = p ∧ denied st = d ∧ (G → stores_well st).

(** How an operation of a session ends: the invariant holds again, and an
    exception that comes out of it is the [PermissionError] of a file that
    cannot be written. *)
Definition session_post {A} (G : Prop) (p : string) (d : gset string)
    (o : outcome A) (st : state) : Prop :=
  session_inv G p d st ∧ ∀ e, o = Raise e → e = PermissionError ∧ p ∈ d.

(** A record of a file written by hand: the tags may be left out. *)
Definition hand_written (t s : string) (tg : option json) : json :=
  JObject ([("title", JString t); ("date_time", JString s)]
           ++ match tg with Some j => [("tags", j)] | None => [] end).

(** A value that [Event] refuses as its keyword arguments: not a mapping,
    or a mapping without [title], without [date_time], or with a key that
    is no parameter of [Event.__init__]. *)
Definition misshapen (v : value) : Prop :=
  ∀ d, v = VDict d →
       dict_get "title" d = None ∨ dict_get "date_time" d = None
       ∨ ∃ k, k ∈ map fst d ∧ k ∉ ["title"; "date_time"; "tags"].

(** The events and the clock readings they are judged against, pair by
    pair. *)
Definition kept_pairs (l : list Event) (nows : list datetime) : list Event :=
  (filter (λ p : Event * datetime, within_horizon p.2 p.1) (zip l nows)).*1.

(** ** Worlds and events for the examples *)

(** A world with the store at [events.json], every file writable, a clock
    that stands still and an empty console. *)
Definition base_state (evs : list Event) (fs : gmap string file)
    (keys : list string) : state :=
  mk_state (mk_EventManager "events.json" evs) fs ∅
    (λ _, mk_datetime 2024 1 1 0 0 0 0) 0 keys [].

(** A store of two events, one with no tags and an empty title, and no
    file yet. *)
Definition roundtrip_state : state :=
  mk_state
    (mk_EventManager "events.json"
       [mk_Event "Standup" (mk_datetime 2099 1 1 9 0 0 0) ["work"];
        mk_Event "" (mk_datetime 2024 2 29 23 59 0 0) []])
    ∅ ∅ (λ _, mk_datetime 2024 1 1 0 0 0 0) 0 [] [].

(** An event of the year 999, as [add_event] makes it when the user types
    [0999-01-01 00:00] and no tags, and a store that holds it. *)
Definition old_event : Event :=
  mk_Event "Millennium" (mk_datetime 999 1 1 0 0 0 0) [""].

Definition old_state : state := base_state [old_event] ∅ [].

(** A file whose text is not JSON. *)
Definition not_json_file : file := mk_file JSyntaxError false.

(** A file of one record whose [date_time] does not fit the format. *)
Definition bad_date_file : file :=
  mk_file
    (JArray [JObject [("title", JString "Standup");
                      ("date_time", JString "tomorrow 9am");
                      ("tags", JArray [JString "work"])]])
    false.

(** The file of the store holds something unrelated to the list. *)
Definition stale_files : gmap string file := {["events.json" := not_json_file]}.

(** Three events, two of them with the same title. *)
Definition standup : Event :=
  mk_Event "Standup" (mk_datetime 2099 1 1 9 0 0 0) ["work"].

Definition review1 : Event :=
  mk_Event "Review" (mk_datetime 2099 1 2 10 0 0 0) ["work"; "first"].

Definition review2 : Event :=
  mk_Event "Review" (mk_datetime 2099 1 3 10 0 0 0) ["second"].

(** A world where the file of the store cannot be opened. *)
Definition locked_state (keys : list string) : state :=
  mk_state (mk_EventManager "events.json" [standup])
    {["events.json" := written (store_document [standup])]}
    {["events.json"]}
    (λ _, mk_datetime 2024 1 1 0 0 0 0) 0 keys [].

(** A time, and events ten days, three days and one hour after it and a
    week before it. *)
Definition new_year : datetime := mk_datetime 2024 1 1 0 0 0 0.

Definition in_ten_days : Event := mk_Event "Conference" (mk_datetime 2024 1 11 0 0 0 0) [].

Definition in_three_days : Event := mk_Event "Review" (mk_datetime 2024 1 4 0 0 0 0) [].

Definition last_week : Event := mk_Event "Party" (mk_datetime 2023 12 25 20 0 0 0) [].

Definition in_an_hour : Event := mk_Event "Standup" (mk_datetime 2024 1 1 1 0 0 0) [].

(** A clock that passes midnight between its second and its third reading,
    and two events exactly a week after that midnight. *)
Definition midnight_clock (n : nat) : datetime :=
  match n with
  | 0%nat | 1%nat => mk_datetime 2023 12 31 23 59 59 999999
  | _ => mk_datetime 2024 1 1 0 0 0 0
  end.

Definition week_after_1 : Event := mk_Event "First" (mk_datetime 2024 1 8 0 0 0 0) [].

Definition week_after_2 : Event := mk_Event "Second" (mk_datetime 2024 1 8 0 0 0 0) [].

(** A file written by hand: one-digit fields in a date, a record without
    tags and one whose tags are [null]. *)
Definition hand_written_file : file :=
  mk_file
    (JArray [hand_written "Standup" "2099-1-1 9:5" None;
             hand_written "Review" "2099-01-02 10:00" (Some JNull)])
    false.

(** A file whose one record has no [date_time]. *)
Definition untimed_file : file :=
  mk_file (JArray [JObject [("title", JString "Standup")]]) false.

(** Files that hold an empty object, and [null]. *)
Definition empty_object_file : file := mk_file (JObject []) false.

Definition null_file : file := mk_file JNull false.

(** A session on a new store: an event is added, looked for, and edited
    (with one date refused on the way). *)
Definition session_start : state :=
  base_state [] ∅ ["Retro"; "2099-02-01 15:30"; "team"].

Definition session_end : state :=
  (perform op_edit_event
     (with_keyboard ["Retro"; "Review"; "soon"; "2099-03-01 10:00"; "team,q1"]
        (perform op_search_event
           (with_keyboard ["team"] (perform op_add_event session_start).2)).2)).2.

(** The same session, had the user typed the year 999 when editing. *)
Definition old_session_end : state :=
  (perform op_edit_event
     (with_keyboard ["Retro"; "Review"; "0999-03-01 10:00"; "team,q1"]
        (perform op_add_event session_start).2)).2.

(** An event with seconds, as the clock gives them. *)
Definition leap_day : datetime := mk_datetime 2024 2 29 23 59 30 5.

(* ===================================================================== *)
(** * Properties *)
(* ===================================================================== *)

(** ** The built-ins on examples *)

Example strftime_ex :
  strftime (mk_datetime 2099 1 1 9 0 0 0) = "2099-01-01 09:00".
Proof. reflexivity. Qed.

(** The year is not padded: below 1000 it is written with fewer than four
    digits, which [strptime] refuses, while it accepts the same year typed
    with leading zeros. *)
Example strftime_short_year :
  strftime (mk_datetime 999 1 1 0 0 0 0) = "999-01-01 00:00"
  ∧ strftime (mk_datetime 5 12 31 23 59 0 0) = "5-12-31 23:59"
  ∧ strptime "999-01-01 00:00" = None
  ∧ strptime "0999-01-01 00:00" = Some (mk_datetime 999 1 1 0 0 0 0).
Proof. vm_compute. done. Qed.

Example strptime_ex :
  strptime "2099-01-01 09:00" = Some (mk_datetime 2099 1 1 9 0 0 0).
Proof. vm_compute. reflexivity. Qed.

(** One-digit fields and a run of white space are accepted. *)
Example strptime_short :
  strptime "2099-1-1   9:5" = Some (mk_datetime 2099 1 1 9 5 0 0).
Proof. vm_compute. reflexivity. Qed.

(** A date that does not exist, text left over, the year 0: [ValueError]. *)
Example strptime_refuses :
  strptime "2099-02-30 09:00" = None
  ∧ strptime "2099-01-01 09:77" = None
  ∧ strptime "0000-01-01 09:07" = None
  ∧ strptime "tomorrow 9am" = None.
Proof. vm_compute. done. Qed.

Example split_ex : Py.split "," "a, b,,c" = ["a"; " b"; ""; "c"].
Proof. reflexivity. Qed.

Example str_in_ex :
  Py.str_in "and" "Standup" = true ∧ Py.str_in "AND" "Standup" = false
  ∧ Py.str_in "" "Standup" = true.
Proof. vm_compute. done. Qed.

(** ** Text *)

Section PyFacts.
Import Py.

Lemma startswith_spec (p s : string) :
  startswith p s = true ↔ ∃ after, s = p +:+ after.
Proof.
  revert s; induction p as [|a p IH]; intros s; simpl.
  - split; [intros _; by exists s | done].
  - destruct s as [|b s].
    + split; [done | intros [after H]; discriminate].
    + destruct (Ascii.eqb_spec a b) as [->|Hne].
      * rewrite IH. split; intros [after H]; exists after.
        -- by rewrite H.
        -- by injection H.
      * split; [done | intros [after H]; injection H; congruence].
Qed.

Lemma str_in_spec (q s : string) : str_in q s = true ↔ substring_of q s.
Proof.
  unfold substring_of. induction s as [|c s IH]; simpl.
  - rewrite orb_false_r, startswith_spec. split.
    + intros [after H]. by exists EmptyString, after.
    + intros [[|b before] [after H]]; [by exists after | discriminate].
  - rewrite orb_true_iff, startswith_spec, IH. split.
    + intros [[after H] | (before & after & H)].
      * by exists EmptyString, after.
      * exists (String c before), after. simpl. by rewrite H.
    + intros [[|b before] [after H]]; simpl in H.
      * left. by exists after.
      * right. exists before, after. by injection H.
Qed.

#[global] Instance substring_of_dec (q s : string) : Decision (substring_of q s).
Proof.
  destruct (str_in q s) eqn:E.
  - left. by apply str_in_spec.
  - right. intros H. apply str_in_spec in H. congruence.
Defined.

Lemma any_spec {A} (f : A → bool) (P : A → Prop) (l : list A) :
  (∀ x, f x = true ↔ P x) → any f l = true ↔ Exists P l.
Proof.
  intros Hf. unfold any. rewrite existsb_exists, Exists_exists.
  split; intros (x & Hin & Hx); exists x.
  - split; [by apply list_elem_of_In | by apply Hf].
  - split; [by apply list_elem_of_In | by apply Hf].
Qed.

Lemma split_nonempty (sep : ascii) (s : string) : split sep s ≠ [].
Proof.
  destruct s as [|c s]; simpl; [done|].
  destruct (Ascii.eqb c sep); [done|]. by destruct (split sep s).
Qed.

Lemma join_cons_char (sep : string) (c : ascii) (piece : string) (l : list string) :
  join sep (String c piece :: l) = String c (join sep (piece :: l)).
Proof. by destruct l. Qed.

(** Nothing is lost and nothing is trimmed: putting the separator back
    between the pieces gives the text that was split. *)
Lemma join_split (sep : ascii) (s : string) :
  join (String sep EmptyString) (split sep s) = s.
Proof.
  induction s as [|c s IH]; simpl; [done|].
  destruct (Ascii.eqb_spec c sep) as [->|Hne].
  - pose proof (split_nonempty sep s) as Hs.
    destruct (split sep s) as [|piece pieces] eqn:E; [done|].
    simpl in *. by rewrite IH.
  - pose proof (split_nonempty sep s) as Hs.
    destruct (split sep s) as [|piece pieces] eqn:E; [done|].
    by rewrite join_cons_char, IH.
Qed.

(** No piece holds the separator. *)
Lemma split_pieces (sep : ascii) (s : string) :
  Forall (λ piece, sep ∉ list_ascii_of_string piece) (split sep s).
Proof.
  induction s as [|c s IH]; simpl.
  - constructor; [|constructor]. simpl. apply not_elem_of_nil.
  - destruct (Ascii.eqb_spec c sep) as [->|Hne].
    + constructor; [|done]. simpl. apply not_elem_of_nil.
    + destruct (split sep s) as [|piece pieces].
      * constructor; [|constructor]. simpl.
        rewrite not_elem_of_cons. split; [congruence | apply not_elem_of_nil].
      * inversion IH as [|? ? Hp Hps]; subst. constructor; [|done].
        simpl. rewrite not_elem_of_cons. split; [congruence | done].
Qed.

Lemma split_whole (sep : ascii) (piece : string) :
  sep ∉ list_ascii_of_string piece → split sep piece = [piece].
Proof.
  induction piece as [|c piece IH]; simpl; [done|].
  intros [Hc Hp]%not_elem_of_cons.
  destruct (Ascii.eqb_spec c sep) as [->|_]; [done|]. by rewrite IH.
Qed.

Lemma split_first (sep : ascii) (piece s : string) :
  sep ∉ list_ascii_of_string piece →
  split sep (piece +:+ String sep s) = piece :: split sep s.
Proof.
  induction piece as [|c piece IH]; simpl.
  - intros _. by rewrite Ascii.eqb_refl.
  - intros [Hc Hp]%not_elem_of_cons.
    destruct (Ascii.eqb_spec c sep) as [->|_]; [done|]. by rewrite IH.
Qed.

(** [split] is the only way to cut a text at its separators. *)
Lemma split_join (sep : ascii) (l : list string) :
  l ≠ [] →
  Forall (λ piece, sep ∉ list_ascii_of_string piece) l →
  split sep (join (String sep EmptyString) l) = l.
Proof.
  induction l as [|piece l IH]; [done|]. intros _ Hall.
  inversion Hall as [|? ? Hp Hl]; subst.
  destruct l as [|piece' l].
  - by apply split_whole.
  - change (join (String sep EmptyString) (piece :: piece' :: l))
      with (piece +:+ String sep (join (String sep EmptyString) (piece' :: l))).
    rewrite split_first by done. by rewrite IH.
Qed.

End PyFacts.

(** ** The date codec *)

Section Codec.

Lemma forall_range (P : Z → Prop) (lo : Z) (n : nat) :
  (∀ i : nat, (i < n)%nat → P (lo + Z.of_nat i)) →
  ∀ z, lo ≤ z < lo + Z.of_nat n → P z.
Proof.
  intros H z Hz.
  replace z with (lo + Z.of_nat (Z.to_nat (z - lo))) by lia.
  apply H. lia.
Qed.

(** Reading a match off the front of a sequence of regular expressions:
    when the first match of [r] lets the rest succeed, backtracking never
    comes to the later matches of [r]. *)
Lemma head_re_bind {A B} (r : re A) (k : A → re B) (s s' s'' : string) a b :
  head (r s) = Some (a, s') →
  head (k a s') = Some (b, s'') →
  head (re_bind r k s) = Some (b, s'').
Proof.
  unfold re_bind. destruct (r s) as [|[a0 s0] tl]; simpl; [done|].
  intros [= -> ->]. destruct (k a s') as [|m tl']; simpl; [done|]. done.
Qed.

Lemma head_re_ret {A} (a : A) (s : string) : head (re_ret a s) = Some (a, s).
Proof. done. Qed.

Lemma head_re_digit (d : Z) (rest : string) :
  0 ≤ d < 10 →
  head (re_digit 0 9 (String (digit_char d) rest)) = Some (d, rest).
Proof.
  revert d. apply (forall_range _ 0 10). intros i Hi.
  do 10 (destruct i as [|i]; [reflexivity|]). lia.
Qed.

Lemma head_re_spaces (d : Z) (rest : string) :
  0 ≤ d < 10 →
  head (re_spaces (String " " (String (digit_char d) rest)))
  = Some (tt, String (digit_char d) rest).
Proof.
  revert d. apply (forall_range _ 0 10). intros i Hi.
  do 10 (destruct i as [|i]; [reflexivity|]). lia.
Qed.

Lemma head_re_Y (y : Z) (rest : string) :
  0 ≤ y < 10000 → head (re_Y (four_digits y rest)) = Some (y, rest).
Proof.
  intros Hy. unfold re_Y, four_digits, two_digits.
  eapply head_re_bind; [apply head_re_digit; Z.div_mod_to_equations; lia|].
  eapply head_re_bind; [apply head_re_digit; Z.div_mod_to_equations; lia|].
  eapply head_re_bind; [apply head_re_digit; Z.div_mod_to_equations; lia|].
  eapply head_re_bind; [apply head_re_digit; Z.div_mod_to_equations; lia|].
  unfold re_ret. simpl. do 2 f_equal. Z.div_mod_to_equations; lia.
Qed.

Lemma head_re_m (m : Z) (rest : string) :
  1 ≤ m < 13 → head (re_m (two_digits m rest)) = Some (m, rest).
Proof.
  revert m. apply (forall_range _ 1 12). intros i Hi.
  do 12 (destruct i as [|i]; [reflexivity|]). lia.
Qed.

Lemma head_re_d (d : Z) (rest : string) :
  1 ≤ d < 32 → head (re_d (two_digits d rest)) = Some (d, rest).
Proof.
  revert d. apply (forall_range _ 1 31). intros i Hi.
  do 31 (destruct i as [|i]; [reflexivity|]). lia.
Qed.

Lemma head_re_H (H : Z) (rest : string) :
  0 ≤ H < 24 → head (re_H (two_digits H rest)) = Some (H, rest).
Proof.
  revert H. apply (forall_range _ 0 24). intros i Hi.
  do 24 (destruct i as [|i]; [reflexivity|]). lia.
Qed.

Lemma head_re_M (M : Z) (rest : string) :
  0 ≤ M < 60 → head (re_M (two_digits M rest)) = Some (M, rest).
Proof.
  revert M. apply (forall_range _ 0 60). intros i Hi.
  do 60 (destruct i as [|i]; [reflexivity|]). lia.
Qed.

Lemma days_in_month_le (y m : Z) : days_in_month y m ≤ 31.
Proof.
  unfold days_in_month. destruct m as [|p|p]; [lia| |lia].
  do 4 (try destruct p as [p|p|]); try lia; destruct (is_leap y); lia.
Qed.

Lemma valid_bounds (dt : datetime) :
  valid dt = true →
  1 ≤ year dt < 10000 ∧ 1 ≤ month dt < 13 ∧ 1 ≤ day dt < 32 ∧
  0 ≤ hour dt < 24 ∧ 0 ≤ minute dt < 60 ∧
  valid_date (year dt) (month dt) (day dt) = true.
Proof.
  unfold valid. intros [Hd Ht]%andb_true_iff.
  pose proof (days_in_month_le (year dt) (month dt)).
  unfold valid_date, valid_time in *.
  repeat split; try done; lia.
Qed.

Lemma year_digits_four (y : Z) (rest : string) :
  1000 ≤ y → year_digits y rest = four_digits y rest.
Proof.
  intros Hy. unfold year_digits.
  destruct (Z.ltb_spec y 10); [lia|]. destruct (Z.ltb_spec y 100); [lia|].
  destruct (Z.ltb_spec y 1000); [lia|]. done.
Qed.

Lemma re_digit_digit (d : Z) (rest : string) :
  0 ≤ d < 10 → re_digit 0 9 (String (digit_char d) rest) = [(d, rest)].
Proof.
  revert d. apply (forall_range _ 0 10). intros i Hi.
  do 10 (destruct i as [|i]; [reflexivity|]). lia.
Qed.

(** A year of fewer than four digits is not what [\d\d\d\d] matches. *)
Lemma re_Y_short_year (y : Z) (rest : string) :
  1 ≤ y < 1000 → re_Y (year_digits y (String "-" rest)) = [].
Proof.
  intros Hy. unfold year_digits, re_Y, two_digits, re_bind.
  destruct (Z.ltb_spec y 10).
  { rewrite re_digit_digit by lia. reflexivity. }
  destruct (Z.ltb_spec y 100).
  { rewrite re_digit_digit by (Z.div_mod_to_equations; lia). cbn [map concat fst snd].
    rewrite re_digit_digit by (Z.div_mod_to_equations; lia). reflexivity. }
  destruct (Z.ltb_spec y 1000); [|lia].
  rewrite re_digit_digit by (Z.div_mod_to_equations; lia). cbn [map concat fst snd].
  rewrite re_digit_digit by (Z.div_mod_to_equations; lia). cbn [map concat fst snd app].
  rewrite re_digit_digit by (Z.div_mod_to_equations; lia). reflexivity.
Qed.

(** What [strftime] writes for a year of four digits, [strptime] reads
    back, to the minute: the seconds and microseconds are not written. *)
Lemma strptime_strftime_minute (dt : datetime) :
  valid dt = true →
  1000 ≤ year dt →
  strptime (strftime dt)
  = Some (mk_datetime (year dt) (month dt) (day dt) (hour dt) (minute dt) 0 0).
Proof.
  intros (Hy & Hm & Hd & HH & HM & Hdate)%valid_bounds Hyear.
  assert (head (format_regex (strftime dt))
          = Some (mk_datetime (year dt) (month dt) (day dt)
                    (hour dt) (minute dt) 0 0, EmptyString)) as Hhead.
  { unfold format_regex, strftime. rewrite year_digits_four by done.
    eapply head_re_bind; [apply head_re_Y; lia|].
    eapply head_re_bind; [reflexivity|].
    eapply head_re_bind; [by apply head_re_m|].
    eapply head_re_bind; [reflexivity|].
    eapply head_re_bind; [by apply head_re_d|].
    eapply head_re_bind;
      [apply head_re_spaces; Z.div_mod_to_equations; lia|].
    eapply head_re_bind; [by apply head_re_H|].
    eapply head_re_bind; [reflexivity|].
    eapply head_re_bind; [by apply head_re_M|].
    apply head_re_ret. }
  unfold strptime.
  destruct (format_regex (strftime dt)) as [|[dt' s'] tl]; [done|].
  simpl in Hhead. injection Hhead as -> ->. simpl. by rewrite Hdate.
Qed.

(** A date exact to the minute, in a year of four digits, comes back as it
    was. *)
Lemma strptime_strftime (dt : datetime) :
  valid dt = true → minute_precision dt = true → 1000 ≤ year dt →
  strptime (strftime dt) = Some dt.
Proof.
  intros Hv Hprec Hyear. rewrite strptime_strftime_minute by done.
  unfold minute_precision in Hprec.
  apply andb_true_iff in Hprec as [Hs Hus].
  destruct dt; simpl in *. do 2 f_equal; lia.
Qed.

(** What [strftime] writes for a year below 1000, [strptime] refuses. *)
Lemma strptime_strftime_short_year (dt : datetime) :
  valid dt = true → year dt < 1000 → strptime (strftime dt) = None.
Proof.
  intros (Hy & _)%valid_bounds Hyear.
  unfold strptime, format_regex, strftime.
  unfold re_bind at 1. by rewrite re_Y_short_year by lia.
Qed.

End Codec.

(** ** Documents *)

Section Documents.

Lemma dump_VList (items : list value) :
  dump (VList items)
  = result_bind (result_map dump items) (λ js, inr (JArray js)).
Proof.
  simpl. f_equal. induction items as [|x items IH]; simpl; [done|].
  destruct (dump x); simpl; [done|]. by rewrite IH.
Qed.

Lemma dump_VDict (items : list (string * value)) :
  dump (VDict items)
  = result_bind
      (result_map (λ kv, result_bind (dump (snd kv)) (λ j, inr (fst kv, j))) items)
      (λ kjs, inr (JObject kjs)).
Proof.
  simpl. f_equal. induction items as [|[k x] items IH]; simpl; [done|].
  destruct (dump x); simpl; [done|]. by rewrite IH.
Qed.

Lemma dump_tags (l : list string) :
  dump (VList (map VStr l)) = inr (JArray (map JString l)).
Proof.
  rewrite dump_VList.
  assert (result_map dump (map VStr l) = inr (map JString l)) as ->; [|done].
  induction l as [|s l IH]; simpl; [done|]. by rewrite IH.
Qed.

Lemma dump_event (e : Event) :
  dump (VDict (dict_set "date_time" (VStr (strftime (date_time e))) (Event_dict e)))
  = inr (event_json e).
Proof.
  unfold Event_dict, event_json. cbn [dict_set String.eqb Ascii.eqb Bool.eqb].
  rewrite dump_VDict. cbn [result_map fst snd]. by rewrite dump_tags.
Qed.

(** [json.dump] never fails on the list [save_events] builds. *)
Lemma dump_events_data (evs : list Event) :
  dump (VList (map VDict (events_data_of evs))) = inr (store_document evs).
Proof.
  rewrite dump_VList. unfold store_document, events_data_of.
  assert (result_map dump
            (map VDict
               (map (λ event, dict_set "date_time"
                                (VStr (strftime (date_time event)))
                                (Event_dict event)) evs))
          = inr (map event_json evs)) as ->; [|done].
  induction evs as [|e evs IH]; [done|].
  cbn [map result_map]. rewrite dump_event, IH. done.
Qed.

Lemma load_JArray hook (items : list json) :
  load hook (JArray items)
  = result_bind (result_map (load hook) items) (λ vs, inr (VList vs)).
Proof.
  simpl. f_equal. induction items as [|x items IH]; simpl; [done|].
  destruct (load hook x); simpl; [done|]. by rewrite IH.
Qed.

Lemma load_JObject hook (members : list (string * json)) :
  load hook (JObject members)
  = result_bind
      (result_map (λ kx, result_bind (load hook (snd kx)) (λ v, inr (fst kx, v)))
         members)
      (λ pairs, hook (dict_of_pairs pairs)).
Proof.
  simpl. f_equal. induction members as [|[k x] members IH]; simpl; [done|].
  destruct (load hook x); simpl; [done|]. by rewrite IH.
Qed.

Lemma load_tags hook (l : list string) :
  load hook (JArray (map JString l)) = inr (VList (map VStr l)).
Proof.
  rewrite load_JArray.
  assert (result_map (load hook) (map JString l) = inr (map VStr l)) as ->;
    [|done].
  induction l as [|s l IH]; simpl; [done|]. by rewrite IH.
Qed.

(** A persisted event comes back as the [dict] of the event, with its
    [date_time] a [datetime] again. *)
Lemma load_event_json (e : Event) :
  valid (date_time e) = true → minute_precision (date_time e) = true →
  four_digit_year e →
  load event_decoder (event_json e) = inr (VDict (Event_dict e)).
Proof.
  intros Hv Hp Hy. unfold event_json.
  rewrite load_JObject. cbn [result_map fst snd]. rewrite load_tags.
  cbn [load result_bind]. unfold event_decoder, dict_has. cbn.
  by rewrite strptime_strftime.
Qed.

(** A persisted event of a year below 1000 does not come back: its
    [date_time] is refused. *)
Lemma load_event_json_short_year (e : Event) :
  valid (date_time e) = true → year (date_time e) < 1000 →
  load event_decoder (event_json e) = inl ValueError.
Proof.
  intros Hv Hy. unfold event_json.
  rewrite load_JObject. cbn [result_map fst snd]. rewrite load_tags.
  cbn [load result_bind]. unfold event_decoder, dict_has. cbn.
  by rewrite strptime_strftime_short_year.
Qed.

Lemma Event_kwargs_dict (e : Event) :
  Event_kwargs (VDict (Event_dict e)) = inr (object_of e).
Proof.
  unfold Event_kwargs, Event_dict, object_of, EventObject_init. cbn.
  by destruct (tags e).
Qed.

(** Two events that are the same object have the same three fields. *)
Lemma object_of_inj (e1 e2 : Event) : object_of e1 = object_of e2 → e1 = e2.
Proof.
  destruct e1 as [t1 d1 g1], e2 as [t2 d2 g2]. unfold object_of; simpl.
  intros [= -> -> Hg]. f_equal.
  revert g2 Hg. induction g1 as [|x g1 IH]; intros [|y g2]; simpl; try done.
  intros [= -> Hg]. f_equal. by apply IH.
Qed.

(** Decoding the document of a store gives back its events, when their
    years have four digits. *)
Lemma load_store_document (evs : list Event) :
  Forall storable evs →
  Forall four_digit_year evs →
  result_bind (load event_decoder (store_document evs)) (λ events_data,
    result_bind (iterate events_data) (result_map Event_kwargs))
  = inr (map object_of evs).
Proof.
  intros Hall Hyears. unfold store_document. rewrite load_JArray.
  assert (result_map (load event_decoder) (map event_json evs)
          = inr (map (λ e, VDict (Event_dict e)) evs)) as ->.
  { induction Hall as [|e evs [Hv Hp] _ IH]; [done|].
    inversion Hyears; subst.
    cbn [map result_map]. rewrite load_event_json, IH by done. done. }
  cbn [result_bind iterate].
  clear Hall Hyears. induction evs as [|e evs IH]; [done|].
  cbn [map result_map]. rewrite Event_kwargs_dict, IH. done.
Qed.

(** One event of a year below 1000 and the document of the store cannot
    be decoded. *)
Lemma load_store_document_short_year (evs : list Event) :
  Forall storable evs →
  Exists (λ e, year (date_time e) < 1000) evs →
  load event_decoder (store_document evs) = inl ValueError.
Proof.
  intros Hall Hex. unfold store_document. rewrite load_JArray.
  assert (result_map (load event_decoder) (map event_json evs) = inl ValueError)
    as ->; [|done].
  induction Hall as [|e evs [Hv Hp] _ IH]; [by inversion Hex|].
  cbn [map result_map].
  destruct (Z.lt_ge_cases (year (date_time e)) 1000) as [Hy|Hy].
  - by rewrite load_event_json_short_year.
  - rewrite load_event_json by (done || (unfold four_digit_year; lia)).
    cbn [result_bind]. rewrite IH; [done|].
    inversion Hex; subst; [lia|done].
Qed.

(** Induction on documents, the items of an array and the members of an
    object included. *)
Lemma json_ind' (P : json → Prop) :
  P JNull → (∀ b, P (JBool b)) → (∀ n, P (JNumber n)) → (∀ s, P (JString s)) →
  (∀ items, Forall P items → P (JArray items)) →
  (∀ members, Forall (λ kx, P (snd kx)) members → P (JObject members)) →
  P JSyntaxError →
  ∀ j, P j.
Proof.
  intros Hnull Hbool Hnum Hstr Harr Hobj Hbad.
  fix IH 1. intros [| b | n | s | items | members |];
    [exact Hnull | apply Hbool | apply Hnum | apply Hstr | | | exact Hbad].
  - apply Harr. induction items as [|x items IHitems]; constructor;
      [apply IH | exact IHitems].
  - apply Hobj. induction members as [|[k x] members IHm]; constructor;
      [apply IH | exact IHm].
Qed.

Lemma result_map_raises {A B} (f : A → result B) (l : list A) (e : exn) :
  result_map f l = inl e → Exists (λ x, f x = inl e) l.
Proof.
  induction l as [|x l IH]; simpl; [done|].
  destruct (f x) as [e'|y] eqn:Hx; simpl.
  - intros [= ->]. by left.
  - destruct (result_map f l) as [e'|ys]; simpl; [|done].
    intros [= ->]. right. by apply IH.
Qed.

Lemma event_decoder_raises (obj : dict) (e : exn) :
  event_decoder obj = inl e → e = ValueError ∨ e = TypeError.
Proof.
  unfold event_decoder. destruct (dict_has "date_time" obj); [|done].
  destruct (dict_get "date_time" obj) as [[| | |s| | |]|]; try (intros [= <-]; by right).
  destruct (strptime s); [done|]. intros [= <-]. by left.
Qed.

(** Decoding raises nothing but [JSONDecodeError], [ValueError] and
    [TypeError]. *)
Lemma load_raises (j : json) (e : exn) :
  load event_decoder j = inl e →
  e = JSONDecodeError ∨ e = ValueError ∨ e = TypeError.
Proof.
  revert e. induction j as [| | | |items IH|members IH|] using json_ind';
    intros e; try done.
  - rewrite load_JArray.
    destruct (result_map (load event_decoder) items) as [e'|vs] eqn:Hm; [|done].
    cbn [result_bind]. intros [= ->].
    apply result_map_raises in Hm. rewrite Exists_exists in Hm.
    destruct Hm as (x & Hin & Hx). rewrite Forall_forall in IH. by eapply IH.
  - rewrite load_JObject.
    destruct (result_map _ members) as [e'|pairs] eqn:Hm; cbn [result_bind].
    + intros [= ->]. apply result_map_raises in Hm. rewrite Exists_exists in Hm.
      destruct Hm as ([k x] & Hin & Hx). rewrite Forall_forall in IH.
      cbn [fst snd] in Hx. destruct (load event_decoder x) as [e'|v] eqn:Hl; [|done].
      cbn [result_bind] in Hx. injection Hx as ->. by eapply (IH (k, x)).
    + intros Hh. apply event_decoder_raises in Hh. tauto.
  - intros [= <-]. by left.
Qed.

Lemma load_file_raises (f : file) (e : exn) :
  load_file event_decoder f = inl e →
  e = JSONDecodeError ∨ e = ValueError ∨ e = TypeError.
Proof.
  unfold load_file. destruct (load event_decoder (document f)) as [e'|v] eqn:Hl.
  - cbn [result_bind]. intros [= ->]. by apply load_raises in Hl.
  - cbn [result_bind]. destruct (extra_data f); [|done]. intros [= <-]. by left.
Qed.

Lemma iterate_raises (v : value) (e : exn) : iterate v = inl e → e = TypeError.
Proof. destruct v; simpl; congruence. Qed.

Lemma Event_kwargs_raises (items : list value) (e : exn) :
  result_map Event_kwargs items = inl e → e = TypeError.
Proof.
  intros Hm. apply result_map_raises in Hm. rewrite Exists_exists in Hm.
  destruct Hm as (x & _ & Hx). unfold Event_kwargs in Hx.
  destruct x as [| | | | |d|]; try congruence.
  destruct (forallb _ _); [|congruence].
  destruct (dict_get "title" d); [|congruence].
  destruct (dict_get "date_time" d); congruence.
Qed.

(** A record whose [date_time] does not fit the format stops the decoding
    with [ValueError], whatever follows it. *)
Lemma load_malformed_date (evs : list Event) (t s : string) (tg : list string)
    (after : list json) :
  Forall storable evs →
  strptime s = None →
  load event_decoder
    (JArray (map event_json evs
             ++ JObject [("title", JString t); ("date_time", JString s);
                         ("tags", JArray (map JString tg))] :: after))
  = inl ValueError.
Proof.
  intros Hall Hs. rewrite load_JArray.
  assert (result_map (load event_decoder)
            (map event_json evs
             ++ JObject [("title", JString t); ("date_time", JString s);
                         ("tags", JArray (map JString tg))] :: after)
          = inl ValueError) as ->; [|done].
  induction Hall as [|e evs [Hv Hp] _ IH].
  - cbn [map app result_map]. rewrite load_JObject.
    cbn [result_map fst snd]. rewrite load_tags.
    cbn [load result_bind]. unfold event_decoder, dict_has. cbn.
    by rewrite Hs.
  - cbn [map app result_map].
    destruct (Z.lt_ge_cases (year (date_time e)) 1000) as [Hy|Hy].
    + by rewrite load_event_json_short_year.
    + rewrite load_event_json by (done || (unfold four_digit_year; lia)).
      cbn [result_bind]. by rewrite IH.
Qed.

End Documents.

(** ** Running operations *)

(** Brings a state built by nested updates into the form of a record of
    its fields. *)
Ltac norm_state :=
  cbn [with_events with_files with_ticks with_keyboard with_console
       self files denied clock ticks keyboard console file_path events fst snd].

(** Compares two states field by field, up to the bracketing of the
    console log. *)
Ltac same_state :=
  norm_state; repeat (rewrite <- !app_assoc; cbn [app]); try reflexivity.

Section Running.

Lemma bind_Return {A B} (m : M A) (k : A → M B) st a st' :
  m st = (Return a, st') → (m ≫= k) st = k a st'.
Proof. unfold mbind, M_bind. by intros ->. Qed.

Lemma bind_Raise {A B} (m : M A) (k : A → M B) st e st' :
  m st = (Raise e, st') → (m ≫= k) st = (Raise e, st').
Proof. unfold mbind, M_bind. by intros ->. Qed.

Lemma bind_Blocked {A B} (m : M A) (k : A → M B) st st' :
  m st = (Blocked, st') → (m ≫= k) st = (Blocked, st').
Proof. unfold mbind, M_bind. by intros ->. Qed.

Lemma bind_inv_Return {A B} (m : M A) (k : A → M B) st b st2 :
  (m ≫= k) st = (Return b, st2) →
  ∃ a st1, m st = (Return a, st1) ∧ k a st1 = (Return b, st2).
Proof.
  unfold mbind, M_bind. destruct (m st) as [[a|e|] st1]; [|done|done].
  intros H. by exists a, st1.
Qed.

Lemma handle_error_Return (func : M unit) st st' :
  func st = (Return tt, st') → handle_error func st = (Return tt, st').
Proof. unfold handle_error. by intros ->. Qed.

(** A wrapped operation never raises. *)
Lemma handle_error_catches (func : M unit) st e :
  (handle_error func st).1 ≠ Raise e.
Proof.
  unfold handle_error. by destruct (func st) as [[[]|e'|] st'].
Qed.

Lemma save_events_run (st : state) :
  save_events st =
  if bool_decide (file_path (self st) ∈ denied st)
  then (Raise PermissionError, st)
  else (Return tt,
        with_files (<[file_path (self st) := written (store_document (events (self st)))]>
                      (files st)) st).
Proof.
  unfold save_events, open_w.
  unfold mbind, M_bind, get, modify, lift_result. cbn beta iota.
  case_bool_decide as Hd; [done|].
  cbn [self with_files events file_path].
  rewrite dump_events_data. unfold mret, M_ret. cbn.
  by rewrite insert_insert_eq.
Qed.

Lemma load_events_body_run (st : state) :
  load_events_body st
  = (match load_result st with inl e => Raise e | inr l => Return l end, st).
Proof.
  unfold load_events_body, load_result, mbind, M_bind, get, lift_result.
  cbn beta iota.
  destruct (open_r (file_path (self st)) st) as [e|file]; [done|].
  cbn [result_bind].
  destruct (load_file event_decoder file) as [e|events_data]; [done|].
  cbn [result_bind]. unfold mret, M_ret.
  destruct (iterate events_data) as [e|items]; [done|].
  cbn [result_bind].
  by destruct (result_map Event_kwargs items).
Qed.

Lemma save_events_Return (st st' : state) :
  save_events st = (Return tt, st') →
  persisted st' ∧ self st' = self st ∧ file_path (self st) ∉ denied st.
Proof.
  rewrite save_events_run. case_bool_decide as Hd; [done|].
  intros [= <-]. unfold persisted. cbn. by rewrite lookup_insert_eq.
Qed.

End Running.

(** One step of a chain of binds whose first operation returns. *)
Ltac step_by tac := erewrite bind_Return by tac; norm_state.

(** ** Loading and saving *)

(** C1, as amended.  Round trip, for years of four digits: when the file
    of the store can be written, and the events of the list have dates
    that exist, exact to the minute, in the years from 1000 on,
    [save_events] returns, and [load_events] on the file it wrote -- by a
    manager on the same path, whatever list that manager holds -- returns
    one object per event of the store, in store order, each with the title,
    the date_time and the tags of its event. *)
Theorem save_then_load_roundtrip (st : state) (held : list Event) :
  Forall storable (events (self st)) →
  Forall four_digit_year (events (self st)) →
  file_path (self st) ∉ denied st →
  ∃ st', save_events st = (Return tt, st')
         ∧ load_events (with_events held st')
           = (Return (map object_of (events (self st))), with_events held st').
Proof.
  intros Hall Hyears Hd. eexists. split.
  - rewrite save_events_run. by rewrite bool_decide_eq_false_2.
  - unfold load_events, try_except_FileNotFoundError.
    rewrite load_events_body_run. unfold load_result, open_r.
    cbn [self with_files with_events files denied file_path].
    rewrite lookup_insert_eq, bool_decide_eq_false_2 by done.
    unfold load_file. cbn [document written extra_data result_bind].
    pose proof (load_store_document _ Hall Hyears) as Hload.
    destruct (load event_decoder (store_document (events (self st))))
      as [e|events_data]; [done|].
    cbn [result_bind] in *. by rewrite Hload.
Qed.

Lemma save_then_load_roundtrip_witness :
  ∃ st', save_events roundtrip_state = (Return tt, st')
         ∧ load_events (with_events [review1] st')
           = (Return (map object_of (events (self roundtrip_state))),
              with_events [review1] st').
Proof.
  apply (save_then_load_roundtrip roundtrip_state [review1]).
  - repeat constructor.
  - repeat (constructor; [unfold four_digit_year; cbn; lia|]). constructor.
  - vm_compute. set_solver.
Defined.

(** C1, as stated, fails for a year below 1000.  The event is one the
    program makes (the user types [0999-01-01 00:00] at the date prompt);
    [save_events] writes its year as [999], and [load_events] refuses the
    file it wrote with [ValueError]. *)
Lemma save_then_load_roundtrip_counterexample :
  strptime "0999-01-01 00:00" = Some (date_time old_event)
  ∧ Forall storable (events (self old_state))
  ∧ (file_path (self old_state) ∉ denied old_state)
  ∧ ∃ st', save_events old_state = (Return tt, st')
           ∧ files st'
             = {["events.json"
                 := written
                      (JArray [JObject [("title", JString "Millennium");
                                        ("date_time", JString "999-01-01 00:00");
                                        ("tags", JArray [JString ""])]])]}
           ∧ load_events st' = (Raise ValueError, st').
Proof.
  split; [vm_compute; reflexivity|].
  split; [repeat constructor|].
  split; [apply not_elem_of_empty|].
  exists (save_events old_state).2.
  split; [|split]; vm_compute; reflexivity.
Qed.

(** C6. [load_events] on a path with no file returns the empty list and
    raises nothing.  That is the only failure it catches: when the file
    exists, whatever else goes wrong while reading it comes out of
    [load_events] as raised -- a text that is not JSON as
    [JSONDecodeError], a [date_time] that does not fit the format as
    [ValueError]. *)
Theorem load_events_catches_only_missing_file (st : state) :
  (files st !! file_path (self st) = None → load_events st = (Return [], st))
  ∧ (∀ f, files st !! file_path (self st) = Some f →
       load_events st
       = (match load_result st with inl e => Raise e | inr l => Return l end, st))
  ∧ (∀ f, files st !! file_path (self st) = Some f →
       file_path (self st) ∉ denied st →
       document f = JSyntaxError →
       load_events st = (Raise JSONDecodeError, st))
  ∧ (∀ f evs t s tg after,
       files st !! file_path (self st) = Some f →
       file_path (self st) ∉ denied st →
       Forall storable evs →
       strptime s = None →
       document f
       = JArray (map event_json evs
                 ++ JObject [("title", JString t); ("date_time", JString s);
                             ("tags", JArray (map JString tg))] :: after) →
       load_events st = (Raise ValueError, st)).
Proof.
  unfold load_events, try_except_FileNotFoundError.
  rewrite load_events_body_run. unfold load_result, open_r.
  split; [by intros ->|]. split; [|split].
  - intros f ->. case_bool_decide; [done|]. cbn [result_bind].
    destruct (load_file event_decoder f) as [e|events_data] eqn:Hl.
    + cbn [result_bind]. apply load_file_raises in Hl.
      by destruct Hl as [->|[->| ->]].
    + cbn [result_bind]. destruct (iterate events_data) as [e|items] eqn:Hi.
      * apply iterate_raises in Hi as ->. done.
      * cbn [result_bind].
        destruct (result_map Event_kwargs items) as [e|l] eqn:Hk; [|done].
        apply Event_kwargs_raises in Hk as ->. done.
  - intros f -> Hd Hdoc. rewrite bool_decide_eq_false_2 by done.
    cbn [result_bind]. unfold load_file. by rewrite Hdoc.
  - intros f evs t s tg after -> Hd Hall Hs Hdoc.
    rewrite bool_decide_eq_false_2 by done.
    cbn [result_bind]. unfold load_file. rewrite Hdoc.
    by rewrite (load_malformed_date evs t s tg after Hall Hs).
Qed.

Lemma load_events_catches_only_missing_file_witness :
  load_events (base_state [] ∅ []) = (Return [], base_state [] ∅ [])
  ∧ load_events (base_state [] {["events.json" := not_json_file]} [])
    = (Raise JSONDecodeError, base_state [] {["events.json" := not_json_file]} [])
  ∧ load_events (base_state [] {["events.json" := bad_date_file]} [])
    = (Raise ValueError, base_state [] {["events.json" := bad_date_file]} []).
Proof.
  split; [|split].
  - apply (load_events_catches_only_missing_file (base_state [] ∅ [])).
    reflexivity.
  - destruct (load_events_catches_only_missing_file
                (base_state [] {["events.json" := not_json_file]} []))
      as (_ & _ & H & _).
    apply (H not_json_file); [reflexivity | apply not_elem_of_empty | reflexivity].
  - destruct (load_events_catches_only_missing_file
                (base_state [] {["events.json" := bad_date_file]} []))
      as (_ & _ & _ & H).
    apply (H bad_date_file [] "Standup" "tomorrow 9am" ["work"] []);
      [reflexivity | apply not_elem_of_empty | constructor
      | vm_compute; reflexivity | reflexivity].
Defined.

(** ** Operations that only look *)

Create HintDb frame discriminated.

Section Frame.

Lemma keeps_ret {A} (a : A) : keeps_store (mret a).
Proof. done. Qed.

Lemma keeps_bind {A B} (m : M A) (k : A → M B) :
  keeps_store m → (∀ a, keeps_store (k a)) → keeps_store (m ≫= k).
Proof.
  intros Hm Hk st. unfold mbind, M_bind.
  specialize (Hm st). destruct (m st) as [[a|e|] st1]; [|done|done].
  cbn [snd] in Hm. destruct (Hk a st1) as [H1 H2].
  destruct Hm as [H3 H4]. split; congruence.
Qed.

Lemma keeps_raise {A} (e : exn) : keeps_store (@raise A e).
Proof. done. Qed.

Lemma keeps_blocked {A} : keeps_store (@blocked A).
Proof. done. Qed.

Lemma keeps_get {A} (f : state → A) : keeps_store (get f).
Proof. done. Qed.

Lemma keeps_lift_result {A} (r : result A) : keeps_store (lift_result r).
Proof. by destruct r. Qed.

Lemma keeps_log (c : console_event) : keeps_store (log c).
Proof. done. Qed.

Lemma keeps_with_keyboard (k : list string) : keeps_store (modify (with_keyboard k)).
Proof. done. Qed.

Lemma keeps_with_ticks (n : nat) : keeps_store (modify (with_ticks n)).
Proof. done. Qed.

Lemma keeps_handle_error (func : M unit) :
  keeps_store func → keeps_store (handle_error func).
Proof.
  intros Hf st. unfold handle_error. specialize (Hf st).
  by destruct (func st) as [[[]|e|] st1].
Qed.

Lemma keeps_get_input (prompt : string) : keeps_store (view.get_input prompt).
Proof.
  unfold view.get_input. apply keeps_bind; [apply keeps_log|intros _].
  apply keeps_bind; [apply keeps_get|intros [|line k]]; [apply keeps_blocked|].
  apply keeps_bind; [apply keeps_with_keyboard | intros _; apply keeps_ret].
Qed.

Lemma keeps_datetime_now : keeps_store datetime_now.
Proof.
  unfold datetime_now. apply keeps_bind; [apply keeps_get|intros n].
  apply keeps_bind; [apply keeps_get|intros c].
  apply keeps_bind; [apply keeps_with_ticks | intros _; apply keeps_ret].
Qed.

End Frame.

#[export] Hint Resolve keeps_ret keeps_raise keeps_blocked keeps_get
  keeps_lift_result keeps_log keeps_with_keyboard keeps_with_ticks
  keeps_get_input keeps_datetime_now : frame.
#[export] Hint Extern 1 (keeps_store (view.display_message _)) => apply keeps_log : frame.
#[export] Hint Extern 1 (keeps_store (view.display_error _)) => apply keeps_log : frame.
#[export] Hint Extern 1 (keeps_store (view.display_events_list _)) => apply keeps_log : frame.
#[export] Hint Extern 1 (keeps_store (view.display_event_details _)) => apply keeps_log : frame.

(** Walks down a chain of binds, leaving the steps to the hints. *)
Ltac frame :=
  repeat first
    [ progress intros
    | apply keeps_handle_error
    | apply keeps_bind
    | match goal with
      | |- keeps_store (match ?x with _ => _ end) => destruct x
      end ];
  auto with frame.

Section FrameOperations.

Lemma keeps_read_date_time_rounds (rounds : nat) (prompt : string) :
  keeps_store (read_date_time_rounds rounds prompt).
Proof. induction rounds as [|rounds IH]; simpl; frame. Qed.

Lemma keeps_read_date_time (prompt : string) : keeps_store (read_date_time prompt).
Proof. intros st. apply keeps_read_date_time_rounds. Qed.

Lemma keeps_within_a_week (l : list Event) : keeps_store (within_a_week l).
Proof.
  induction l as [|event l IH]; simpl; [frame|].
  unfold time_until_event. frame.
Qed.

Lemma keeps_search_event : keeps_store search_event.
Proof. unfold search_event. frame. Qed.

Lemma keeps_show_upcoming_events : keeps_store show_upcoming_events.
Proof.
  unfold show_upcoming_events, show_upcoming_events_body. frame.
  apply keeps_within_a_week.
Qed.

Lemma keeps_show_all_events : keeps_store show_all_events.
Proof. unfold show_all_events, show_all_events_body. frame. Qed.

End FrameOperations.

(** C10. [search_event], [show_upcoming_events] and [show_all_events] only
    look: in whatever state they run and however they end, the in-memory
    list and the files are afterwards what they were before. *)
Theorem read_only_operations_keep_store (st : state) :
  (self (search_event st).2 = self st ∧ files (search_event st).2 = files st)
  ∧ (self (show_upcoming_events st).2 = self st
     ∧ files (show_upcoming_events st).2 = files st)
  ∧ (self (show_all_events st).2 = self st
     ∧ files (show_all_events st).2 = files st).
Proof.
  pose proof keeps_search_event. pose proof keeps_show_upcoming_events.
  pose proof keeps_show_all_events. auto.
Qed.

(** ** Searching *)

#[global] Instance matches_dec (query : string) (event : Event) :
  Decision (matches query event).
Proof. unfold matches. apply _. Defined.

Lemma search_test_spec (query : string) (event : Event) :
  search_test query event = true ↔ matches query event.
Proof.
  unfold search_test, matches.
  rewrite orb_true_iff, str_in_spec.
  by rewrite (any_spec _ (Py.substring_of query)) by (intros; apply str_in_spec).
Qed.

Lemma filter_bool_Prop {A} (f : A → bool) (P : A → Prop) `{∀ x, Decision (P x)}
    (l : list A) :
  (∀ x, f x = true ↔ P x) → List.filter f l = filter P l.
Proof.
  intros Hf. induction l as [|x l IH]; [done|].
  simpl. rewrite filter_cons. destruct (f x) eqn:E.
  - rewrite decide_True by (by apply Hf). by rewrite IH.
  - rewrite decide_False; [done|]. rewrite <- Hf. congruence.
Qed.

(** C2. When the user types [query], [search_event] returns normally and
    shows exactly the events of the store that match it -- the query is a
    substring, by code points and so case-sensitive, of the title or of a
    tag -- in the order of the store; an event that does not match is not
    shown.  (With no match it shows an error message instead of a list.) *)
Theorem search_event_shows_matches (st : state) (query : string) (rest : list string) :
  let results := filter (matches query) (events (self st)) in
  search_event (with_keyboard (query :: rest) st)
  = (Return tt,
     with_console
       (console st ++ get_input_call "Enter event title to search: "
                   :: search_report results)
       (with_keyboard rest st))
  ∧ results `sublist_of` events (self st)
  ∧ ∀ event, event ∈ results ↔ event ∈ events (self st) ∧ matches query event.
Proof.
  intros results. split; [|split].
  - unfold search_event, view.get_input, view.display_message,
      view.display_error, view.display_events_list, log.
    unfold mbind, M_bind, mret, M_ret, get, modify. cbn beta iota.
    cbn [keyboard with_keyboard with_console self events].
    rewrite (filter_bool_Prop _ (matches query)) by apply search_test_spec.
    fold results. clearbody results.
    destruct st as [[path evs] fs dn clk tk kb cons].
    destruct results as [|r rs]; same_state.
  - apply sublist_filter.
  - intros event. unfold results. rewrite list_elem_of_filter. tauto.
Qed.

(** ** The console *)

Section Console.

Lemma get_input_run (prompt : string) (st : state) (line : string) (rest : list string) :
  keyboard st = line :: rest →
  view.get_input prompt st
  = (Return line,
     with_keyboard rest (with_console (console st ++ [get_input_call prompt]) st)).
Proof.
  intros Hk. unfold view.get_input, log, mbind, M_bind, get, modify.
  cbn beta iota. cbn [keyboard with_console]. rewrite Hk. done.
Qed.

Lemma get_input_blocked (prompt : string) (st : state) :
  keyboard st = [] →
  view.get_input prompt st
  = (Blocked, with_console (console st ++ [get_input_call prompt]) st).
Proof.
  intros Hk. unfold view.get_input, log, mbind, M_bind, get, modify.
  cbn beta iota. cbn [keyboard with_console]. rewrite Hk. done.
Qed.

(** The loop refuses the lines that do not fit the format, one after the
    other, and returns the date of the first line that does. *)
Lemma read_date_time_rounds_run (bad : list string) :
  ∀ (rounds : nat) (prompt : string) (st : state) (good : string) (dt : datetime)
    (rest : list string),
    Forall (λ s, strptime s = None) bad →
    strptime good = Some dt →
    keyboard st = bad ++ good :: rest →
    (length bad < rounds)%nat →
    read_date_time_rounds rounds prompt st
    = (Return dt,
       with_keyboard rest
         (with_console
            (console st ++ reprompts prompt bad ++ [get_input_call prompt]) st)).
Proof.
  induction bad as [|s bad IH]; intros rounds prompt st good dt rest Hbad Hgood Hk Hr.
  - destruct rounds as [|rounds]; [simpl in Hr; lia|].
    cbn [read_date_time_rounds].
    step_by ltac:(apply get_input_run; exact Hk).
    rewrite Hgood. done.
  - destruct rounds as [|rounds]; [simpl in Hr; lia|].
    inversion Hbad as [|? ? Hs Hbad']; subst.
    destruct st as [[path evs] fs dn clk tk kb cons]. cbn [keyboard] in Hk. subst kb.
    cbn [read_date_time_rounds].
    step_by ltac:(apply get_input_run; reflexivity).
    rewrite Hs. unfold view.display_message.
    step_by ltac:(reflexivity).
    rewrite (IH rounds prompt _ good dt rest); [|done|done|reflexivity|simpl in Hr; lia].
    f_equal. same_state.
Qed.

Lemma read_date_time_run (bad : list string) (prompt : string) (st : state)
    (good : string) (dt : datetime) (rest : list string) :
  Forall (λ s, strptime s = None) bad →
  strptime good = Some dt →
  keyboard st = bad ++ good :: rest →
  read_date_time prompt st
  = (Return dt,
     with_keyboard rest
       (with_console
          (console st ++ reprompts prompt bad ++ [get_input_call prompt]) st)).
Proof.
  intros Hbad Hgood Hk. unfold read_date_time.
  apply (read_date_time_rounds_run bad _ _ _ good dt rest); [done|done|done|].
  rewrite Hk, length_app. simpl. lia.
Qed.

End Console.

(** ** Adding *)

Section Adding.

Lemma or_empty_split (sep : ascii) (s : string) :
  or_empty (Some (Py.split sep s)) = Py.split sep s.
Proof.
  pose proof (split_nonempty sep s). by destruct (Py.split sep s).
Qed.

Lemma add_event_body_run (st : state) (title_in : string) (bad : list string)
    (good : string) (dt : datetime) (tags_in : string) (rest : list string) :
  Forall (λ s, strptime s = None) bad →
  strptime good = Some dt →
  keyboard st = title_in :: bad ++ good :: tags_in :: rest →
  add_event_body st
  = if bool_decide (file_path (self st) ∈ denied st)
    then (Raise PermissionError, added title_in bad dt tags_in rest st)
    else (Return tt,
          saved [display_message_call "Event added successfully."]
            (added title_in bad dt tags_in rest st)).
Proof.
  intros Hbad Hgood Hk.
  destruct st as [[path evs] fs dn clk tk kb cons]. cbn [keyboard] in Hk. subst kb.
  unfold add_event_body, saved, added. norm_state.
  step_by ltac:(apply get_input_run; reflexivity).
  step_by ltac:(by apply (read_date_time_run bad _ _ good dt (tags_in :: rest))).
  step_by ltac:(apply get_input_run; reflexivity).
  cbv zeta. step_by ltac:(reflexivity).
  unfold Event_init. rewrite or_empty_split.
  unfold mbind, M_bind. rewrite save_events_run. norm_state.
  case_bool_decide.
  - f_equal. same_state.
  - unfold view.display_message, log, modify. f_equal. same_state.
Qed.

End Adding.

(** ** Editing and deleting *)

Section EditDelete.

Lemma title_eqb_false (x : Event) (title0 : string) :
  title x ≠ title0 → String.eqb (title x) title0 = false.
Proof. intros H. by apply String.eqb_neq. Qed.

Lemma edit_event_loop_skip (title0 : string) (before : list Event) :
  ∀ (i : nat) (l : list Event),
    Forall (λ x, title x ≠ title0) before →
    edit_event_loop title0 i (before ++ l)
    = edit_event_loop title0 (i + length before) l.
Proof.
  induction before as [|x before IH]; intros i l Hb.
  - simpl. by rewrite Nat.add_0_r.
  - inversion Hb as [|? ? Hx Hb']; subst.
    cbn [app edit_event_loop length]. rewrite title_eqb_false by done.
    rewrite IH by done. f_equal. lia.
Qed.

Lemma delete_event_loop_skip (title0 : string) (before l : list Event) :
  Forall (λ x, title x ≠ title0) before →
  delete_event_loop title0 (before ++ l) = delete_event_loop title0 l.
Proof.
  induction 1 as [|x before Hx Hb IH]; [done|].
  cbn [app delete_event_loop]. by rewrite title_eqb_false.
Qed.

Lemma alter_middle {A} (f : A → A) (before : list A) (x : A) (after : list A) :
  alter f (length before) (before ++ x :: after) = before ++ f x :: after.
Proof.
  rewrite <- (Nat.add_0_r (length before)). by rewrite alter_app_r.
Qed.

(** [remove] takes out the event the loop stopped at: no earlier event is
    equal to it, since none has its title. *)
Lemma list_remove_first_match (before : list Event) (e : Event) (after : list Event) :
  Forall (λ x, title x ≠ title e) before →
  list_remove e (before ++ e :: after) = inr (before ++ after).
Proof.
  induction 1 as [|x before Hx Hb IH]; simpl.
  - by rewrite bool_decide_eq_true_2.
  - rewrite bool_decide_eq_false_2 by congruence. by rewrite IH.
Qed.

Lemma edit_event_run_found (st : state) (before : list Event) (e : Event)
    (after : list Event) (new_title : string) (bad : list string) (good : string)
    (dt : datetime) (tags_in : string) (rest : list string) :
  events (self st) = before ++ e :: after →
  Forall (λ x, title x ≠ title e) before →
  Forall (λ s, strptime s = None) bad →
  strptime good = Some dt →
  keyboard st = title e :: new_title :: bad ++ good :: tags_in :: rest →
  edit_event st
  = if bool_decide (file_path (self st) ∈ denied st)
    then (Raise PermissionError,
          edited before after new_title bad dt tags_in rest st)
    else (Return tt,
          saved [] (edited before after new_title bad dt tags_in rest st)).
Proof.
  intros Hev Hfirst Hbad Hgood Hk.
  destruct st as [[path evs] fs dn clk tk kb cons].
  cbn [keyboard self events] in Hk, Hev. subst kb evs.
  unfold edit_event, saved, edited. norm_state.
  step_by ltac:(apply get_input_run; reflexivity).
  step_by ltac:(reflexivity).
  rewrite edit_event_loop_skip by done.
  cbn [edit_event_loop Nat.add]. rewrite String.eqb_refl.
  step_by ltac:(apply get_input_run; reflexivity).
  step_by ltac:(by apply (read_date_time_run bad _ _ good dt (tags_in :: rest))).
  step_by ltac:(apply get_input_run; reflexivity).
  cbv zeta. unfold assign.
  do 3 (step_by ltac:(reflexivity)).
  unfold view.display_message. step_by ltac:(reflexivity).
  step_by ltac:(reflexivity).
  rewrite !alter_middle.
  rewrite list_lookup_middle by done.
  unfold view.display_event_details. step_by ltac:(reflexivity).
  rewrite save_events_run. norm_state.
  unfold set_tags, set_date_time, set_title. cbn [title date_time tags].
  case_bool_decide.
  - f_equal. same_state.
  - f_equal. rewrite app_nil_r. same_state.
Qed.

Lemma edit_event_loop_miss (title0 : string) (l : list Event) (i : nat) :
  Forall (λ x, title x ≠ title0) l →
  edit_event_loop title0 i l = view.display_error (not_found_message title0).
Proof.
  intros Hl. rewrite <- (app_nil_r l). by rewrite edit_event_loop_skip.
Qed.

Lemma edit_event_run_missed (st : state) (title0 : string) (rest : list string) :
  Forall (λ x, title x ≠ title0) (events (self st)) →
  keyboard st = title0 :: rest →
  edit_event st
  = (Return tt, missed "Enter event title to edit: " title0 rest st).
Proof.
  intros Hmiss Hk.
  destruct st as [[path evs] fs dn clk tk kb cons].
  cbn [keyboard self events] in Hk, Hmiss. subst kb.
  unfold edit_event, missed. norm_state.
  step_by ltac:(apply get_input_run; reflexivity).
  step_by ltac:(reflexivity).
  rewrite edit_event_loop_miss by done.
  unfold view.display_error, log, modify. f_equal. same_state.
Qed.

Lemma delete_event_run_found (st : state) (before : list Event) (e : Event)
    (after : list Event) (rest : list string) :
  events (self st) = before ++ e :: after →
  Forall (λ x, title x ≠ title e) before →
  keyboard st = title e :: rest →
  delete_event st
  = if bool_decide (file_path (self st) ∈ denied st)
    then (Raise PermissionError, deleted before after rest st)
    else (Return tt, saved [] (deleted before after rest st)).
Proof.
  intros Hev Hfirst Hk.
  destruct st as [[path evs] fs dn clk tk kb cons].
  cbn [keyboard self events] in Hk, Hev. subst kb evs.
  unfold delete_event, saved, deleted. norm_state.
  step_by ltac:(apply get_input_run; reflexivity).
  step_by ltac:(reflexivity).
  rewrite delete_event_loop_skip by done.
  cbn [delete_event_loop]. rewrite String.eqb_refl.
  step_by ltac:(reflexivity).
  rewrite list_remove_first_match by done.
  step_by ltac:(reflexivity).
  step_by ltac:(reflexivity).
  unfold view.display_message. step_by ltac:(reflexivity).
  rewrite save_events_run. norm_state.
  case_bool_decide.
  - f_equal. same_state.
  - f_equal. rewrite app_nil_r. same_state.
Qed.

Lemma delete_event_run_missed (st : state) (title0 : string) (rest : list string) :
  Forall (λ x, title x ≠ title0) (events (self st)) →
  keyboard st = title0 :: rest →
  delete_event st
  = (Return tt, missed "Enter event title to delete: " title0 rest st).
Proof.
  intros Hmiss Hk.
  destruct st as [[path evs] fs dn clk tk kb cons].
  cbn [keyboard self events] in Hk, Hmiss. subst kb.
  unfold delete_event, missed. norm_state.
  step_by ltac:(apply get_input_run; reflexivity).
  step_by ltac:(reflexivity).
  rewrite <- (app_nil_r evs).
  rewrite delete_event_loop_skip by done.
  unfold delete_event_loop, view.display_error, log, modify.
  f_equal. same_state.
Qed.

End EditDelete.

Lemma first_match_split (title0 : string) (l : list Event) :
  Exists (λ x, title x = title0) l →
  ∃ before e after,
    l = before ++ e :: after
    ∧ title e = title0
    ∧ Forall (λ x, title x ≠ title0) before.
Proof.
  induction l as [|x l IH]; intros Hex; [by inversion Hex|].
  destruct (decide (title x = title0)) as [Hx|Hx].
  - by exists [], x, l.
  - inversion Hex as [|? ? Hl]; subst; [done|].
    destruct (IH Hl) as (before & e & after & -> & He & Hb).
    exists (x :: before), e, after. split; [done|]. split; [done|].
    by constructor.
Qed.

(** C4. The user types [title0].  When some event has exactly that title
    and the file can be written, [delete_event] returns having removed one
    event, the first in store order with that title; the events before and
    after it stay as they are, and the file holds the document of the
    shorter list.  When no event has that title, it reports that the event
    was not found, and neither the list nor the files change. *)
Theorem delete_event_removes_first_match (st : state) (title0 : string)
    (rest : list string) :
  keyboard st = title0 :: rest →
  (Exists (λ x, title x = title0) (events (self st)) →
   file_path (self st) ∉ denied st →
   ∃ before e after st',
     events (self st) = before ++ e :: after
     ∧ title e = title0
     ∧ Forall (λ x, title x ≠ title0) before
     ∧ delete_event st = (Return tt, st')
     ∧ events (self st') = before ++ after
     ∧ files st'
       = <[file_path (self st) := written (store_document (before ++ after))]>
           (files st)
     ∧ console st'
       = console st ++ [get_input_call "Enter event title to delete: ";
                        display_message_call "Event deleted successfully."])
  ∧ (Forall (λ x, title x ≠ title0) (events (self st)) →
     ∃ st',
       delete_event st = (Return tt, st')
       ∧ self st' = self st
       ∧ files st' = files st
       ∧ console st'
         = console st ++ [get_input_call "Enter event title to delete: ";
                          display_error_call (not_found_message title0)]).
Proof.
  intros Hk. split.
  - intros Hex Hd.
    destruct (first_match_split _ _ Hex) as (before & e & after & Hev & He & Hb).
    exists before, e, after. eexists.
    split; [done|]. split; [done|]. split; [done|]. subst title0. split.
    + rewrite (delete_event_run_found st before e after rest) by done.
      by rewrite bool_decide_eq_false_2.
    + unfold saved, deleted. cbn. by rewrite app_nil_r.
  - intros Hmiss. eexists. split.
    + by apply delete_event_run_missed.
    + done.
Qed.

Lemma delete_event_removes_first_match_witness :
  (∃ before e after st',
     [standup; review1; review2] = before ++ e :: after
     ∧ title e = "Review"
     ∧ Forall (λ x, title x ≠ "Review") before
     ∧ delete_event (base_state [standup; review1; review2] ∅ ["Review"])
       = (Return tt, st')
     ∧ events (self st') = before ++ after
     ∧ files st'
       = <["events.json" := written (store_document (before ++ after))]> ∅
     ∧ console st'
       = [get_input_call "Enter event title to delete: ";
          display_message_call "Event deleted successfully."])
  ∧ (∃ st',
       delete_event (base_state [standup; review1; review2] ∅ ["Retro"])
       = (Return tt, st')
       ∧ self st' = mk_EventManager "events.json" [standup; review1; review2]
       ∧ files st' = ∅
       ∧ console st'
         = [get_input_call "Enter event title to delete: ";
            display_error_call (not_found_message "Retro")]).
Proof.
  split.
  - apply (delete_event_removes_first_match
             (base_state [standup; review1; review2] ∅ ["Review"]) "Review" []);
      [reflexivity | | apply not_elem_of_empty].
    right. left. reflexivity.
  - apply (delete_event_removes_first_match
             (base_state [standup; review1; review2] ∅ ["Retro"]) "Retro" []);
      [reflexivity|].
    repeat constructor; discriminate.
Defined.

(** C5. The user types [title0].  When no event has exactly that title,
    [edit_event] reports that the event was not found and changes neither
    the list nor the files.  When some event has it, the first such event
    in store order gets, in its place in the list, the new title, the new
    date_time and the new tags split on commas, and -- the file being
    writable -- the file then holds the document of the list. *)
Theorem edit_event_first_match_or_not_found (st : state) (title0 : string)
    (more : list string) :
  keyboard st = title0 :: more →
  (Forall (λ x, title x ≠ title0) (events (self st)) →
   ∃ st',
     edit_event st = (Return tt, st')
     ∧ self st' = self st
     ∧ files st' = files st
     ∧ console st'
       = console st ++ [get_input_call "Enter event title to edit: ";
                        display_error_call (not_found_message title0)])
  ∧ (∀ new_title bad good dt tags_in rest,
       Exists (λ x, title x = title0) (events (self st)) →
       more = new_title :: bad ++ good :: tags_in :: rest →
       Forall (λ s, strptime s = None) bad →
       strptime good = Some dt →
       file_path (self st) ∉ denied st →
       ∃ before e after st',
         events (self st) = before ++ e :: after
         ∧ title e = title0
         ∧ Forall (λ x, title x ≠ title0) before
         ∧ edit_event st = (Return tt, st')
         ∧ events (self st')
           = before ++ mk_Event new_title dt (Py.split "," tags_in) :: after
         ∧ files st'
           = <[file_path (self st) := written (store_document (events (self st')))]>
               (files st)).
Proof.
  intros Hk. split.
  - intros Hmiss. eexists. split; [by apply edit_event_run_missed | done].
  - intros new_title bad good dt tags_in rest Hex -> Hbad Hgood Hd.
    destruct (first_match_split _ _ Hex) as (before & e & after & Hev & He & Hb).
    exists before, e, after. eexists.
    split; [done|]. split; [done|]. split; [done|]. subst title0. split.
    + rewrite (edit_event_run_found st before e after new_title bad good dt
                 tags_in rest) by done.
      by rewrite bool_decide_eq_false_2.
    + done.
Qed.

Lemma edit_event_first_match_or_not_found_witness :
  (∃ st',
     edit_event (base_state [standup; review1; review2] ∅ ["Retro"])
     = (Return tt, st')
     ∧ self st' = mk_EventManager "events.json" [standup; review1; review2]
     ∧ files st' = ∅
     ∧ console st'
       = [get_input_call "Enter event title to edit: ";
          display_error_call (not_found_message "Retro")])
  ∧ (∃ before e after st',
       [standup; review1; review2] = before ++ e :: after
       ∧ title e = "Review"
       ∧ Forall (λ x, title x ≠ "Review") before
       ∧ edit_event
           (base_state [standup; review1; review2] ∅
              ["Review"; "Retro"; "next week"; "2099-02-01 15:30"; "team, q1"])
         = (Return tt, st')
       ∧ events (self st')
         = before
           ++ mk_Event "Retro" (mk_datetime 2099 2 1 15 30 0 0)
                (Py.split "," "team, q1") :: after
       ∧ files st'
         = <["events.json" := written (store_document (events (self st')))]> ∅).
Proof.
  split.
  - apply (edit_event_first_match_or_not_found
             (base_state [standup; review1; review2] ∅ ["Retro"]) "Retro" []);
      [reflexivity|].
    repeat constructor; discriminate.
  - destruct (edit_event_first_match_or_not_found
                (base_state [standup; review1; review2] ∅
                   ["Review"; "Retro"; "next week"; "2099-02-01 15:30"; "team, q1"])
                "Review" ["Retro"; "next week"; "2099-02-01 15:30"; "team, q1"]
                eq_refl) as [_ H].
    apply (H "Retro" ["next week"] "2099-02-01 15:30"
             (mk_datetime 2099 2 1 15 30 0 0) "team, q1" []).
    + right. left. reflexivity.
    + reflexivity.
    + constructor; [vm_compute; reflexivity | constructor].
    + vm_compute; reflexivity.
    + apply not_elem_of_empty.
Defined.

(** ** Tags *)

Lemma add_event_events (st : state) (title_in : string) (bad : list string)
    (good : string) (dt : datetime) (tags_in : string) (rest : list string) :
  Forall (λ s, strptime s = None) bad →
  strptime good = Some dt →
  keyboard st = title_in :: bad ++ good :: tags_in :: rest →
  events (self (add_event st).2)
  = events (self st) ++ [mk_Event title_in dt (Py.split "," tags_in)].
Proof.
  intros Hbad Hgood Hk. unfold add_event, handle_error.
  rewrite (add_event_body_run st title_in bad good dt tags_in rest) by done.
  by case_bool_decide.
Qed.

Lemma edit_event_events (st : state) (before : list Event) (e : Event)
    (after : list Event) (new_title : string) (bad : list string) (good : string)
    (dt : datetime) (tags_in : string) (rest : list string) :
  events (self st) = before ++ e :: after →
  Forall (λ x, title x ≠ title e) before →
  Forall (λ s, strptime s = None) bad →
  strptime good = Some dt →
  keyboard st = title e :: new_title :: bad ++ good :: tags_in :: rest →
  events (self (edit_event st).2)
  = before ++ mk_Event new_title dt (Py.split "," tags_in) :: after.
Proof.
  intros Hev Hfirst Hbad Hgood Hk.
  rewrite (edit_event_run_found st before e after new_title bad good dt tags_in rest)
    by done.
  by case_bool_decide.
Qed.

(** C9. The tags [add_event] stores and [edit_event] writes are the text
    the user typed, split at its commas.  That list is never empty -- the
    empty text gives the one tag [""] -- and nothing is trimmed: the pieces
    hold no comma, joined by commas they are the text again, white space
    included, and no other list of pieces does that.  [tags or []] in
    [Event.__init__] never sees an empty list from [add_event]. *)
Theorem tags_are_the_input_split_on_commas :
  (∀ s, Py.split "," s ≠ []
        ∧ Py.join "," (Py.split "," s) = s
        ∧ Forall (λ piece, ","%char ∉ list_ascii_of_string piece) (Py.split "," s)
        ∧ ∀ pieces,
            pieces ≠ [] →
            Forall (λ piece, ","%char ∉ list_ascii_of_string piece) pieces →
            Py.join "," pieces = s →
            pieces = Py.split "," s)
  ∧ Py.split "," "" = [""]
  ∧ (∀ st title_in bad good dt tags_in rest,
       Forall (λ s, strptime s = None) bad →
       strptime good = Some dt →
       keyboard st = title_in :: bad ++ good :: tags_in :: rest →
       events (self (add_event st).2)
       = events (self st) ++ [mk_Event title_in dt (Py.split "," tags_in)])
  ∧ (∀ st before e after new_title bad good dt tags_in rest,
       events (self st) = before ++ e :: after →
       Forall (λ x, title x ≠ title e) before →
       Forall (λ s, strptime s = None) bad →
       strptime good = Some dt →
       keyboard st = title e :: new_title :: bad ++ good :: tags_in :: rest →
       events (self (edit_event st).2)
       = before ++ mk_Event new_title dt (Py.split "," tags_in) :: after).
Proof.
  split; [|split; [done|split]].
  - intros s. split; [apply split_nonempty|].
    split; [apply join_split|]. split; [apply split_pieces|].
    intros pieces Hne Hall <-. symmetry. by apply split_join.
  - apply add_event_events.
  - apply edit_event_events.
Qed.

Lemma tags_are_the_input_split_on_commas_witness :
  events (self (add_event
                  (base_state [] ∅ ["Standup"; "2099-01-01 09:00"; ""])).2)
  = [mk_Event "Standup" (mk_datetime 2099 1 1 9 0 0 0) [""]]
  ∧ events (self (edit_event
                    (base_state [standup] ∅
                       ["Standup"; "Retro"; "2099-02-01 15:30"; " team ,q1 "])).2)
    = [mk_Event "Retro" (mk_datetime 2099 2 1 15 30 0 0) [" team "; "q1 "]].
Proof.
  destruct tags_are_the_input_split_on_commas as (_ & _ & Hadd & Hedit).
  split.
  - apply (Hadd (base_state [] ∅ ["Standup"; "2099-01-01 09:00"; ""])
             "Standup" [] "2099-01-01 09:00" (mk_datetime 2099 1 1 9 0 0 0) "" []);
      [constructor | vm_compute; reflexivity | reflexivity].
  - apply (Hedit (base_state [standup] ∅
                    ["Standup"; "Retro"; "2099-02-01 15:30"; " team ,q1 "])
             [] standup [] "Retro" [] "2099-02-01 15:30"
             (mk_datetime 2099 2 1 15 30 0 0) " team ,q1 " []);
      [reflexivity | constructor | constructor | vm_compute; reflexivity
      | reflexivity].
Defined.

(** ** Persistence after a mutation *)

Ltac inv_bind H :=
  let a := fresh "a" in
  let st1 := fresh "st" in
  let H1 := fresh "Hstep" in
  apply bind_inv_Return in H as (a & st1 & H1 & H);
  try match type of a with unit => destruct a end.

Section Persist.

Lemma log_Return (c : console_event) (st st' : state) :
  log c st = (Return tt, st') → self st' = self st ∧ files st' = files st.
Proof. unfold log, modify. by intros [= <-]. Qed.

Lemma persisted_frame (st st' : state) :
  self st' = self st → files st' = files st → persisted st → persisted st'.
Proof. unfold persisted. by intros -> ->. Qed.

Lemma add_event_body_Return (st st' : state) :
  add_event_body st = (Return tt, st') → persisted st'.
Proof.
  unfold add_event_body. intros H.
  do 3 inv_bind H. cbv zeta in H. do 2 inv_bind H.
  apply save_events_Return in Hstep3 as (Hp & _ & _).
  apply log_Return in H as [Hs Hf]. by eapply persisted_frame.
Qed.

Lemma edit_event_loop_Return (title0 : string) (rest : list Event) :
  ∀ (i : nat) (st st' : state),
    Exists (λ x, title x = title0) rest →
    edit_event_loop title0 i rest st = (Return tt, st') →
    persisted st'.
Proof.
  induction rest as [|event rest IH]; intros i st st' Hex H; [by inversion Hex|].
  cbn [edit_event_loop] in H.
  destruct (String.eqb_spec (title event) title0) as [Heq|Hne].
  - do 3 inv_bind H. cbv zeta in H. do 6 inv_bind H.
    by apply save_events_Return in H as (Hp & _ & _).
  - inversion Hex; subst; [done|]. by eapply IH.
Qed.

Lemma delete_event_loop_Return (title0 : string) (rest : list Event) :
  ∀ (st st' : state),
    Exists (λ x, title x = title0) rest →
    delete_event_loop title0 rest st = (Return tt, st') →
    persisted st'.
Proof.
  induction rest as [|event rest IH]; intros st st' Hex H; [by inversion Hex|].
  cbn [delete_event_loop] in H.
  destruct (String.eqb_spec (title event) title0) as [Heq|Hne].
  - do 4 inv_bind H.
    by apply save_events_Return in H as (Hp & _ & _).
  - inversion Hex; subst; [done|]. by eapply IH.
Qed.

Lemma get_input_Return (prompt : string) (st st' : state) (line : string) :
  view.get_input prompt st = (Return line, st') →
  ∃ rest, keyboard st = line :: rest ∧ events (self st') = events (self st).
Proof.
  destruct (keyboard st) as [|l rest] eqn:Hk.
  - by rewrite get_input_blocked.
  - rewrite (get_input_run _ _ l rest) by done. intros [= <- <-]. by exists rest.
Qed.

End Persist.

(** C8. A mutation that succeeds leaves the file holding exactly the
    document of the in-memory list, whatever the file held before:
    [add_event] when it ends with its success message (otherwise its
    decorator has reported an error), [edit_event] and [delete_event] when
    they return and the title typed is the title of an event.  The document
    is the array of the events in the fixed shape [event_json]. *)
Theorem mutations_rewrite_the_file (st st' : state) :
  (add_event st = (Return tt, st') →
   last (console st') = Some (display_message_call "Event added successfully.") →
   persisted st')
  ∧ (edit_event st = (Return tt, st') →
     (∃ title0 rest, keyboard st = title0 :: rest
                     ∧ Exists (λ x, title x = title0) (events (self st))) →
     persisted st')
  ∧ (delete_event st = (Return tt, st') →
     (∃ title0 rest, keyboard st = title0 :: rest
                     ∧ Exists (λ x, title x = title0) (events (self st))) →
     persisted st').
Proof.
  split; [|split].
  - unfold add_event, handle_error.
    destruct (add_event_body st) as [[[]|e|] st1] eqn:Hbody.
    + intros [= <-] _. by eapply add_event_body_Return.
    + unfold log, modify. intros [= <-]. cbn [console with_console].
      by rewrite last_snoc.
    + done.
  - intros H (title0 & rest & Hk & Hex). unfold edit_event in H.
    inv_bind H. inv_bind H.
    apply get_input_Return in Hstep as (rest' & Hk' & Hev).
    unfold get in Hstep0. injection Hstep0 as <- <-.
    rewrite Hk in Hk'. injection Hk' as <- <-.
    rewrite Hev in H. by eapply edit_event_loop_Return.
  - intros H (title0 & rest & Hk & Hex). unfold delete_event in H.
    inv_bind H. inv_bind H.
    apply get_input_Return in Hstep as (rest' & Hk' & Hev).
    unfold get in Hstep0. injection Hstep0 as <- <-.
    rewrite Hk in Hk'. injection Hk' as <- <-.
    rewrite Hev in H. by eapply delete_event_loop_Return.
Qed.

Lemma mutations_rewrite_the_file_witness :
  persisted (add_event
               (base_state [standup] stale_files
                  ["Retro"; "2099-02-01 15:30"; "team"])).2
  ∧ persisted (edit_event
                 (base_state [standup] stale_files
                    ["Standup"; "Retro"; "2099-02-01 15:30"; "team"])).2
  ∧ persisted (delete_event (base_state [standup] stale_files ["Standup"])).2.
Proof.
  split; [|split].
  - apply (proj1 (mutations_rewrite_the_file
                    (base_state [standup] stale_files
                       ["Retro"; "2099-02-01 15:30"; "team"]) _));
      vm_compute; reflexivity.
  - apply (proj1 (proj2 (mutations_rewrite_the_file
                           (base_state [standup] stale_files
                              ["Standup"; "Retro"; "2099-02-01 15:30"; "team"]) _)));
      [vm_compute; reflexivity|].
    exists "Standup", ["Retro"; "2099-02-01 15:30"; "team"].
    split; [reflexivity | left; reflexivity].
  - apply (proj2 (proj2 (mutations_rewrite_the_file
                           (base_state [standup] stale_files ["Standup"]) _)));
      [vm_compute; reflexivity|].
    exists "Standup", []. split; [reflexivity | left; reflexivity].
Defined.

(** ** Errors that escape *)

(** C7, at the failing input.  [add_event] carries the decorator: the
    [PermissionError] raised while saving is reported and the call returns.
    [edit_event] and [delete_event] carry none: the same error leaves them
    as an exception, after the in-memory list has been changed. *)
Theorem undecorated_operations_raise :
  add_event (locked_state ["Retro"; "2099-02-01 15:30"; "team"])
  = (Return tt,
     with_console
       [get_input_call "Enter event title: ";
        get_input_call "Enter event date and time (YYYY-MM-DD HH:MM): ";
        get_input_call "Enter tags separated by commas: ";
        error_report PermissionError]
       (with_events
          [standup; mk_Event "Retro" (mk_datetime 2099 2 1 15 30 0 0) ["team"]]
          (locked_state [])))
  ∧ (edit_event (locked_state ["Standup"; "Retro"; "2099-02-01 15:30"; "team"])).1
    = Raise PermissionError
  ∧ (delete_event (locked_state ["Standup"])).1 = Raise PermissionError
  ∧ events (self (delete_event (locked_state ["Standup"])).2) = []
  ∧ files (delete_event (locked_state ["Standup"])).2
    = files (locked_state ["Standup"]).
Proof. repeat split; vm_compute; reflexivity. Qed.

(** ** Sorting *)

Section SortedFacts.
Context {A K : Type} (key : A → K) (lt : K → K → bool).
Hypothesis lt_asym : ∀ a b, lt a b = true → lt b a = false.
Hypothesis le_trans : ∀ a b c, lt b a = false → lt c b = false → lt c a = false.

Lemma insort_Permutation (x : A) (l : list A) : Py.insort key lt x l ≡ₚ x :: l.
Proof.
  induction l as [|y l IH]; simpl; [done|].
  destruct (lt (key y) (key x)); [|done].
  rewrite IH. apply Permutation_swap.
Qed.

Lemma sorted_Permutation (l : list A) : Py.sorted key lt l ≡ₚ l.
Proof.
  induction l as [|x l IH]; simpl; [done|].
  by rewrite insort_Permutation, IH.
Qed.

Lemma insort_StronglySorted (x : A) (l : list A) :
  StronglySorted (key_le key lt) l →
  StronglySorted (key_le key lt) (Py.insort key lt x l).
Proof.
  induction 1 as [|y l Hl IH Hy]; simpl.
  - by repeat constructor.
  - destruct (lt (key y) (key x)) eqn:E.
    + constructor; [done|].
      rewrite insort_Permutation. constructor; [|done].
      unfold key_le. by apply lt_asym.
    + constructor; [by constructor|]. constructor; [done|].
      eapply Forall_impl; [exact Hy|]. intros z Hz. unfold key_le in *.
      by eapply le_trans.
Qed.

Lemma sorted_StronglySorted (l : list A) :
  StronglySorted (key_le key lt) (Py.sorted key lt l).
Proof.
  induction l as [|x l IH]; simpl; [constructor|].
  by apply insort_StronglySorted.
Qed.

(** Stability: events with the same key keep the order they had. *)
Lemma sorted_stable `{EqDecision K} (k : K) (l : list A) :
  (∀ a, lt a a = false) →
  filter (λ x, key x = k) (Py.sorted key lt l) = filter (λ x, key x = k) l.
Proof.
  intros lt_irrefl.
  assert (∀ x l, filter (λ x, key x = k) (Py.insort key lt x l)
                 = filter (λ x, key x = k) (x :: l)) as Hins.
  { intros x l'. induction l' as [|y l' IH]; simpl; [done|].
    destruct (lt (key y) (key x)) eqn:E; [|done].
    assert (key y ≠ key x) as Hne by (intros Heq; rewrite Heq, lt_irrefl in E; done).
    rewrite !filter_cons in *. rewrite IH.
    destruct (decide (key y = k)), (decide (key x = k)); congruence. }
  induction l as [|x l IH]; simpl; [done|].
  by rewrite Hins, !filter_cons, IH.
Qed.

End SortedFacts.

Section DatetimeOrder.

Lemma tuple_lt_irrefl (a : list Z) : tuple_lt a a = false.
Proof.
  induction a as [|x a IH]; simpl; [done|].
  rewrite IH, Z.ltb_irrefl. by rewrite andb_false_r.
Qed.

Lemma tuple_lt_asym (a : list Z) : ∀ b, tuple_lt a b = true → tuple_lt b a = false.
Proof.
  induction a as [|x a IH]; intros [|y b]; simpl; try done.
  intros H. apply orb_true_iff in H as [H|[H1 H2]%andb_true_iff].
  - apply orb_false_iff. split; [lia|]. apply andb_false_iff. left. lia.
  - apply orb_false_iff. split; [lia|]. apply andb_false_iff. right. by apply IH.
Qed.

Lemma tuple_le_trans (a : list Z) :
  ∀ b c, tuple_lt b a = false → tuple_lt c b = false → tuple_lt c a = false.
Proof.
  induction a as [|x a IH]; intros [|y b] [|z c]; simpl; try done.
  intros [H1 H2]%orb_false_iff [H3 H4]%orb_false_iff.
  apply orb_false_iff. split; [lia|].
  apply andb_false_iff in H2, H4. apply andb_false_iff.
  destruct (Z.eqb_spec z x) as [->|]; [|by left]. right.
  destruct H2 as [H2|H2], H4 as [H4|H4]; try lia.
  - assert (y = x) as -> by lia. by eapply IH.
Qed.

Lemma lt_asym (a b : datetime) : Datetime.lt a b = true → Datetime.lt b a = false.
Proof. apply tuple_lt_asym. Qed.

Lemma le_trans (a b c : datetime) :
  Datetime.lt b a = false → Datetime.lt c b = false → Datetime.lt c a = false.
Proof. apply tuple_le_trans. Qed.

End DatetimeOrder.

(** ** The calendar: an earlier datetime is a negative difference *)

Section Calendar.

Lemma days_before_year_step (y1 y2 : Z) :
  0 < y1 → y1 < y2 →
  days_before_year y1 + 365 + (if is_leap y1 then 1 else 0) ≤ days_before_year y2.
Proof.
  intros H0 Hlt. unfold days_before_year, is_leap. cbv zeta.
  destruct (Z.eqb_spec (y1 mod 4) 0), (Z.eqb_spec (y1 mod 100) 0),
    (Z.eqb_spec (y1 mod 400) 0); cbn [negb andb orb];
    Z.div_mod_to_equations; lia.
Qed.

Lemma day_of_year_bounds (y m d : Z) :
  valid_date y m d = true →
  1 ≤ days_before_month y m + d ≤ 365 + (if is_leap y then 1 else 0).
Proof.
  unfold valid_date. intros H.
  repeat (apply andb_true_iff in H as [H ?]).
  assert (m = 1 ∨ m = 2 ∨ m = 3 ∨ m = 4 ∨ m = 5 ∨ m = 6 ∨ m = 7 ∨ m = 8
          ∨ m = 9 ∨ m = 10 ∨ m = 11 ∨ m = 12) as Hm by lia.
  unfold days_before_month, days_in_month in *.
  destruct (is_leap y);
    repeat (destruct Hm as [->|Hm]; [cbn in *; lia|]); subst; cbn in *; lia.
Qed.

Lemma days_before_month_step (y m1 d1 m2 d2 : Z) :
  valid_date y m1 d1 = true → valid_date y m2 d2 = true → m1 < m2 →
  days_before_month y m1 + d1 < days_before_month y m2 + d2.
Proof.
  unfold valid_date. intros H1 H2 Hlt.
  repeat (apply andb_true_iff in H1 as [H1 ?]).
  repeat (apply andb_true_iff in H2 as [H2 ?]).
  assert (m1 = 1 ∨ m1 = 2 ∨ m1 = 3 ∨ m1 = 4 ∨ m1 = 5 ∨ m1 = 6 ∨ m1 = 7
          ∨ m1 = 8 ∨ m1 = 9 ∨ m1 = 10 ∨ m1 = 11 ∨ m1 = 12) as Hm1 by lia.
  assert (m2 = 1 ∨ m2 = 2 ∨ m2 = 3 ∨ m2 = 4 ∨ m2 = 5 ∨ m2 = 6 ∨ m2 = 7
          ∨ m2 = 8 ∨ m2 = 9 ∨ m2 = 10 ∨ m2 = 11 ∨ m2 = 12) as Hm2 by lia.
  unfold days_before_month, days_in_month in *.
  destruct (is_leap y);
    repeat (destruct Hm1 as [->|Hm1]);
    repeat (destruct Hm2 as [->|Hm2]); subst; cbn in *; lia.
Qed.

(** On datetimes that exist, the order of the fields is the order of the
    instants: an earlier datetime is a negative number of microseconds
    away. *)
Lemma sub_negative (a b : datetime) :
  valid a = true → valid b = true → Datetime.lt a b = true → sub a b < 0.
Proof.
  unfold valid. intros [Hda Hta]%andb_true_iff [Hdb Htb]%andb_true_iff Hlt.
  pose proof (day_of_year_bounds _ _ _ Hda) as Hdoya.
  pose proof (day_of_year_bounds _ _ _ Hdb) as Hdoyb.
  assert (0 < year a ∧ 0 < year b) as [Hya Hyb].
  { unfold valid_date in Hda, Hdb.
    repeat (apply andb_true_iff in Hda as [Hda ?]).
    repeat (apply andb_true_iff in Hdb as [Hdb ?]). lia. }
  unfold valid_time in Hta, Htb.
  repeat (apply andb_true_iff in Hta as [Hta ?]).
  repeat (apply andb_true_iff in Htb as [Htb ?]).
  unfold sub, mk_timedelta, toordinal.
  unfold Datetime.lt, fields in Hlt. cbn [tuple_lt] in Hlt.
  destruct (Z.ltb_spec (year a) (year b)) as [Hy|Hy].
  { pose proof (days_before_year_step _ _ Hya Hy). lia. }
  destruct (Z.eqb_spec (year a) (year b)) as [Ey|Ey]; [|done].
  cbn [orb andb] in Hlt. rewrite Ey in *.
  destruct (Z.ltb_spec (month a) (month b)) as [Hm|Hm].
  { pose proof (days_before_month_step _ _ _ _ _ Hda Hdb Hm). lia. }
  destruct (Z.eqb_spec (month a) (month b)) as [Em|Em]; [|done].
  cbn [orb andb] in Hlt. rewrite Em in *.
  destruct (Z.ltb_spec (day a) (day b)) as [Hd|Hd]; [lia|].
  destruct (Z.eqb_spec (day a) (day b)) as [Ed|Ed]; [|done].
  cbn [orb andb] in Hlt. rewrite Ed in *.
  destruct (Z.ltb_spec (hour a) (hour b)) as [HH|HH]; [lia|].
  destruct (Z.eqb_spec (hour a) (hour b)) as [EH|EH]; [|done].
  cbn [orb andb] in Hlt. rewrite EH in *.
  destruct (Z.ltb_spec (minute a) (minute b)) as [HM|HM]; [lia|].
  destruct (Z.eqb_spec (minute a) (minute b)) as [EM|EM]; [|done].
  cbn [orb andb] in Hlt. rewrite EM in *.
  destruct (Z.ltb_spec (second a) (second b)) as [HS|HS]; [lia|].
  destruct (Z.eqb_spec (second a) (second b)) as [ES|ES]; [|done].
  cbn [orb andb] in Hlt. rewrite ES in *.
  destruct (Z.ltb_spec (microsecond a) (microsecond b)) as [Hu|Hu]; [lia|].
  destruct (Z.eqb_spec (microsecond a) (microsecond b)); by rewrite ?andb_false_r in Hlt.
Qed.

End Calendar.

(** ** Upcoming events *)

Section Upcoming.

Lemma datetime_now_run (st : state) :
  datetime_now st = (Return (clock st (ticks st)), with_ticks (S (ticks st)) st).
Proof. reflexivity. Qed.

Lemma time_until_event_run (event : Event) (st : state) :
  time_until_event event st
  = (Return (sub (date_time event) (clock st (ticks st))),
     with_ticks (S (ticks st)) st).
Proof. reflexivity. Qed.

(** Every event is judged against its own reading of the clock. *)
Lemma within_a_week_run (l : list Event) :
  ∀ st : state,
    within_a_week l st
    = (Return (judged l (map (clock st) (seq (ticks st) (length l)))),
       with_ticks (ticks st + length l) st).
Proof.
  induction l as [|event l IH]; intros st.
  - destruct st. unfold with_ticks. norm_state. by rewrite Nat.add_0_r.
  - destruct st as [[path evs] fs dn clk tk kb cons].
    cbn [within_a_week].
    step_by ltac:(apply time_until_event_run).
    step_by ltac:(apply IH).
    unfold mret, M_ret. cbn [length seq map judged].
    unfold within_horizon, timedelta_le.
    f_equal.
    + destruct (Z.leb_spec (sub (date_time event) (clk tk)) (timedelta_days 7));
        [by rewrite decide_True | by rewrite decide_False by lia].
    + unfold with_ticks. norm_state. f_equal. lia.
Qed.

Lemma judged_frozen (now : datetime) (l : list Event) :
  ∀ nows, length nows = length l → Forall (λ t, t = now) nows →
          judged l nows = filter (within_horizon now) l.
Proof.
  induction l as [|event l IH]; intros [|t nows] Hlen Hall; try done.
  inversion Hall as [|? ? -> Hall']; subst.
  cbn [judged]. rewrite filter_cons.
  injection Hlen as Hlen. by rewrite IH.
Qed.

(** [show_upcoming_events] in general: it reads the clock once for
    [today], which it does not use, and once per event. *)
Lemma show_upcoming_events_run (st : state) :
  show_upcoming_events st
  = (Return tt,
     with_console
       (console st
        ++ upcoming_report
             (Py.sorted date_time Datetime.lt
                (judged (events (self st))
                   (map (clock st)
                      (seq (S (ticks st)) (length (events (self st))))))))
       (with_ticks (S (ticks st) + length (events (self st))) st)).
Proof.
  destruct st as [[path evs] fs dn clk tk kb cons].
  unfold show_upcoming_events. apply handle_error_Return.
  unfold show_upcoming_events_body.
  step_by ltac:(apply datetime_now_run).
  step_by ltac:(reflexivity).
  step_by ltac:(apply within_a_week_run).
  destruct (judged evs (map clk (seq (S tk) (length evs)))) as [|e l] eqn:E.
  - unfold view.display_error, log, modify. f_equal.
  - unfold view.display_message, view.display_events_list, log, modify.
    norm_state. cbn [upcoming_report].
    destruct (Py.sorted date_time Datetime.lt (e :: l)) as [|e' l'] eqn:E'.
    + pose proof (sorted_Permutation date_time Datetime.lt (e :: l)) as Hp.
      rewrite E' in Hp. by apply Permutation_nil_cons in Hp.
    + step_by ltac:(reflexivity). f_equal. same_state.
Qed.

End Upcoming.

(** C3. Let the clock read [now] whenever the operation consults it.  Then
    [show_upcoming_events] returns having shown exactly the events whose
    [date_time - now] is at most seven days, sorted ascending by
    [date_time] (events with equal date_times in store order): an event
    more than seven days ahead is left out, and an event already past is
    shown, its difference being negative.  (With nothing to show it
    displays an error message instead of a list.) *)
Theorem show_upcoming_events_within_a_week (st : state) (now : datetime) :
  (∀ n, (ticks st ≤ n ≤ ticks st + length (events (self st)))%nat →
        clock st n = now) →
  let kept := filter (within_horizon now) (events (self st)) in
  let shown := Py.sorted date_time Datetime.lt kept in
  show_upcoming_events st
  = (Return tt,
     with_console (console st ++ upcoming_report shown)
       (with_ticks (S (ticks st) + length (events (self st))) st))
  ∧ shown ≡ₚ kept
  ∧ StronglySorted (λ a b, Datetime.le (date_time a) (date_time b)) shown
  ∧ (∀ dt, filter (λ event, date_time event = dt) shown
           = filter (λ event, date_time event = dt) kept)
  ∧ (∀ event, event ∈ shown ↔
              event ∈ events (self st)
              ∧ sub (date_time event) now ≤ timedelta_days 7)
  ∧ (∀ event, event ∈ events (self st) →
              valid (date_time event) = true → valid now = true →
              Datetime.lt (date_time event) now = true →
              event ∈ shown).
Proof.
  intros Hclock kept shown.
  assert (∀ event, event ∈ shown ↔
                   event ∈ events (self st)
                   ∧ sub (date_time event) now ≤ timedelta_days 7) as Hshown.
  { intros event. unfold shown. rewrite sorted_Permutation.
    unfold kept. rewrite list_elem_of_filter. unfold within_horizon. tauto. }
  split; [|split; [|split; [|split; [|split]]]].
  - rewrite show_upcoming_events_run.
    rewrite (judged_frozen now); [done | by rewrite length_map, length_seq |].
    apply Forall_forall. intros t Ht. apply list_elem_of_fmap in Ht as (n & -> & Hn).
    apply elem_of_seq in Hn. apply Hclock. lia.
  - apply sorted_Permutation.
  - apply (sorted_StronglySorted date_time Datetime.lt lt_asym le_trans).
  - intros dt. apply sorted_stable. intros a. apply tuple_lt_irrefl.
  - done.
  - intros event Hin Hv Hvnow Hlt. apply Hshown. split; [done|].
    pose proof (sub_negative _ _ Hv Hvnow Hlt). unfold timedelta_days, mk_timedelta.
    lia.
Qed.

Lemma show_upcoming_events_within_a_week_witness :
  show_upcoming_events
    (base_state [in_ten_days; in_three_days; last_week; in_an_hour] ∅ [])
  = (Return tt,
     with_console
       [display_message_call "Upcoming events within a week:";
        display_events_list_call [last_week; in_an_hour; in_three_days]]
       (with_ticks 5
          (base_state [in_ten_days; in_three_days; last_week; in_an_hour] ∅ []))).
Proof.
  rewrite (proj1 (show_upcoming_events_within_a_week
                    (base_state [in_ten_days; in_three_days; last_week; in_an_hour]
                       ∅ [])
                    new_year (λ _ _, eq_refl))).
  vm_compute. reflexivity.
Defined.

(** The clock is read once per event: when it passes the instant seven
    days before two events of the same date_time while the list is being
    filtered, the event examined before that instant is left out and the
    one examined after it is shown. *)
Example show_upcoming_events_while_the_clock_runs :
  show_upcoming_events
    (mk_state (mk_EventManager "events.json" [week_after_1; week_after_2])
       ∅ ∅ midnight_clock 0 [] [])
  = (Return tt,
     mk_state (mk_EventManager "events.json" [week_after_1; week_after_2])
       ∅ ∅ midnight_clock 3 []
       [display_message_call "Upcoming events within a week:";
        display_events_list_call [week_after_2]]).
Proof. vm_compute. reflexivity. Qed.

(** ** What [strptime] returns: a date that exists, to the minute *)

Section Parsed.

Lemma re_post_ret {A} (a : A) (P : A → Prop) : P a → re_post (re_ret a) P.
Proof. intros Ha s a' s' [= -> _]%list_elem_of_singleton. done. Qed.

Lemma elem_of_concat {A} (x : A) (ls : list (list A)) :
  x ∈ concat ls → ∃ l, l ∈ ls ∧ x ∈ l.
Proof.
  induction ls as [|l ls IH]; simpl; [by intros ?%elem_of_nil|].
  intros [Hx|Hx]%elem_of_app.
  - exists l. split; [left | done].
  - destruct (IH Hx) as (l' & Hl' & Hx'). exists l'. split; [by right | done].
Qed.

Lemma re_post_bind {A B} (r : re A) (k : A → re B) (P : A → Prop) (Q : B → Prop) :
  re_post r P → (∀ a, P a → re_post (k a) Q) → re_post (re_bind r k) Q.
Proof.
  intros Hr Hk s b s'. unfold re_bind.
  intros (l & Hl & Hb)%elem_of_concat.
  apply list_elem_of_fmap in Hl as ([a s1] & -> & Ha).
  eapply Hk; [by eapply Hr | exact Hb].
Qed.

Lemma re_post_alt {A} (r1 r2 : re A) (P : A → Prop) :
  re_post r1 P → re_post r2 P → re_post (re_alt r1 r2) P.
Proof.
  intros H1 H2 s a s'. unfold re_alt.
  intros [Ha|Ha]%elem_of_app; [by eapply H1 | by eapply H2].
Qed.

Lemma re_post_any {A} (r : re A) : re_post r (λ _, True).
Proof. done. Qed.

Lemma re_post_digit (lo hi : Z) : re_post (re_digit lo hi) (λ d, lo ≤ d ≤ hi).
Proof.
  intros [|c s] a s'; simpl; [by intros ?%elem_of_nil|].
  destruct (digit_value c) as [d|]; [|by intros ?%elem_of_nil].
  destruct (Z.leb_spec lo d), (Z.leb_spec d hi); simpl;
    try (by intros ?%elem_of_nil).
  intros [= -> _]%list_elem_of_singleton. done.
Qed.

Lemma re_post_H : re_post re_H (λ H, 0 ≤ H < 24).
Proof.
  unfold re_H. repeat apply re_post_alt.
  - eapply re_post_bind; [apply re_post_any|intros _ _].
    eapply re_post_bind; [apply re_post_digit|intros b Hb].
    apply re_post_ret. cbn beta in *. lia.
  - eapply re_post_bind; [apply re_post_digit|intros a Ha].
    eapply re_post_bind; [apply re_post_digit|intros b Hb].
    apply re_post_ret. cbn beta in *. lia.
  - intros s a s' Ha. apply re_post_digit in Ha. lia.
Qed.

Lemma re_post_M : re_post re_M (λ M, 0 ≤ M < 60).
Proof.
  unfold re_M. apply re_post_alt.
  - eapply re_post_bind; [apply re_post_digit|intros a Ha].
    eapply re_post_bind; [apply re_post_digit|intros b Hb].
    apply re_post_ret. cbn beta in *. lia.
  - intros s a s' Ha. apply re_post_digit in Ha. lia.
Qed.

Lemma re_post_format_regex :
  re_post format_regex
    (λ dt, 0 ≤ hour dt < 24 ∧ 0 ≤ minute dt < 60
           ∧ second dt = 0 ∧ microsecond dt = 0).
Proof.
  unfold format_regex.
  eapply re_post_bind; [apply re_post_any|intros Y _].
  eapply re_post_bind; [apply re_post_any|intros _ _].
  eapply re_post_bind; [apply re_post_any|intros m _].
  eapply re_post_bind; [apply re_post_any|intros _ _].
  eapply re_post_bind; [apply re_post_any|intros d _].
  eapply re_post_bind; [apply re_post_any|intros _ _].
  eapply re_post_bind; [apply re_post_H|intros H HH].
  eapply re_post_bind; [apply re_post_any|intros _ _].
  eapply re_post_bind; [apply re_post_M|intros M HM].
  apply re_post_ret. done.
Qed.

(** A date that [strptime] accepts exists and is exact to the minute. *)
Lemma strptime_storable (s : string) (dt : datetime) :
  strptime s = Some dt → valid dt = true ∧ minute_precision dt = true.
Proof.
  unfold strptime.
  destruct (format_regex s) as [|[dt' [|c s']] tl] eqn:E; try done.
  destruct (valid_date (year dt') (month dt') (day dt')) eqn:Hd; [|done].
  intros [= <-].
  assert ((dt', EmptyString) ∈ format_regex s) as Hin by (rewrite E; left).
  apply re_post_format_regex in Hin as (HH & HM & HS & Hus).
  unfold valid, valid_time, minute_precision. rewrite Hd, HS, Hus.
  split; [|done]. cbn [andb].
  repeat (apply andb_true_intro; split); lia.
Qed.

(** The loop only ever returns a date that [strptime] accepted. *)
Lemma read_date_time_Return (prompt : string) (st st' : state) (dt : datetime) :
  read_date_time prompt st = (Return dt, st') → ∃ s, strptime s = Some dt.
Proof.
  unfold read_date_time. generalize (S (length (keyboard st))). intros rounds.
  revert st. induction rounds as [|rounds IH]; intros st H; [done|].
  cbn [read_date_time_rounds] in H. inv_bind H.
  destruct (strptime a) as [dt'|] eqn:Hs.
  - injection H as <- _. by exists a.
  - inv_bind H. by eapply IH.
Qed.

End Parsed.

(** ** An invariant of the store: dates that exist, to the minute *)

Section Invariant.

Lemma preserves_ret {A} (a : A) (post : A → Prop) : post a → preserves (mret a) post.
Proof. intros Ha st Hst. split; [done|]. by intros a' [= <-]. Qed.

Lemma preserves_bind {A B} (m : M A) (k : A → M B) (mid : A → Prop) (post : B → Prop) :
  preserves m mid → (∀ a, mid a → preserves (k a) post) → preserves (m ≫= k) post.
Proof.
  intros Hm Hk st Hst. unfold mbind, M_bind.
  destruct (Hm st Hst) as [Hst1 Hmid].
  destruct (m st) as [[a|e|] st1]; cbn [fst snd] in *; [|done|done].
  by apply (Hk a (Hmid a eq_refl)).
Qed.

Lemma preserves_keeps {A} (m : M A) : keeps_store m → preserves m (λ _, True).
Proof.
  intros Hm st Hst. split; [|done]. unfold stores_well in *.
  destruct (Hm st) as [-> _]. done.
Qed.

Lemma preserves_handle_error (func : M unit) (post : unit → Prop) :
  preserves func post → preserves (handle_error func) (λ _, True).
Proof.
  intros Hf st Hst. split; [|done]. unfold handle_error.
  destruct (Hf st Hst) as [Hst1 _]. by destruct (func st) as [[[]|e|] st1].
Qed.

Lemma preserves_save_events : preserves save_events (λ _, True).
Proof.
  intros st Hst. split; [|done]. rewrite save_events_run.
  by case_bool_decide.
Qed.

Lemma preserves_read_date_time (prompt : string) :
  preserves (read_date_time prompt)
    (λ dt, valid dt = true ∧ minute_precision dt = true).
Proof.
  intros st Hst. split.
  - by apply (preserves_keeps _ (keeps_read_date_time prompt)).
  - intros dt Hdt.
    destruct (read_date_time prompt st) as [o st'] eqn:E. cbn [fst] in Hdt. subst o.
    apply read_date_time_Return in E as (s & Hs). by apply strptime_storable in Hs.
Qed.

Lemma preserves_assign (i : nat) (f : Event → Event) :
  (∀ e, storable e → storable (f e)) → preserves (assign i f) (λ _, True).
Proof.
  intros Hf st Hst. split; [|done]. unfold assign, modify, stores_well in *.
  cbn [snd self with_events events].
  apply Forall_alter; [done|]. intros e _. apply Hf.
Qed.

Lemma preserves_add_event : preserves add_event (λ _, True).
Proof.
  unfold add_event. eapply preserves_handle_error. unfold add_event_body.
  eapply preserves_bind; [apply preserves_keeps, keeps_get_input|intros title_in _].
  eapply preserves_bind; [apply preserves_read_date_time|intros dt [Hv Hp]].
  eapply preserves_bind; [apply preserves_keeps, keeps_get_input|intros tags_in _].
  cbv zeta.
  eapply preserves_bind with (mid := λ _, True).
  { intros st Hst. split; [|done]. unfold modify, stores_well in *.
    cbn [snd self with_events events]. apply Forall_app. split; [done|].
    by repeat constructor. }
  intros _ _.
  eapply preserves_bind; [apply preserves_save_events|intros _ _].
  apply preserves_keeps, keeps_log.
Qed.

Lemma preserves_edit_event : preserves edit_event (λ _, True).
Proof.
  unfold edit_event.
  eapply preserves_bind; [apply preserves_keeps, keeps_get_input|intros title0 _].
  eapply preserves_bind; [apply preserves_keeps, keeps_get|intros evs _].
  generalize 0%nat. induction evs as [|event evs IH]; intros i.
  - apply preserves_keeps, keeps_log.
  - cbn [edit_event_loop]. destruct (String.eqb (title event) title0); [|apply IH].
    eapply preserves_bind; [apply preserves_keeps, keeps_get_input|intros new_title _].
    eapply preserves_bind; [apply preserves_read_date_time|intros dt [Hv Hp]].
    eapply preserves_bind; [apply preserves_keeps, keeps_get_input|intros tags_in _].
    cbv zeta.
    eapply preserves_bind; [by apply preserves_assign|intros _ _].
    eapply preserves_bind; [apply preserves_assign; by intros e _|intros _ _].
    eapply preserves_bind; [by apply preserves_assign|intros _ _].
    eapply preserves_bind; [apply preserves_keeps, keeps_log|intros _ _].
    eapply preserves_bind; [apply preserves_keeps, keeps_get|intros evs' _].
    eapply preserves_bind with (mid := λ _, True).
    { destruct (evs' !! i); apply preserves_keeps; [apply keeps_log|apply keeps_ret]. }
    intros _ _. apply preserves_save_events.
Qed.

Lemma list_remove_sublist (x : Event) (l l' : list Event) :
  list_remove x l = inr l' → l' `sublist_of` l.
Proof.
  revert l'. induction l as [|y l IH]; intros l'; simpl; [done|].
  case_bool_decide.
  - intros [= <-]. by apply sublist_cons.
  - destruct (list_remove x l) as [e|r]; simpl; [done|].
    intros [= <-]. by apply sublist_skip, IH.
Qed.

Lemma preserves_delete_event : preserves delete_event (λ _, True).
Proof.
  unfold delete_event.
  eapply preserves_bind; [apply preserves_keeps, keeps_get_input|intros title0 _].
  eapply preserves_bind; [apply preserves_keeps, keeps_get|intros evs _].
  induction evs as [|event evs IH].
  - apply preserves_keeps, keeps_log.
  - cbn [delete_event_loop]. destruct (String.eqb (title event) title0); [|apply IH].
    intros st Hst. split; [|done].
    unfold mbind, M_bind, get, lift_result. cbn beta iota.
    destruct (list_remove event (events (self st))) as [e|evs'] eqn:E; [done|].
    unfold mret, M_ret, modify, view.display_message, log, modify. cbn beta iota.
    rewrite save_events_run. norm_state.
    assert (Forall storable evs') as Hevs'.
    { apply list_remove_sublist in E. unfold stores_well in Hst.
      rewrite Forall_forall in *.
      intros e He. apply Hst. by eapply elem_of_sublist. }
    by case_bool_decide.
Qed.

(** Whatever operation runs, the events of the list keep dates that
    exist, exact to the minute. *)
Lemma operations_store_well (st : state) :
  stores_well st →
  stores_well (add_event st).2 ∧ stores_well (edit_event st).2
  ∧ stores_well (delete_event st).2 ∧ stores_well (search_event st).2
  ∧ stores_well (show_upcoming_events st).2 ∧ stores_well (show_all_events st).2.
Proof.
  intros Hst.
  destruct (keeps_search_event st) as [H1 _].
  destruct (keeps_show_upcoming_events st) as [H2 _].
  destruct (keeps_show_all_events st) as [H3 _].
  unfold stores_well in *. rewrite H1, H2, H3.
  split; [by apply preserves_add_event|].
  split; [by apply preserves_edit_event|].
  split; [by apply preserves_delete_event|]. done.
Qed.

End Invariant.


(** ** The scenario of the specification *)

(** Adding the event "Standup" to an empty store, then listing, searching
    for "work" and deleting "Standup". *)
Example scenario_standup :
  let s1 := (add_event (base_state [] ∅ ["Standup"; "2099-01-01 09:00"; "work"])).2 in
  events (self s1) = [standup]
  ∧ persisted s1
  ∧ console (show_all_events (with_console [] s1)).2
    = [display_events_list_call [standup]]
  ∧ console (search_event (with_keyboard ["work"] (with_console [] s1))).2
    = [get_input_call "Enter event title to search: ";
       display_message_call "Search results";
       display_events_list_call [standup]]
  ∧ events (self (delete_event (with_keyboard ["Standup"] s1)).2) = []
  ∧ persisted (delete_event (with_keyboard ["Standup"] s1)).2.
Proof. vm_compute. done. Qed.

(* ===================================================================== *)
(** * Further properties: edges, sessions and compositions *)
(* ===================================================================== *)

(** ** How operations end *)

Section Hoare.

Lemma hoare_weaken {A} (P P' : state → Prop) (m : M A)
    (Q Q' : outcome A → state → Prop) :
  hoare P' m Q' → (∀ st, P st → P' st) → (∀ o st, Q' o st → Q o st) →
  hoare P m Q.
Proof. intros Hm HP HQ st Hst. apply HQ, Hm, HP, Hst. Qed.

Lemma hoare_bind {A B} (P : state → Prop) (m : M A) (k : A → M B)
    (R : A → state → Prop) (Q : outcome B → state → Prop) :
  hoare P m (λ o st, match o with
                     | Return a => R a st
                     | Raise e => Q (Raise e) st
                     | Blocked => Q Blocked st
                     end) →
  (∀ a, hoare (R a) (k a) Q) → hoare P (m ≫= k) Q.
Proof.
  intros Hm Hk st HP. specialize (Hm st HP). unfold mbind, M_bind.
  destruct (m st) as [[a|e|] st1]; cbn [fst snd] in *; [|done|done].
  by apply Hk.
Qed.

Lemma hoare_bind_get {A B} (P : state → Prop) (f : state → A) (k : A → M B)
    (Q : outcome B → state → Prop) :
  (∀ a, hoare (λ st, P st ∧ f st = a) (k a) Q) → hoare P (get f ≫= k) Q.
Proof. intros Hk st HP. unfold mbind, M_bind, get. by apply (Hk (f st)). Qed.

Lemma hoare_bind_modify {B} (P P' : state → Prop) (g : state → state)
    (k : unit → M B) (Q : outcome B → state → Prop) :
  (∀ st, P st → P' (g st)) → hoare P' (k tt) Q → hoare P (modify g ≫= k) Q.
Proof. intros Hg Hk st HP. unfold mbind, M_bind, modify. by apply Hk, Hg. Qed.

Lemma hoare_bind_lift_result {A B} (P : state → Prop) (r : result A) (k : A → M B)
    (Q : outcome B → state → Prop) :
  (∀ e, r = inl e → ∀ st, P st → Q (Raise e) st) →
  (∀ a, r = inr a → hoare P (k a) Q) →
  hoare P (lift_result r ≫= k) Q.
Proof.
  intros He Ha st HP. unfold mbind, M_bind, lift_result.
  destruct r as [e|a]; [by apply He | by apply Ha].
Qed.

Lemma hoare_handle_error (P : state → Prop) (func : M unit)
    (Q : outcome unit → state → Prop) :
  hoare P func (λ o st, match o with
                        | Raise e =>
                            Q (Return tt) (with_console (console st ++ [error_report e]) st)
                        | _ => Q o st
                        end) →
  hoare P (handle_error func) Q.
Proof.
  intros Hf st HP. specialize (Hf st HP). unfold handle_error.
  by destruct (func st) as [[[]|e|] st1].
Qed.

End Hoare.

Section Harmless.

Lemma harmless_ret {A} (a : A) : harmless (mret a).
Proof. done. Qed.

Lemma harmless_bind {A B} (m : M A) (k : A → M B) :
  harmless m → (∀ a, harmless (k a)) → harmless (m ≫= k).
Proof.
  intros Hm Hk st. unfold mbind, M_bind.
  destruct (Hm st) as (H1 & H2 & H3 & H4).
  destruct (m st) as [[a|e|] st1]; cbn [fst snd] in *; [| by destruct (H4 e) | done].
  destruct (Hk a st1) as (H5 & H6 & H7 & H8).
  repeat split; [congruence..|done].
Qed.

Lemma harmless_blocked {A} : harmless (@blocked A).
Proof. done. Qed.

Lemma harmless_get {A} (f : state → A) : harmless (get f).
Proof. done. Qed.

Lemma harmless_log (c : console_event) : harmless (log c).
Proof. done. Qed.

Lemma harmless_with_keyboard (k : list string) : harmless (modify (with_keyboard k)).
Proof. done. Qed.

Lemma harmless_with_ticks (n : nat) : harmless (modify (with_ticks n)).
Proof. done. Qed.

Lemma harmless_get_input (prompt : string) : harmless (view.get_input prompt).
Proof.
  unfold view.get_input. apply harmless_bind; [apply harmless_log|intros _].
  apply harmless_bind; [apply harmless_get|intros [|line k]]; [apply harmless_blocked|].
  apply harmless_bind; [apply harmless_with_keyboard | intros _; apply harmless_ret].
Qed.

Lemma harmless_read_date_time_rounds (rounds : nat) (prompt : string) :
  harmless (read_date_time_rounds rounds prompt).
Proof.
  induction rounds as [|rounds IH]; simpl; [apply harmless_blocked|].
  apply harmless_bind; [apply harmless_get_input|intros s].
  destruct (strptime s); [apply harmless_ret|].
  apply harmless_bind; [apply harmless_log | by intros _].
Qed.

Lemma harmless_read_date_time (prompt : string) : harmless (read_date_time prompt).
Proof. intros st. apply harmless_read_date_time_rounds. Qed.

Lemma harmless_datetime_now : harmless datetime_now.
Proof.
  unfold datetime_now. apply harmless_bind; [apply harmless_get|intros n].
  apply harmless_bind; [apply harmless_get|intros c].
  apply harmless_bind; [apply harmless_with_ticks | intros _; apply harmless_ret].
Qed.

Lemma harmless_within_a_week (l : list Event) : harmless (within_a_week l).
Proof.
  induction l as [|event l IH]; simpl; [apply harmless_ret|].
  apply harmless_bind.
  { unfold time_until_event. apply harmless_bind; [apply harmless_datetime_now|].
    intros now. apply harmless_ret. }
  intros delta. apply harmless_bind; [done|intros kept; apply harmless_ret].
Qed.

Lemma harmless_handle_error (func : M unit) :
  harmless func → harmless (handle_error func).
Proof.
  intros Hf st. unfold handle_error. destruct (Hf st) as (H1 & H2 & H3 & H4).
  destruct (func st) as [[[]|e|] st1]; [done | by destruct (H4 e) | done].
Qed.

Lemma harmless_search_event : harmless search_event.
Proof.
  unfold search_event. apply harmless_bind; [apply harmless_get_input|intros query].
  apply harmless_bind; [apply harmless_get|intros evs]. cbv zeta.
  destruct (List.filter _ _); [apply harmless_log|].
  apply harmless_bind; [apply harmless_log | intros _; apply harmless_log].
Qed.

Lemma harmless_show_upcoming_events : harmless show_upcoming_events.
Proof.
  apply harmless_handle_error. unfold show_upcoming_events_body.
  apply harmless_bind; [apply harmless_datetime_now|intros today].
  apply harmless_bind; [apply harmless_get|intros evs].
  apply harmless_bind; [apply harmless_within_a_week|intros [|e l]];
    [apply harmless_log|].
  cbv zeta. apply harmless_bind; [apply harmless_log | intros _; apply harmless_log].
Qed.

Lemma harmless_show_all_events : harmless show_all_events.
Proof.
  apply harmless_handle_error. unfold show_all_events_body.
  apply harmless_bind; [apply harmless_get|intros [|e l]]; apply harmless_log.
Qed.

End Harmless.

(** ** The date codec, end to end *)

(** X1. The text [save_events] writes for a date that exists is read back
    by [event_decoder] when the year has four digits, and only then.  From
    the year 1000 on the date comes back the same to the minute: seconds
    and microseconds are dropped, a date exact to the minute comes back as
    it was, and two dates with the same text agree to the minute.  Below
    the year 1000 the year is written unpadded and the text is refused. *)
Theorem strftime_then_strptime (dt : datetime) :
  valid dt = true →
  (1000 ≤ year dt →
   strptime (strftime dt)
   = Some (mk_datetime (year dt) (month dt) (day dt) (hour dt) (minute dt) 0 0)
   ∧ (minute_precision dt = true → strptime (strftime dt) = Some dt)
   ∧ (∀ dt', valid dt' = true → 1000 ≤ year dt' → strftime dt' = strftime dt →
             year dt' = year dt ∧ month dt' = month dt ∧ day dt' = day dt
             ∧ hour dt' = hour dt ∧ minute dt' = minute dt))
  ∧ (year dt < 1000 → strptime (strftime dt) = None).
Proof.
  intros Hv. split; [|by apply strptime_strftime_short_year].
  intros Hy. split; [by apply strptime_strftime_minute|].
  split; [intros Hm; by apply strptime_strftime|].
  intros dt' Hv' Hy' Heq.
  pose proof (strptime_strftime_minute dt Hv Hy) as H.
  pose proof (strptime_strftime_minute dt' Hv' Hy') as H'.
  rewrite Heq, H in H'. by injection H' as -> -> -> -> ->.
Qed.

Lemma strftime_then_strptime_witness :
  strptime (strftime leap_day) = Some (mk_datetime 2024 2 29 23 59 0 0)
  ∧ strptime (strftime (date_time standup)) = Some (date_time standup)
  ∧ strftime (date_time old_event) = "999-01-01 00:00"
  ∧ strptime (strftime (date_time old_event)) = None.
Proof.
  split; [|split; [|split]].
  - apply (proj1 (strftime_then_strptime leap_day eq_refl)). by cbn.
  - apply (proj1 (strftime_then_strptime (date_time standup) eq_refl)); by cbn.
  - reflexivity.
  - apply (proj2 (strftime_then_strptime (date_time old_event) eq_refl)). by cbn.
Defined.

(** X2. A text that the date prompt of [add_event] or [edit_event]
    accepts, however it is written, gives a date that exists, exact to the
    minute.  When its year is 1000 or later, the text [save_events] writes
    for that date is accepted too and gives the same date.  When its year
    is below 1000 -- the user has typed it with leading zeros -- the text
    [save_events] writes for it is refused. *)
Theorem accepted_date_is_kept (s : string) (dt : datetime) :
  strptime s = Some dt →
  valid dt = true ∧ second dt = 0 ∧ microsecond dt = 0
  ∧ (1000 ≤ year dt → strptime (strftime dt) = Some dt)
  ∧ (year dt < 1000 → strptime (strftime dt) = None).
Proof.
  intros Hs. destruct (strptime_storable s dt Hs) as [Hv Hm].
  split; [done|].
  pose proof Hm as Hm'. unfold minute_precision in Hm'.
  apply andb_true_iff in Hm' as [H1 H2].
  split; [lia|]. split; [lia|].
  split; [intros Hy; by apply strptime_strftime|].
  by apply strptime_strftime_short_year.
Qed.

Lemma accepted_date_is_kept_witness :
  strptime (strftime (mk_datetime 2099 1 1 9 5 0 0))
  = Some (mk_datetime 2099 1 1 9 5 0 0)
  ∧ strptime (strftime (mk_datetime 999 1 1 0 0 0 0)) = None.
Proof.
  split.
  - destruct (accepted_date_is_kept "2099-1-1 9:5" (mk_datetime 2099 1 1 9 5 0 0))
      as (_ & _ & _ & H & _); [vm_compute; reflexivity|].
    apply H. by cbn.
  - destruct (accepted_date_is_kept "0999-01-01 00:00" (mk_datetime 999 1 1 0 0 0 0))
      as (_ & _ & _ & _ & H); [vm_compute; reflexivity|].
    apply H. by cbn.
Defined.

(** ** The date prompt *)

Lemma read_date_time_rounds_all_bad (lines : list string) :
  ∀ (rounds : nat) (prompt : string) (st : state),
    Forall (λ s, strptime s = None) lines →
    keyboard st = lines →
    (length lines < rounds)%nat →
    read_date_time_rounds rounds prompt st
    = (Blocked,
       with_keyboard []
         (with_console
            (console st ++ reprompts prompt lines ++ [get_input_call prompt]) st)).
Proof.
  induction lines as [|s lines IH]; intros rounds prompt st Hbad Hk Hr.
  - destruct rounds as [|rounds]; [simpl in Hr; lia|].
    cbn [read_date_time_rounds].
    erewrite bind_Blocked by (apply get_input_blocked; exact Hk).
    destruct st as [[path evs] fs dn clk tk kb cons]. cbn [keyboard] in Hk. subst kb.
    f_equal.
  - destruct rounds as [|rounds]; [simpl in Hr; lia|].
    inversion Hbad as [|? ? Hs Hbad']; subst.
    destruct st as [[path evs] fs dn clk tk kb cons]. cbn [keyboard] in Hk. subst kb.
    cbn [read_date_time_rounds].
    step_by ltac:(apply get_input_run; reflexivity).
    rewrite Hs. unfold view.display_message.
    step_by ltac:(reflexivity).
    rewrite (IH rounds prompt); [|done|reflexivity|simpl in Hr; lia].
    f_equal. same_state.
Qed.

(** X3. The loop that asks for a date never raises and never gives up.
    It refuses the lines that do not fit the format one by one, showing the
    hint after each, and returns the date of the first line that fits; when
    no line fits it has shown the hint for every line and waits for
    another. *)
Theorem read_date_time_insists (prompt : string) (st : state) :
  (∀ e, (read_date_time prompt st).1 ≠ Raise e)
  ∧ (∀ bad good dt rest,
       Forall (λ s, strptime s = None) bad →
       strptime good = Some dt →
       keyboard st = bad ++ good :: rest →
       read_date_time prompt st
       = (Return dt,
          with_keyboard rest
            (with_console
               (console st ++ reprompts prompt bad ++ [get_input_call prompt]) st)))
  ∧ (Forall (λ s, strptime s = None) (keyboard st) →
     read_date_time prompt st
     = (Blocked,
        with_keyboard []
          (with_console
             (console st ++ reprompts prompt (keyboard st) ++ [get_input_call prompt])
             st))).
Proof.
  split; [|split].
  - intros e. by destruct (harmless_read_date_time prompt st) as (_ & _ & _ & H).
  - intros bad good dt rest. apply read_date_time_run.
  - intros Hbad. unfold read_date_time.
    apply read_date_time_rounds_all_bad; [done|done|lia].
Qed.

Lemma read_date_time_insists_witness :
  read_date_time "When? " (base_state [] ∅ ["soon"; "2099-01-01 09:00"; "work"])
  = (Return (mk_datetime 2099 1 1 9 0 0 0),
     with_keyboard ["work"]
       (with_console
          (console (base_state [] ∅ ["soon"; "2099-01-01 09:00"; "work"])
           ++ reprompts "When? " ["soon"] ++ [get_input_call "When? "])
          (base_state [] ∅ ["soon"; "2099-01-01 09:00"; "work"])))
  ∧ read_date_time "When? " (base_state [] ∅ ["soon"; "later"])
    = (Blocked,
       with_keyboard []
         (with_console
            (console (base_state [] ∅ ["soon"; "later"])
             ++ reprompts "When? " (keyboard (base_state [] ∅ ["soon"; "later"]))
             ++ [get_input_call "When? "])
            (base_state [] ∅ ["soon"; "later"]))).
Proof.
  split.
  - apply (proj1 (proj2 (read_date_time_insists "When? "
                           (base_state [] ∅ ["soon"; "2099-01-01 09:00"; "work"])))
             ["soon"] "2099-01-01 09:00" (mk_datetime 2099 1 1 9 0 0 0) ["work"]).
    + constructor; [vm_compute; reflexivity | constructor].
    + vm_compute. reflexivity.
    + reflexivity.
  - apply (proj2 (proj2 (read_date_time_insists "When? "
                           (base_state [] ∅ ["soon"; "later"])))).
    constructor; [vm_compute; reflexivity|].
    constructor; [vm_compute; reflexivity | constructor].
Defined.

(** ** Saving *)

(** X4. [save_events] succeeds or changes nothing.  When the file cannot
    be opened it raises [PermissionError] and every file is as it was.
    Otherwise it returns: the file of the store holds the document of the
    whole list, every other file, the list and the console are as they
    were, and saving once more changes nothing. *)
Theorem save_events_all_or_nothing (st : state) :
  (file_path (self st) ∈ denied st → save_events st = (Raise PermissionError, st))
  ∧ (file_path (self st) ∉ denied st →
     ∃ st', save_events st = (Return tt, st')
            ∧ files st'
              = <[file_path (self st) := written (store_document (events (self st)))]>
                  (files st)
            ∧ self st' = self st
            ∧ console st' = console st
            ∧ keyboard st' = keyboard st
            ∧ save_events st' = (Return tt, st')).
Proof.
  split; intros Hd.
  - rewrite save_events_run. by rewrite bool_decide_eq_true_2.
  - eexists. split; [rewrite save_events_run; by rewrite bool_decide_eq_false_2|].
    repeat split. rewrite save_events_run. cbn [self with_files denied].
    rewrite bool_decide_eq_false_2 by done. f_equal.
    destruct st as [[path evs] fs dn clk tk kb cons]. norm_state.
    by rewrite insert_insert_eq.
Qed.

Lemma save_events_all_or_nothing_witness :
  save_events (locked_state []) = (Raise PermissionError, locked_state [])
  ∧ ∃ st', save_events roundtrip_state = (Return tt, st')
           ∧ files st'
             = <[file_path (self roundtrip_state)
                 := written (store_document (events (self roundtrip_state)))]>
                 (files roundtrip_state)
           ∧ self st' = self roundtrip_state
           ∧ console st' = console roundtrip_state
           ∧ keyboard st' = keyboard roundtrip_state
           ∧ save_events st' = (Return tt, st').
Proof.
  split.
  - apply (proj1 (save_events_all_or_nothing (locked_state []))).
    unfold locked_state. cbn [self file_path denied]. by apply elem_of_singleton_2.
  - apply (proj2 (save_events_all_or_nothing roundtrip_state)).
    apply not_elem_of_empty.
Defined.

(** ** What a session keeps *)

Section Session.
Context (G : Prop) (p : string) (d : gset string).

Lemma agrees_frame (st st' : state) :
  self st' = self st → files st' = files st → agrees st → agrees st'.
Proof. unfold agrees, persisted. by intros -> ->. Qed.

Lemma session_inv_frame (st st' : state) :
  self st' = self st → files st' = files st → denied st' = denied st →
  session_inv G p d st → session_inv G p d st'.
Proof.
  intros Hs Hf Hd (H1 & H2 & H3 & H4). unfold session_inv, stores_well in *.
  rewrite Hs, Hd. repeat split; try done.
  intros HG Hp. by apply (agrees_frame st); [..|apply H4].
Qed.

Lemma session_mid_frame (st st' : state) :
  self st' = self st → files st' = files st → denied st' = denied st →
  session_mid G p d st → session_mid G p d st'.
Proof.
  intros Hs Hf Hd (H1 & H2 & H3). unfold session_mid, stores_well in *.
  by rewrite Hs, Hd.
Qed.

Lemma session_inv_mid (st : state) : session_inv G p d st → session_mid G p d st.
Proof. by intros (H1 & H2 & H3 & H4). Qed.

Lemma hoare_harmless {A} (P : state → Prop) (m : M A) :
  (∀ st st', self st' = self st → files st' = files st → denied st' = denied st →
             P st → P st') →
  harmless m → hoare P m (λ o st, P st ∧ ∀ e, o ≠ Raise e).
Proof.
  intros HP Hm st Hst. destruct (Hm st) as (H1 & H2 & H3 & H4).
  split; [by apply (HP st)|done].
Qed.

Lemma hoare_bind_harmless {A B} (P : state → Prop) (m : M A) (k : A → M B)
    (Rv : A → Prop) (Q : outcome B → state → Prop) :
  (∀ st st', self st' = self st → files st' = files st → denied st' = denied st →
             P st → P st') →
  harmless m →
  (∀ st a, (m st).1 = Return a → Rv a) →
  (∀ st, P st → Q Blocked st) →
  (∀ a, Rv a → hoare P (k a) Q) →
  hoare P (m ≫= k) Q.
Proof.
  intros HP Hm Hv Hb Hk st Hst. unfold mbind, M_bind.
  destruct (Hm st) as (H1 & H2 & H3 & H4). specialize (Hv st).
  destruct (m st) as [[a|e|] st1]; cbn [fst snd] in *.
  - apply Hk; [by apply Hv | by apply (HP st)].
  - by destruct (H4 e).
  - apply Hb. by apply (HP st).
Qed.

Lemma hoare_bind_log {B} (P : state → Prop) (c : console_event) (k : unit → M B)
    (Q : outcome B → state → Prop) :
  (∀ st st', self st' = self st → files st' = files st → denied st' = denied st →
             P st → P st') →
  hoare P (k tt) Q → hoare P (log c ≫= k) Q.
Proof.
  intros HP Hk. unfold log. eapply hoare_bind_modify; [|exact Hk].
  intros st Hst. by apply (HP st).
Qed.

Lemma hoare_log_inv (c : console_event) :
  hoare (session_inv G p d) (log c) (session_post G p d).
Proof.
  intros st Hst. split; [|done]. by apply (session_inv_frame st).
Qed.

Lemma session_post_Blocked {A} (st : state) :
  session_inv G p d st → session_post G p d (@Blocked A) st.
Proof. by split. Qed.

Lemma hoare_save_events : hoare (session_mid G p d) save_events (session_post G p d).
Proof.
  intros st (Hp & Hd & Hw). rewrite save_events_run.
  case_bool_decide as Hin; cbn [fst snd].
  - split; [|intros e [= <-]; split; [done|congruence]].
    repeat split; try done. intros _ Hnot. destruct Hnot. congruence.
  - split; [|done]. repeat split; try done. intros HG _. right.
    unfold persisted. cbn. by rewrite lookup_insert_eq.
Qed.

Lemma read_date_time_storable (prompt : string) (st : state) (dt : datetime) :
  (read_date_time prompt st).1 = Return dt →
  valid dt = true ∧ minute_precision dt = true.
Proof.
  destruct (read_date_time prompt st) as [o st'] eqn:E. cbn [fst]. intros ->.
  apply read_date_time_Return in E as (s & Hs). by apply strptime_storable in Hs.
Qed.

Lemma hoare_add_event : hoare (session_inv G p d) add_event (session_post G p d).
Proof.
  unfold add_event. apply hoare_handle_error.
  eapply hoare_weaken with (Q' := session_post G p d); [|done|].
  2:{ intros [[]|e|] st; [done| |done]. intros [Hinv _]. split; [|done].
      by apply (session_inv_frame st). }
  unfold add_event_body.
  eapply (hoare_bind_harmless _ _ _ (λ _, True));
    [apply session_inv_frame | apply harmless_get_input | done
    | apply session_post_Blocked | intros title_in _].
  eapply (hoare_bind_harmless _ _ _ (λ dt, valid dt = true ∧ minute_precision dt = true));
    [apply session_inv_frame | apply harmless_read_date_time
    | apply read_date_time_storable | apply session_post_Blocked | intros dt Hdt].
  eapply (hoare_bind_harmless _ _ _ (λ _, True));
    [apply session_inv_frame | apply harmless_get_input | done
    | apply session_post_Blocked | intros tags_in _].
  cbv zeta.
  eapply (hoare_bind_modify _ (session_mid G p d)).
  { intros st (H1 & H2 & H3 & H4). repeat split; try done.
    intros HG. unfold stores_well. cbn. apply Forall_app. split; [by apply H3|].
    apply Forall_singleton. exact Hdt. }
  eapply hoare_bind with (R := λ _, session_inv G p d).
  { eapply hoare_weaken; [apply hoare_save_events|done|].
    intros [[]|e|] st; [by intros [] | done | done]. }
  intros _. apply hoare_log_inv.
Qed.

Lemma hoare_edit_event_loop (title0 : string) (rest : list Event) :
  ∀ i, hoare (session_inv G p d) (edit_event_loop title0 i rest) (session_post G p d).
Proof.
  induction rest as [|event rest IH]; intros i; cbn [edit_event_loop].
  { apply hoare_log_inv. }
  destruct (String.eqb (title event) title0); [|apply IH].
  eapply (hoare_bind_harmless _ _ _ (λ _, True));
    [apply session_inv_frame | apply harmless_get_input | done
    | apply session_post_Blocked | intros new_title _].
  eapply (hoare_bind_harmless _ _ _ (λ dt, valid dt = true ∧ minute_precision dt = true));
    [apply session_inv_frame | apply harmless_read_date_time
    | apply read_date_time_storable | apply session_post_Blocked | intros dt Hdt].
  eapply (hoare_bind_harmless _ _ _ (λ _, True));
    [apply session_inv_frame | apply harmless_get_input | done
    | apply session_post_Blocked | intros tags_in _].
  cbv zeta. unfold assign.
  assert (∀ (f : Event → Event) (P : state → Prop),
            (∀ e, storable e → storable (f e)) →
            (∀ st, P st → session_mid G p d st) →
            ∀ st, P st →
                  session_mid G p d (with_events (alter f i (events (self st))) st))
    as Hassign.
  { intros f P Hf HP st [H1 [H2 H3]]%HP. repeat split; try done.
    intros HG. unfold stores_well. cbn. apply Forall_alter; [by apply H3|].
    intros e _. apply Hf. }
  eapply (hoare_bind_modify _ (session_mid G p d));
    [apply Hassign; [done | apply session_inv_mid]|].
  eapply (hoare_bind_modify _ (session_mid G p d));
    [apply Hassign; [by intros e _ | done]|].
  eapply (hoare_bind_modify _ (session_mid G p d));
    [apply Hassign; [done | done]|].
  unfold view.display_message.
  apply hoare_bind_log; [apply session_mid_frame|].
  apply hoare_bind_get. intros evs.
  eapply hoare_bind with (R := λ _, session_mid G p d).
  { intros st [Hmid _].
    destruct (evs !! i); cbn; [by apply (session_mid_frame st) | done]. }
  intros _. apply hoare_save_events.
Qed.

Lemma hoare_edit_event : hoare (session_inv G p d) edit_event (session_post G p d).
Proof.
  unfold edit_event.
  eapply (hoare_bind_harmless _ _ _ (λ _, True));
    [apply session_inv_frame | apply harmless_get_input | done
    | apply session_post_Blocked | intros title0 _].
  apply hoare_bind_get. intros evs.
  eapply hoare_weaken; [apply hoare_edit_event_loop | by intros st [] | done].
Qed.

(** [remove] finds what the loop found: the event is in the list. *)
Lemma list_remove_elem (x : Event) (l : list Event) :
  x ∈ l → ∃ l', list_remove x l = inr l'.
Proof.
  induction l as [|y l IH]; [by intros ?%elem_of_nil|].
  intros Hx. simpl. case_bool_decide as Hy; [by eexists|].
  apply elem_of_cons in Hx as [->|Hx]; [done|].
  destruct (IH Hx) as [l' ->]. by eexists.
Qed.

Lemma hoare_delete_event_loop (title0 : string) (rest : list Event) :
  hoare (λ st, session_inv G p d st ∧ rest ⊆ events (self st))
    (delete_event_loop title0 rest) (session_post G p d).
Proof.
  induction rest as [|event rest IH]; cbn [delete_event_loop].
  { eapply hoare_weaken; [apply hoare_log_inv | by intros st [] | done]. }
  destruct (String.eqb (title event) title0).
  2:{ eapply hoare_weaken; [apply IH | | done].
      intros st [Hinv Hsub]. split; [done|]. intros x Hx. apply Hsub. by right. }
  apply hoare_bind_get. intros evs.
  apply hoare_bind_lift_result.
  { intros e He st [[Hinv Hsub] <-].
    destruct (list_remove_elem event (events (self st))) as [l' Hl'];
      [apply Hsub; left | congruence]. }
  intros evs' Hevs'.
  eapply (hoare_bind_modify _ (session_mid G p d)).
  { intros st [[(H1 & H2 & H3 & H4) Hsub] <-]. repeat split; try done.
    intros HG. unfold stores_well in *. cbn.
    apply list_remove_sublist in Hevs'. specialize (H3 HG).
    rewrite Forall_forall in *. intros e He. apply H3. by eapply elem_of_sublist. }
  unfold view.display_message.
  apply hoare_bind_log; [apply session_mid_frame|].
  apply hoare_save_events.
Qed.

Lemma hoare_delete_event : hoare (session_inv G p d) delete_event (session_post G p d).
Proof.
  unfold delete_event.
  eapply (hoare_bind_harmless _ _ _ (λ _, True));
    [apply session_inv_frame | apply harmless_get_input | done
    | apply session_post_Blocked | intros title0 _].
  apply hoare_bind_get. intros evs.
  eapply hoare_weaken; [apply hoare_delete_event_loop | | done].
  intros st [Hinv <-]. done.
Qed.

Lemma hoare_harmless_operation (m : M unit) :
  harmless m → hoare (session_inv G p d) m (session_post G p d).
Proof.
  intros Hm. eapply hoare_weaken;
    [apply (hoare_harmless _ _ session_inv_frame Hm) | done |].
  intros o st [Hinv Hno]. split; [done|]. intros e ->. by destruct (Hno e).
Qed.

(** Every operation ends with the invariant, and raises nothing but the
    [PermissionError] of an unwritable file. *)
Lemma hoare_perform (o : operation) :
  hoare (session_inv G p d) (perform o) (session_post G p d).
Proof.
  destruct o; cbn [perform].
  - apply hoare_add_event.
  - apply hoare_harmless_operation, harmless_show_upcoming_events.
  - apply hoare_harmless_operation, harmless_show_all_events.
  - apply hoare_harmless_operation, harmless_search_event.
  - apply hoare_edit_event.
  - apply hoare_delete_event.
Qed.

End Session.

Lemma load_events_state (st : state) : (load_events st).2 = st.
Proof.
  unfold load_events, try_except_FileNotFoundError. rewrite load_events_body_run.
  by destruct (load_result st) as [[]|].
Qed.

Lemma reachable_session_inv (st0 st : state) :
  stores_well st0 → writable st0 → agrees st0 → reachable st0 st →
  session_inv True (file_path (self st0)) (denied st0) st.
Proof.
  intros Hw Hd Hs. induction 1 as [|st lines Hr IH|st o Hr IH].
  - by repeat split.
  - by apply (session_inv_frame _ _ _ st).
  - by apply (hoare_perform True _ _ o st IH).
Qed.

(** X5. Every event of the list has a date that exists, exact to the
    minute, and that stays so through a whole session: whatever the user
    types and whichever operations run, however each of them ends. *)
Theorem session_store_stays_storable (st0 st : state) :
  stores_well st0 → reachable st0 st → stores_well st.
Proof.
  intros H0. induction 1 as [|st lines Hr IH|st o Hr IH]; [done|done|].
  destruct (operations_store_well st IH) as (H1 & H2 & H3 & H4 & H5 & H6).
  by destruct o.
Qed.

Lemma session_store_stays_storable_witness :
  events (self session_end)
  = [mk_Event "Review" (mk_datetime 2099 3 1 10 0 0 0) ["team"; "q1"]]
  ∧ stores_well session_end.
Proof.
  split; [vm_compute; reflexivity|].
  apply (session_store_stays_storable session_start).
  - constructor.
  - apply reachable_performed, reachable_typed, reachable_performed,
      reachable_typed, reachable_performed, reachable_start.
Defined.

(** With memory and file in agreement, a manager on the same path loads
    the in-memory list, whatever list it holds itself, when the years of
    the events have four digits. *)
Lemma load_events_agrees (st : state) (held : list Event) :
  agrees st → stores_well st → writable st →
  Forall four_digit_year (events (self st)) →
  load_events (with_events held st)
  = (Return (map object_of (events (self st))), with_events held st).
Proof.
  unfold stores_well, writable. intros Hag Hall Hw Hyears.
  unfold load_events, try_except_FileNotFoundError.
  rewrite load_events_body_run. unfold load_result, open_r.
  cbn [self with_events files denied file_path].
  destruct Hag as [[Hnone ->]|Hp].
  - by rewrite Hnone.
  - unfold persisted in Hp. rewrite Hp, bool_decide_eq_false_2 by done.
    unfold load_file. cbn [document written extra_data result_bind].
    pose proof (load_store_document _ Hall Hyears) as Hload.
    destruct (load event_decoder (store_document (events (self st))))
      as [e|events_data]; [done|].
    cbn [result_bind] in *. by rewrite Hload.
Qed.

(** With an event of a year below 1000 in the list, the file cannot be
    loaded. *)
Lemma load_events_short_year (st : state) (held : list Event) :
  agrees st → stores_well st → writable st →
  Exists (λ e, year (date_time e) < 1000) (events (self st)) →
  load_events (with_events held st) = (Raise ValueError, with_events held st).
Proof.
  unfold stores_well, writable. intros Hag Hall Hw Hex.
  unfold load_events, try_except_FileNotFoundError.
  rewrite load_events_body_run. unfold load_result, open_r.
  cbn [self with_events files denied file_path].
  destruct Hag as [[_ Hnil]|Hp]; [rewrite Hnil in Hex; by inversion Hex|].
  unfold persisted in Hp. rewrite Hp, bool_decide_eq_false_2 by done.
  unfold load_file. cbn [document written extra_data result_bind].
  by rewrite (load_store_document_short_year _ Hall Hex).
Qed.

(** X6. Memory and file stay in step through a session, and the file can
    be loaded again exactly when no year is below 1000.  Start from a
    store whose events have dates that exist, exact to the minute, whose
    file is writable, and whose file holds the document of the list (or
    from a new store: no file, no events).  Then in every state a session
    reaches -- after any input and any operations, however each ended --
    the file holds the document of the in-memory list.  If the years of
    the events all have four digits, [load_events] by a manager on the same
    path, whatever list that manager holds, returns the in-memory events,
    one by one and in store order.  If one event has a year below 1000,
    [load_events] raises [ValueError] instead. *)
Theorem session_stays_in_sync (st0 st : state) (held : list Event) :
  stores_well st0 → writable st0 → agrees st0 → reachable st0 st →
  agrees st
  ∧ (Forall four_digit_year (events (self st)) →
     load_events (with_events held st)
     = (Return (map object_of (events (self st))), with_events held st))
  ∧ (Exists (λ e, year (date_time e) < 1000) (events (self st)) →
     load_events (with_events held st) = (Raise ValueError, with_events held st)).
Proof.
  intros Hw Hd Hs Hr.
  destruct (reachable_session_inv st0 st Hw Hd Hs Hr) as (Hp & Hden & Hall & Hag).
  assert (writable st) as Hwst by (unfold writable; by rewrite Hp, Hden).
  assert (agrees st) as Hagst by (apply Hag; [done|by rewrite <- Hden, <- Hp]).
  split; [done|]. split; intros H.
  - by apply load_events_agrees; [|apply Hall|..].
  - by apply load_events_short_year; [|apply Hall|..].
Qed.

Lemma session_stays_in_sync_witness :
  (events (self session_end)
   = [mk_Event "Review" (mk_datetime 2099 3 1 10 0 0 0) ["team"; "q1"]]
   ∧ load_events (with_events [standup] session_end)
     = (Return (map object_of (events (self session_end))),
        with_events [standup] session_end))
  ∧ (events (self old_session_end)
     = [mk_Event "Review" (mk_datetime 999 3 1 10 0 0 0) ["team"; "q1"]]
     ∧ load_events (with_events [standup] old_session_end)
       = (Raise ValueError, with_events [standup] old_session_end)).
Proof.
  split; (split; [vm_compute; reflexivity|]).
  - destruct (session_stays_in_sync session_start session_end [standup])
      as (_ & H & _).
    + constructor.
    + apply not_elem_of_empty.
    + left. split; reflexivity.
    + apply reachable_performed, reachable_typed, reachable_performed,
        reachable_typed, reachable_performed, reachable_start.
    + apply H. constructor; [|constructor]. unfold four_digit_year. by cbn.
  - destruct (session_stays_in_sync session_start old_session_end [standup])
      as (_ & _ & H).
    + constructor.
    + apply not_elem_of_empty.
    + left. split; reflexivity.
    + apply reachable_performed, reachable_typed, reachable_performed,
        reachable_start.
    + apply H. left. by cbn.
Defined.

(** X7. On a list whose events have a text for a title, a [datetime] and
    texts for tags -- the events [add_event] and [edit_event] make, and
    those loaded from a file [save_events] wrote -- the only exception that
    comes out of an operation is the [PermissionError] of a store file
    that cannot be written, and it comes out of [edit_event] or
    [delete_event] only: [list.remove] always finds the event the loop
    stopped at, the date prompt catches its [ValueError], and the other
    operations either change nothing or carry the decorator.  (A list
    loaded from a file written by hand may hold other values, a number for
    a title say; such lists are outside this statement.) *)
Theorem only_an_unwritable_file_raises (o : operation) (st : state) (e : exn) :
  (perform o st).1 = Raise e →
  e = PermissionError ∧ file_path (self st) ∈ denied st
  ∧ (o = op_edit_event ∨ o = op_delete_event).
Proof.
  intros He.
  assert (session_inv False (file_path (self st)) (denied st) st) as Hinv
    by (by repeat split).
  destruct (hoare_perform False _ _ o st Hinv) as [_ Hraise].
  destruct (Hraise e He) as [-> Hin]. split; [done|]. split; [done|].
  destruct o; cbn [perform] in He; try tauto.
  - by apply handle_error_catches in He.
  - destruct (harmless_show_upcoming_events st) as (_ & _ & _ & H).
    by destruct (H PermissionError).
  - destruct (harmless_show_all_events st) as (_ & _ & _ & H).
    by destruct (H PermissionError).
  - destruct (harmless_search_event st) as (_ & _ & _ & H).
    by destruct (H PermissionError).
Qed.

Lemma only_an_unwritable_file_raises_witness :
  PermissionError = PermissionError
  ∧ file_path (self (locked_state ["Standup"])) ∈ denied (locked_state ["Standup"])
  ∧ (op_delete_event = op_edit_event ∨ op_delete_event = op_delete_event).
Proof.
  apply (only_an_unwritable_file_raises op_delete_event (locked_state ["Standup"])).
  vm_compute. reflexivity.
Defined.

(** ** A save that fails *)

(** X8. Nothing is rolled back when the file cannot be written.
    [add_event] has appended the event when the save fails: it returns
    with the error reported, the event in the list and the files
    untouched.  [edit_event] and [delete_event] have changed the list and
    told the user so when the save fails: the [PermissionError] comes out
    of them with the list changed and the files untouched. *)
Theorem failed_save_is_not_rolled_back (st : state) :
  file_path (self st) ∈ denied st →
  (∀ title_in bad good dt tags_in rest,
     Forall (λ s, strptime s = None) bad →
     strptime good = Some dt →
     keyboard st = title_in :: bad ++ good :: tags_in :: rest →
     ∃ st', add_event st = (Return tt, st')
            ∧ events (self st')
              = events (self st) ++ [mk_Event title_in dt (Py.split "," tags_in)]
            ∧ files st' = files st
            ∧ last (console st') = Some (error_report PermissionError))
  ∧ (∀ before e after new_title bad good dt tags_in rest,
       events (self st) = before ++ e :: after →
       Forall (λ x, title x ≠ title e) before →
       Forall (λ s, strptime s = None) bad →
       strptime good = Some dt →
       keyboard st = title e :: new_title :: bad ++ good :: tags_in :: rest →
       ∃ st', edit_event st = (Raise PermissionError, st')
              ∧ events (self st')
                = before ++ mk_Event new_title dt (Py.split "," tags_in) :: after
              ∧ files st' = files st
              ∧ last (console st')
                = Some (display_event_details_call
                          (mk_Event new_title dt (Py.split "," tags_in))))
  ∧ (∀ before e after rest,
       events (self st) = before ++ e :: after →
       Forall (λ x, title x ≠ title e) before →
       keyboard st = title e :: rest →
       ∃ st', delete_event st = (Raise PermissionError, st')
              ∧ events (self st') = before ++ after
              ∧ files st' = files st
              ∧ last (console st')
                = Some (display_message_call "Event deleted successfully.")).
Proof.
  intros Hd. split; [|split].
  - intros title_in bad good dt tags_in rest Hbad Hgood Hk. eexists.
    unfold add_event, handle_error.
    rewrite (add_event_body_run st title_in bad good dt tags_in rest) by done.
    rewrite bool_decide_eq_true_2 by done.
    split; [reflexivity|]. repeat split. unfold log, modify. norm_state.
    apply last_snoc.
  - intros before e after new_title bad good dt tags_in rest Hev Hfirst Hbad Hgood Hk.
    eexists.
    rewrite (edit_event_run_found st before e after new_title bad good dt tags_in rest)
      by done.
    rewrite bool_decide_eq_true_2 by done.
    split; [reflexivity|]. repeat split. unfold edited. norm_state.
    rewrite !app_comm_cons, !app_assoc. by rewrite last_app.
  - intros before e after rest Hev Hfirst Hk. eexists.
    rewrite (delete_event_run_found st before e after rest) by done.
    rewrite bool_decide_eq_true_2 by done.
    split; [reflexivity|]. repeat split. unfold deleted. norm_state.
    by rewrite last_app_cons.
Qed.

Lemma failed_save_is_not_rolled_back_witness :
  ∃ st', delete_event (locked_state ["Standup"]) = (Raise PermissionError, st')
         ∧ events (self st') = [] ++ []
         ∧ files st' = files (locked_state ["Standup"])
         ∧ last (console st')
           = Some (display_message_call "Event deleted successfully.").
Proof.
  destruct (failed_save_is_not_rolled_back (locked_state ["Standup"]))
    as (_ & _ & H).
  { unfold locked_state. cbn [self file_path denied]. by apply elem_of_singleton_2. }
  apply (H [] standup [] []); [reflexivity | constructor | reflexivity].
Defined.

(** ** Searching, once more *)

Lemma search_event_run (st : state) (query : string) (rest : list string) :
  search_event (with_keyboard (query :: rest) st)
  = (Return tt,
     with_console
       (console st ++ get_input_call "Enter event title to search: "
                   :: search_report (List.filter (search_test query) (events (self st))))
       (with_keyboard rest st)).
Proof.
  unfold search_event, view.get_input, view.display_message,
    view.display_error, view.display_events_list, log.
  unfold mbind, M_bind, mret, M_ret, get, modify. cbn beta iota.
  cbn [keyboard with_keyboard with_console self events].
  destruct st as [[path evs] fs dn clk tk kb cons]. norm_state.
  destruct (List.filter (search_test query) evs) as [|r rs]; same_state.
Qed.

Lemma search_event_run_typed (st : state) (query : string) (rest : list string) :
  keyboard st = query :: rest →
  search_event st
  = (Return tt,
     with_console
       (console st ++ get_input_call "Enter event title to search: "
                   :: search_report (List.filter (search_test query) (events (self st))))
       (with_keyboard rest st)).
Proof.
  intros Hk. rewrite <- (search_event_run st query rest). f_equal.
  destruct st as [[path evs] fs dn clk tk kb cons]. cbn in Hk. by subst kb.
Qed.

Lemma str_in_empty (s : string) : Py.str_in "" s = true.
Proof. by destruct s. Qed.

(** X9. The empty query matches every event: when the user just presses
    return, [search_event] shows the whole list in store order (and the
    not-found message when the list is empty). *)
Theorem search_event_empty_query (st : state) (rest : list string) :
  search_event (with_keyboard ("" :: rest) st)
  = (Return tt,
     with_console
       (console st ++ get_input_call "Enter event title to search: "
                   :: search_report (events (self st)))
       (with_keyboard rest st)).
Proof.
  rewrite search_event_run.
  assert (∀ evs, List.filter (search_test "") evs = evs) as ->; [|done].
  induction evs as [|e evs IH]; [done|].
  simpl. unfold search_test at 1. by rewrite str_in_empty, IH.
Qed.

Lemma string_append_assoc (a b c : string) : (a +:+ b) +:+ c = a +:+ (b +:+ c).
Proof.
  induction a as [|x a IH]; [done|].
  change (String x ((a +:+ b) +:+ c) = String x (a +:+ (b +:+ c))). by f_equal.
Qed.

Lemma substring_of_trans (q q' s : string) :
  Py.substring_of q q' → Py.substring_of q' s → Py.substring_of q s.
Proof.
  intros (b & a & ->) (b' & a' & ->). exists (b' +:+ b), (a +:+ a').
  by rewrite !string_append_assoc.
Qed.

Lemma search_test_mono (q q' : string) (event : Event) :
  Py.str_in q q' = true → search_test q' event = true → search_test q event = true.
Proof.
  rewrite str_in_spec, !search_test_spec. intros Hq [Ht|Hg].
  - left. by eapply substring_of_trans.
  - right. eapply Exists_impl; [exact Hg|]. intros tag Htag.
    by eapply substring_of_trans.
Qed.

(** X10. A longer query finds no more: when [q] occurs in [q'], the events
    the comprehension of [search_event] keeps for [q'] are, in the same
    order, among those it keeps for [q]. *)
Theorem longer_query_finds_no_more (q q' : string) (evs : list Event) :
  Py.str_in q q' = true →
  List.filter (search_test q') evs `sublist_of` List.filter (search_test q) evs.
Proof.
  intros Hq. induction evs as [|e evs IH]; [done|]. simpl.
  destruct (search_test q' e) eqn:E'.
  - rewrite (search_test_mono q q' e Hq E'). by apply sublist_skip.
  - destruct (search_test q e); [by apply sublist_cons | done].
Qed.

Lemma longer_query_finds_no_more_witness :
  List.filter (search_test "Stand") [standup; review1; review2]
  `sublist_of` List.filter (search_test "and") [standup; review1; review2].
Proof.
  apply (longer_query_finds_no_more "and" "Stand"). vm_compute. reflexivity.
Defined.

(** X11. What has just been added is found: after [add_event], whether or
    not the save went through, [search_event] with a query that occurs in
    the title typed or in one of the tags typed shows a list that holds
    the new event. *)
Theorem added_event_is_found (st : state) (title_in : string) (bad : list string)
    (good : string) (dt : datetime) (tags_in query : string) (rest : list string) :
  Forall (λ s, strptime s = None) bad →
  strptime good = Some dt →
  keyboard st = title_in :: bad ++ good :: tags_in :: query :: rest →
  Py.str_in query title_in = true
  ∨ Exists (λ tag, Py.str_in query tag = true) (Py.split "," tags_in) →
  ∃ results st2,
    search_event (add_event st).2 = (Return tt, st2)
    ∧ console st2
      = console (add_event st).2
        ++ [get_input_call "Enter event title to search: ";
            display_message_call "Search results";
            display_events_list_call results]
    ∧ mk_Event title_in dt (Py.split "," tags_in) ∈ results.
Proof.
  intros Hbad Hgood Hk Hq.
  set (new := mk_Event title_in dt (Py.split "," tags_in)).
  assert (events (self (add_event st).2) = events (self st) ++ [new]
          ∧ keyboard (add_event st).2 = query :: rest) as [Hev1 Hk1].
  { unfold add_event, handle_error.
    rewrite (add_event_body_run st title_in bad good dt tags_in (query :: rest))
      by done.
    by case_bool_decide. }
  assert (search_test query new = true) as Hnew.
  { unfold search_test, new. cbn [title tags]. apply orb_true_iff.
    destruct Hq as [Ht|Hg]; [by left|right].
    unfold Py.any. apply existsb_exists. apply Exists_exists in Hg as (tag & Hin & Htag).
    exists tag. split; [by apply list_elem_of_In|done]. }
  assert (new ∈ List.filter (search_test query) (events (self (add_event st).2)))
    as Hin.
  { apply list_elem_of_In, filter_In. split; [|done].
    apply list_elem_of_In. rewrite Hev1. apply elem_of_app. right. by left. }
  rewrite (search_event_run_typed _ query rest Hk1).
  destruct (List.filter _ _) as [|r rs] eqn:E; [by apply elem_of_nil in Hin|].
  exists (r :: rs). eexists. split; [done|]. split; [|done]. done.
Qed.

Lemma added_event_is_found_witness :
  ∃ results st2,
    search_event
      (add_event (base_state [review1] ∅
                    ["Standup"; "2099-01-01 09:00"; "work"; "and"])).2
    = (Return tt, st2)
    ∧ console st2
      = console (add_event (base_state [review1] ∅
                              ["Standup"; "2099-01-01 09:00"; "work"; "and"])).2
        ++ [get_input_call "Enter event title to search: ";
            display_message_call "Search results";
            display_events_list_call results]
    ∧ mk_Event "Standup" (mk_datetime 2099 1 1 9 0 0 0) (Py.split "," "work")
      ∈ results.
Proof.
  apply (added_event_is_found
           (base_state [review1] ∅ ["Standup"; "2099-01-01 09:00"; "work"; "and"])
           "Standup" [] "2099-01-01 09:00" (mk_datetime 2099 1 1 9 0 0 0)
           "work" "and" []).
  - constructor.
  - vm_compute. reflexivity.
  - reflexivity.
  - left. vm_compute. reflexivity.
Defined.

(** ** Upcoming events, reading by reading *)

Lemma judged_kept_pairs (l : list Event) :
  ∀ nows, judged l nows = kept_pairs l nows.
Proof.
  unfold kept_pairs.
  induction l as [|event l IH]; intros [|now nows]; try done.
  cbn [judged zip zip_with]. rewrite filter_cons. cbn [fst snd].
  destruct (decide (within_horizon now event)); by rewrite IH.
Qed.

(** X12. [show_upcoming_events] whatever the clock does.  It reads the
    clock once for [today], which it never uses, and then once for each
    event, in store order.  The event at position [i] is kept when its
    [date_time] is at most seven days after the reading taken for it, the
    one that follows the reading for [today] by [i] readings; the events
    kept are shown sorted by [date_time].  The operation always returns,
    having read the clock once more than there are events. *)
Theorem show_upcoming_events_reads_the_clock_per_event (st : state) :
  let evs := events (self st) in
  let readings := map (clock st) (seq (S (ticks st)) (length evs)) in
  show_upcoming_events st
  = (Return tt,
     with_console
       (console st
        ++ upcoming_report (Py.sorted date_time Datetime.lt (kept_pairs evs readings)))
       (with_ticks (S (ticks st) + length evs) st)).
Proof.
  intros evs readings. rewrite show_upcoming_events_run.
  by rewrite judged_kept_pairs.
Qed.

(** ** The time until an event *)

Lemma tuple_lt_total (a : list Z) :
  ∀ b, length a = length b → tuple_lt a b = false → tuple_lt b a = false → a = b.
Proof.
  induction a as [|x a IH]; intros [|y b]; simpl; try done.
  intros [= Hlen] [H1 H2]%orb_false_iff [H3 H4]%orb_false_iff.
  assert (x = y) as -> by lia.
  rewrite Z.eqb_refl in H2, H4. f_equal. by apply IH.
Qed.

Lemma datetime_lt_total (a b : datetime) :
  Datetime.lt a b = false → Datetime.lt b a = false → a = b.
Proof.
  intros H1 H2. pose proof (tuple_lt_total (fields a) (fields b) eq_refl H1 H2) as H.
  destruct a, b. by injection H as -> -> -> -> -> -> ->.
Qed.

Lemma sub_opp (a b : datetime) : sub a b = - sub b a.
Proof. unfold sub, mk_timedelta. lia. Qed.

(** X13. The sign of [time_until_event] tells past from future.  For an
    event and a clock reading that are dates that exist, the difference
    returned is negative exactly when the event is earlier than the
    reading, zero exactly when it is that very instant, and positive
    exactly when it is later; the clock has been read once. *)
Theorem time_until_event_sign (event : Event) (st : state) :
  valid (date_time event) = true →
  valid (clock st (ticks st)) = true →
  ∃ delta,
    time_until_event event st = (Return delta, with_ticks (S (ticks st)) st)
    ∧ (delta < 0 ↔ Datetime.lt (date_time event) (clock st (ticks st)) = true)
    ∧ (delta = 0 ↔ date_time event = clock st (ticks st))
    ∧ (0 < delta ↔ Datetime.lt (clock st (ticks st)) (date_time event) = true).
Proof.
  intros Hv Hn. eexists. split; [apply time_until_event_run|].
  set (a := date_time event) in *. set (b := clock st (ticks st)) in *.
  pose proof (sub_negative a b Hv Hn) as Hab.
  pose proof (sub_negative b a Hn Hv) as Hba.
  pose proof (sub_opp a b) as Ho.
  pose proof (datetime_lt_total a b) as Ht.
  assert (sub a a = 0) as Haa by (unfold sub, mk_timedelta; lia).
  destruct (Datetime.lt a b) eqn:E1, (Datetime.lt b a) eqn:E2.
  - specialize (Hab eq_refl). specialize (Hba eq_refl). lia.
  - specialize (Hab eq_refl). repeat split; try done; try lia.
    intros ->. lia.
  - specialize (Hba eq_refl). repeat split; try done; try lia.
    intros ->. lia.
  - rewrite (Ht eq_refl eq_refl) in *. repeat split; try done; lia.
Qed.

Lemma time_until_event_sign_witness :
  ∃ delta,
    time_until_event last_week (base_state [] ∅ [])
    = (Return delta,
       with_ticks (S (ticks (base_state [] ∅ []))) (base_state [] ∅ []))
    ∧ (delta < 0
       ↔ Datetime.lt (date_time last_week)
           (clock (base_state [] ∅ []) (ticks (base_state [] ∅ []))) = true)
    ∧ (delta = 0
       ↔ date_time last_week
         = clock (base_state [] ∅ []) (ticks (base_state [] ∅ [])))
    ∧ (0 < delta
       ↔ Datetime.lt (clock (base_state [] ∅ []) (ticks (base_state [] ∅ [])))
           (date_time last_week) = true).
Proof.
  apply (time_until_event_sign last_week (base_state [] ∅ [])); reflexivity.
Defined.

(** ** Files written by hand *)

Lemma load_hand_written (t s : string) (dt : datetime) (tg : option json) :
  strptime s = Some dt →
  tg = None ∨ tg = Some JNull ∨ tg = Some (JArray []) →
  ∃ v, load event_decoder (hand_written t s tg) = inr v
       ∧ Event_kwargs v = inr (object_of (mk_Event t dt [])).
Proof.
  intros Hs Htg. unfold hand_written. rewrite load_JObject.
  destruct Htg as [->|[->| ->]]; cbn [app result_map fst snd load result_bind];
    unfold event_decoder, dict_has; cbn -[strptime]; rewrite Hs;
    eexists; (split; [reflexivity|]); reflexivity.
Qed.

(** X14. [load_events] asks less of a file than [save_events] writes.  A
    record may leave its tags out, or give [null] or an empty array for
    them: the event gets the empty list of tags.  Its date may be written
    in any way [strptime] accepts for the format.  The events come back in
    the order of the records. *)
Theorem load_events_fills_in_missing_tags (st : state) (f : file)
    (records : list (string * string * option json)) (objects : list EventObject) :
  files st !! file_path (self st) = Some f →
  file_path (self st) ∉ denied st →
  extra_data f = false →
  document f = JArray (map (λ '(t, s, tg), hand_written t s tg) records) →
  Forall2 (λ '(t, s, tg) object,
             ∃ dt, strptime s = Some dt
                   ∧ (tg = None ∨ tg = Some JNull ∨ tg = Some (JArray []))
                   ∧ object = object_of (mk_Event t dt []))
    records objects →
  load_events st = (Return objects, st).
Proof.
  intros Hf Hd Hx Hdoc Hall.
  unfold load_events, try_except_FileNotFoundError.
  rewrite load_events_body_run. unfold load_result, open_r.
  rewrite Hf, bool_decide_eq_false_2 by done. cbn [result_bind].
  unfold load_file. rewrite Hdoc, Hx. rewrite load_JArray.
  assert (∃ vs, result_map (load event_decoder)
                  (map (λ '(t, s, tg), hand_written t s tg) records) = inr vs
                ∧ result_map Event_kwargs vs = inr objects) as (vs & Hload & Hvs).
  { clear Hdoc.
    induction Hall as [|[[t s] tg] object records objects (dt & Hs & Htg & ->) _ IH].
    - by exists [].
    - destruct IH as (vs & Hvs & Hobjs).
      destruct (load_hand_written t s dt tg Hs Htg) as (v & Hv & Hobj).
      exists (v :: vs). cbn [map result_map]. by rewrite Hv, Hvs, Hobj, Hobjs. }
  rewrite Hload. cbn [result_bind iterate]. by rewrite Hvs.
Qed.

Lemma load_events_fills_in_missing_tags_witness :
  load_events (base_state [] {["events.json" := hand_written_file]} [])
  = (Return [object_of (mk_Event "Standup" (mk_datetime 2099 1 1 9 5 0 0) []);
             object_of (mk_Event "Review" (mk_datetime 2099 1 2 10 0 0 0) [])],
     base_state [] {["events.json" := hand_written_file]} []).
Proof.
  apply (load_events_fills_in_missing_tags
           (base_state [] {["events.json" := hand_written_file]} [])
           hand_written_file
           [("Standup", "2099-1-1 9:5", None);
            ("Review", "2099-01-02 10:00", Some JNull)]).
  - reflexivity.
  - apply not_elem_of_empty.
  - reflexivity.
  - reflexivity.
  - constructor.
    { exists (mk_datetime 2099 1 1 9 5 0 0).
      split; [vm_compute; reflexivity|]. split; [by left | reflexivity]. }
    constructor; [|constructor].
    exists (mk_datetime 2099 1 2 10 0 0 0).
    split; [vm_compute; reflexivity|]. split; [right; by left | reflexivity].
Defined.

Lemma Event_kwargs_misshapen (v : value) :
  misshapen v → Event_kwargs v = inl TypeError.
Proof.
  intros Hv. destruct v as [| | | | |dd|]; try done.
  unfold Event_kwargs.
  destruct (forallb _ _) eqn:Hkeys; [|done].
  destruct (Hv dd eq_refl) as [->|[Hdt|(k & Hk & Hno)]]; [done| |].
  - rewrite Hdt. by destruct (dict_get "title" dd).
  - rewrite forallb_forall in Hkeys. apply list_elem_of_In in Hk.
    apply Hkeys in Hk. by apply bool_decide_eq_true in Hk.
Qed.

Lemma result_map_Exists_raise {A B} (f : A → result B) (l : list A) :
  Exists (λ x, ∃ e, f x = inl e) l → ∃ e, result_map f l = inl e.
Proof.
  induction 1 as [x l [e He]|x l _ [e IH]]; simpl.
  - rewrite He. by exists e.
  - destruct (f x) as [e'|y]; simpl; [by exists e'|]. rewrite IH. by exists e.
Qed.

(** X15. One misshapen record spoils the whole file.  When the file
    decodes to a list and one of its items is not what [Event] takes as
    keyword arguments -- it is no object, it lacks [title] or
    [date_time], or it has a key other than [title], [date_time] and
    [tags] -- [load_events] raises [TypeError]: no event is loaded, not
    even from the records before the misshapen one. *)
Theorem load_events_refuses_misshapen_records (st : state) (f : file)
    (items : list value) :
  files st !! file_path (self st) = Some f →
  file_path (self st) ∉ denied st →
  load_file event_decoder f = inr (VList items) →
  Exists misshapen items →
  load_events st = (Raise TypeError, st).
Proof.
  intros Hf Hd Hload Hex.
  unfold load_events, try_except_FileNotFoundError.
  rewrite load_events_body_run. unfold load_result, open_r.
  rewrite Hf, bool_decide_eq_false_2 by done. cbn [result_bind].
  rewrite Hload. cbn [result_bind iterate].
  destruct (result_map_Exists_raise Event_kwargs items) as [e He].
  { eapply Exists_impl; [exact Hex|]. intros v Hv. exists TypeError.
    by apply Event_kwargs_misshapen. }
  rewrite He. by apply Event_kwargs_raises in He as ->.
Qed.

Lemma load_events_refuses_misshapen_records_witness :
  load_events (base_state [] {["events.json" := untimed_file]} [])
  = (Raise TypeError, base_state [] {["events.json" := untimed_file]} []).
Proof.
  apply (load_events_refuses_misshapen_records
           (base_state [] {["events.json" := untimed_file]} [])
           untimed_file [VDict [("title", VStr "Standup")]]).
  - reflexivity.
  - apply not_elem_of_empty.
  - reflexivity.
  - left. intros dd [= <-]. right. left. reflexivity.
Defined.

Lemma dict_set_nonempty (k : string) (v : value) (dd : dict) : dict_set k v dd ≠ [].
Proof. destruct dd as [|[k' v'] dd]; simpl; [done|]. by destruct (String.eqb k k'). Qed.

Lemma dict_of_pairs_nonempty (pairs : list (string * value)) :
  pairs ≠ [] → dict_of_pairs pairs ≠ [].
Proof.
  unfold dict_of_pairs. destruct pairs as [|[k v] pairs]; [done|]. intros _. simpl.
  assert (∀ dd, dd ≠ [] →
                fold_left (λ dd kv, dict_set kv.1 kv.2 dd) pairs dd ≠ []) as H.
  { induction pairs as [|[k' v'] pairs IH]; intros dd Hdd; simpl; [done|].
    apply IH, dict_set_nonempty. }
  apply H. done.
Qed.

Lemma event_decoder_nonempty (obj : dict) (v : value) :
  obj ≠ [] → event_decoder obj = inr v → ∃ dd, v = VDict dd ∧ dd ≠ [].
Proof.
  intros Hobj. unfold event_decoder. destruct (dict_has "date_time" obj).
  - destruct (dict_get "date_time" obj) as [[| | |s| | |]|]; try done.
    destruct (strptime s); [|done]. intros [= <-].
    eexists. split; [done|]. apply dict_set_nonempty.
  - intros [= <-]. by eexists.
Qed.

Lemma load_nonempty_object (m : string * json) (members : list (string * json))
    (v : value) :
  load event_decoder (JObject (m :: members)) = inr v →
  ∃ dd, v = VDict dd ∧ dd ≠ [].
Proof.
  rewrite load_JObject. cbn [result_map].
  destruct (load event_decoder m.2) as [e|v1]; [done|]. cbn [result_bind].
  destruct (result_map _ members) as [e|pairs]; [done|]. cbn [result_bind].
  apply event_decoder_nonempty. by apply dict_of_pairs_nonempty.
Qed.

(** X16. [load_events] iterates over whatever the document is.  It returns
    only when the document is an array, the empty object or the empty
    text; the empty array, the empty object and the empty text give the
    empty list.  [null], a truth value, a number or a text with a character
    in it raise [TypeError]. *)
Theorem load_events_of_a_document_that_is_no_array (st : state) (f : file) :
  files st !! file_path (self st) = Some f →
  file_path (self st) ∉ denied st →
  extra_data f = false →
  (document f = JArray [] ∨ document f = JObject [] ∨ document f = JString "" →
   load_events st = (Return [], st))
  ∧ (∀ objects, (load_events st).1 = Return objects →
                (∃ items, document f = JArray items)
                ∨ document f = JObject [] ∨ document f = JString "")
  ∧ (document f = JNull ∨ (∃ b, document f = JBool b) ∨ (∃ n, document f = JNumber n)
     ∨ (∃ c s, document f = JString (String c s)) →
     load_events st = (Raise TypeError, st)).
Proof.
  intros Hf Hd Hx.
  unfold load_events, try_except_FileNotFoundError.
  rewrite load_events_body_run. unfold load_result, open_r.
  rewrite Hf, bool_decide_eq_false_2 by done. cbn [result_bind].
  unfold load_file. rewrite Hx.
  split; [|split].
  - by intros [->|[->| ->]].
  - intros objects.
    destruct (document f) as [|b|n|s|items|members|] eqn:Hdoc; try done.
    + destruct s as [|c s]; [intros _; right; by right | by cbn].
    + intros _. left. by exists items.
    + destruct members as [|m members]; [intros _; right; by left|].
      destruct (load event_decoder (JObject (m :: members))) as [e|v] eqn:Hl.
      { cbn [result_bind]. by apply load_raises in Hl as [->|[->| ->]]. }
      apply load_nonempty_object in Hl as (dd & -> & Hdd).
      destruct dd as [|[k x] dd]; done.
  - by intros [->|[[b ->]|[[n ->]|(c & s & ->)]]]; cbn.
Qed.

Lemma load_events_of_a_document_that_is_no_array_witness :
  load_events (base_state [] {["events.json" := empty_object_file]} [])
  = (Return [], base_state [] {["events.json" := empty_object_file]} [])
  ∧ load_events (base_state [] {["events.json" := null_file]} [])
    = (Raise TypeError, base_state [] {["events.json" := null_file]} []).
Proof.
  split.
  - destruct (load_events_of_a_document_that_is_no_array
                (base_state [] {["events.json" := empty_object_file]} [])
                empty_object_file) as (H & _ & _);
      [reflexivity | apply not_elem_of_empty | reflexivity |].
    apply H. right. by left.
  - destruct (load_events_of_a_document_that_is_no_array
                (base_state [] {["events.json" := null_file]} [])
                null_file) as (_ & _ & H);
      [reflexivity | apply not_elem_of_empty | reflexivity |].
    apply H. by left.
Defined.

(** ** Adding, deleting, editing: compositions *)

(** X17. [add_event] followed by [delete_event] with the title just added.
    When no event had that title, the list is what it was before the two
    operations.  When some event had it, the first such event is the one
    deleted, and the event just added stays at the end of the list:
    [add_event] checks no title for duplicates, and [delete_event] never
    reaches the second event of a title.  (This holds for the in-memory
    list whether or not the saves go through.) *)
Theorem add_event_then_delete_event (st : state) (title_in : string)
    (bad : list string) (good : string) (dt : datetime) (tags_in : string)
    (rest : list string) :
  Forall (λ s, strptime s = None) bad →
  strptime good = Some dt →
  keyboard st = title_in :: bad ++ good :: tags_in :: title_in :: rest →
  let st1 := (add_event st).2 in
  (Forall (λ x, title x ≠ title_in) (events (self st)) →
   events (self (delete_event st1).2) = events (self st))
  ∧ (∀ before e after,
       events (self st) = before ++ e :: after →
       title e = title_in →
       Forall (λ x, title x ≠ title_in) before →
       events (self (delete_event st1).2)
       = before ++ after ++ [mk_Event title_in dt (Py.split "," tags_in)]).
Proof.
  intros Hbad Hgood Hk st1.
  assert (events (self st1)
          = events (self st) ++ [mk_Event title_in dt (Py.split "," tags_in)]
          ∧ keyboard st1 = title_in :: rest) as [Hev1 Hk1].
  { unfold st1, add_event, handle_error.
    rewrite (add_event_body_run st title_in bad good dt tags_in (title_in :: rest))
      by done.
    by case_bool_decide. }
  split.
  - intros Hfresh.
    rewrite (delete_event_run_found st1 (events (self st))
               (mk_Event title_in dt (Py.split "," tags_in)) [] rest);
      [|done|done|done].
    case_bool_decide; cbn; by rewrite app_nil_r.
  - intros before e after Hev He Hfirst. subst title_in.
    rewrite (delete_event_run_found st1 before e
               (after ++ [mk_Event (title e) dt (Py.split "," tags_in)]) rest);
      [|by rewrite Hev1, Hev, <- app_assoc|done|done].
    by case_bool_decide.
Qed.

Lemma add_event_then_delete_event_witness :
  events (self (delete_event
                  (add_event
                     (base_state [standup] ∅
                        ["Retro"; "2099-02-01 15:30"; "team"; "Retro"])).2).2)
  = events (self (base_state [standup] ∅
                    ["Retro"; "2099-02-01 15:30"; "team"; "Retro"]))
  ∧ events (self (delete_event
                    (add_event
                       (base_state [standup] ∅
                          ["Standup"; "2099-02-01 15:30"; "team"; "Standup"])).2).2)
    = [] ++ [] ++ [mk_Event "Standup" (mk_datetime 2099 2 1 15 30 0 0)
                     (Py.split "," "team")].
Proof.
  split.
  - apply (proj1 (add_event_then_delete_event
                    (base_state [standup] ∅
                       ["Retro"; "2099-02-01 15:30"; "team"; "Retro"])
                    "Retro" [] "2099-02-01 15:30" (mk_datetime 2099 2 1 15 30 0 0)
                    "team" [] (Forall_nil_2 _) eq_refl eq_refl)).
    constructor; [discriminate | constructor].
  - apply (proj2 (add_event_then_delete_event
                    (base_state [standup] ∅
                       ["Standup"; "2099-02-01 15:30"; "team"; "Standup"])
                    "Standup" [] "2099-02-01 15:30" (mk_datetime 2099 2 1 15 30 0 0)
                    "team" [] (Forall_nil_2 _) eq_refl eq_refl)
             [] standup []).
    + reflexivity.
    + reflexivity.
    + constructor.
Defined.

(** X18. Typing an event's own data again changes nothing, from the year
    1000 on.  When the user edits an event and types its title, the text
    [save_events] writes for its date, and its tags joined by commas, the
    list is afterwards what it was.  The event is one [add_event] or
    [edit_event] makes: its date exists, exact to the minute, and it has at
    least one tag, none with a comma in it; and its year has four digits,
    for otherwise the text [save_events] writes for the date is refused at
    the prompt. *)
Theorem edit_event_with_its_own_data (st : state) (before : list Event) (e : Event)
    (after : list Event) (rest : list string) :
  events (self st) = before ++ e :: after →
  Forall (λ x, title x ≠ title e) before →
  storable e →
  four_digit_year e →
  tags e ≠ [] →
  Forall (λ tag, ","%char ∉ list_ascii_of_string tag) (tags e) →
  keyboard st
  = title e :: title e :: strftime (date_time e) :: Py.join "," (tags e) :: rest →
  events (self (edit_event st).2) = events (self st).
Proof.
  intros Hev Hfirst [Hv Hm] Hy Hne Htags Hk.
  rewrite (edit_event_run_found st before e after (title e) []
             (strftime (date_time e)) (date_time e) (Py.join "," (tags e)) rest);
    [|done|done|done|by apply strptime_strftime|done].
  assert (events (self (edited before after (title e) [] (date_time e)
                          (Py.join "," (tags e)) rest st))
          = events (self st)) as Hsame.
  { unfold edited. norm_state. rewrite (split_join "," (tags e) Hne Htags), Hev.
    by destruct e. }
  by case_bool_decide.
Qed.

Lemma edit_event_with_its_own_data_witness :
  events (self (edit_event
                  (base_state [standup; review1] ∅
                     ["Review"; "Review"; "2099-01-02 10:00"; "work,first"])).2)
  = events (self (base_state [standup; review1] ∅
                    ["Review"; "Review"; "2099-01-02 10:00"; "work,first"])).
Proof.
  apply (edit_event_with_its_own_data
           (base_state [standup; review1] ∅
              ["Review"; "Review"; "2099-01-02 10:00"; "work,first"])
           [standup] review1 [] []).
  - reflexivity.
  - constructor; [discriminate | constructor].
  - split; reflexivity.
  - unfold four_digit_year. by cbn.
  - discriminate.
  - apply (split_pieces "," "work,first").
  - reflexivity.
Defined.

(** ** What [__str__] shows *)

Lemma head_format_regex (dt : datetime) (rest : string) :
  valid dt = true →
  head (format_regex
          (four_digits (year dt) (String "-"
            (two_digits (month dt) (String "-"
              (two_digits (day dt) (String " "
                (two_digits (hour dt) (String ":"
                  (two_digits (minute dt) rest))))))))))
  = Some (mk_datetime (year dt) (month dt) (day dt) (hour dt) (minute dt) 0 0, rest).
Proof.
  intros (Hy & Hm & Hd & HH & HM & Hdate)%valid_bounds.
  unfold format_regex.
  eapply head_re_bind; [apply head_re_Y; lia|].
  eapply head_re_bind; [reflexivity|].
  eapply head_re_bind; [by apply head_re_m|].
  eapply head_re_bind; [reflexivity|].
  eapply head_re_bind; [by apply head_re_d|].
  eapply head_re_bind;
    [apply head_re_spaces; Z.div_mod_to_equations; lia|].
  eapply head_re_bind; [by apply head_re_H|].
  eapply head_re_bind; [reflexivity|].
  eapply head_re_bind; [by apply head_re_M|].
  apply head_re_ret.
Qed.

Lemma datetime_str_strftime (dt : datetime) :
  minute_precision dt = true → 1000 ≤ year dt →
  datetime_str dt = strftime dt +:+ ":00".
Proof.
  unfold minute_precision. intros [Hs Hus]%andb_true_iff Hy.
  unfold datetime_str, strftime. rewrite Hus, year_digits_four by done.
  assert (second dt = 0) as -> by lia. reflexivity.
Qed.

(** X19. The date as [__str__] shows it is not a date the prompt takes.
    For an event whose date exists, the text that [__str__] puts after
    [Date and Time: ] is refused by [strptime] with the format of the
    program, because of the seconds it ends with.  For a date exact to the
    minute in a year of four digits that text is the text [save_events]
    writes, followed by [:00]. *)
Theorem shown_date_is_refused_at_the_prompt (e : Event) :
  valid (date_time e) = true →
  strptime (datetime_str (date_time e)) = None
  ∧ (minute_precision (date_time e) = true →
     four_digit_year e →
     Event_str e
     = "Title: " +:+ title e +:+ newline
       +:+ "Date and Time: " +:+ strftime (date_time e) +:+ ":00" +:+ newline
       +:+ "Tags: " +:+ Py.join ", " (tags e) +:+ newline).
Proof.
  intros Hv. split.
  - unfold strptime, datetime_str.
    pose proof (head_format_regex (date_time e)
                  (String ":"
                     (two_digits (second (date_time e))
                        (if microsecond (date_time e) =? 0 then EmptyString
                         else String "." (six_digits (microsecond (date_time e))
                                            EmptyString)))) Hv) as Hhead.
    destruct (format_regex _) as [|[dt' s'] tl]; [done|].
    simpl in Hhead. by injection Hhead as -> ->.
  - intros Hm Hy. unfold Event_str. rewrite (datetime_str_strftime _ Hm Hy).
    by rewrite !string_append_assoc.
Qed.

Lemma shown_date_is_refused_at_the_prompt_witness :
  strptime (datetime_str (date_time standup)) = None
  ∧ Event_str standup
    = "Title: " +:+ title standup +:+ newline
      +:+ "Date and Time: " +:+ strftime (date_time standup) +:+ ":00" +:+ newline
      +:+ "Tags: " +:+ Py.join ", " (tags standup) +:+ newline.
Proof.
  split.
  - exact (proj1 (shown_date_is_refused_at_the_prompt standup eq_refl)).
  - apply (proj2 (shown_date_is_refused_at_the_prompt standup eq_refl) eq_refl).
    unfold four_digit_year. by cbn.
Defined.

Lemma split_join_blank (prefix t : string) (ts : list string) :
  ","%char ∉ list_ascii_of_string (prefix +:+ t) →
  Forall (λ piece, ","%char ∉ list_ascii_of_string piece) ts →
  Py.split "," (prefix +:+ Py.join ", " (t :: ts))
  = (prefix +:+ t) :: map (String " ") ts.
Proof.
  revert prefix t. induction ts as [|t' ts IH]; intros prefix t Hp Hall.
  - cbn [Py.join map]. by apply split_whole.
  - inversion Hall as [|? ? Ht' Hts]; subst.
    change (Py.join ", " (t :: t' :: ts))
      with (t +:+ String "," (" " +:+ Py.join ", " (t' :: ts))).
    rewrite <- string_append_assoc, split_first by done.
    rewrite (IH " " t'); [done| |done].
    cbn. by apply not_elem_of_cons.
Qed.

(** X20. The tags as [__str__] shows them are not the tags to type.  For
    an event whose tags are a text split at its commas, as [add_event] and
    [edit_event] make them, [__str__] joins the tags with a comma and a
    blank; split at the commas again, as the tags prompt would, that text
    gives the first tag as it is and every other tag with a blank in
    front. *)
Theorem shown_tags_do_not_read_back (e : Event) (typed : string) :
  tags e = Py.split "," typed →
  ∃ t ts,
    tags e = t :: ts
    ∧ Event_str e
      = "Title: " +:+ title e +:+ newline
        +:+ "Date and Time: " +:+ datetime_str (date_time e) +:+ newline
        +:+ "Tags: " +:+ Py.join ", " (t :: ts) +:+ newline
    ∧ Py.split "," (Py.join ", " (t :: ts)) = t :: map (String " ") ts.
Proof.
  intros Htags.
  pose proof (split_nonempty "," typed) as Hne.
  pose proof (split_pieces "," typed) as Hall.
  rewrite <- Htags in Hne, Hall.
  destruct e as [title0 dt [|t ts]]; [done|]. cbn [tags] in *.
  exists t, ts. split; [done|]. split; [done|].
  inversion Hall; subst. by apply (split_join_blank "" t ts).
Qed.

Lemma shown_tags_do_not_read_back_witness :
  ∃ t ts,
    tags review1 = t :: ts
    ∧ Event_str review1
      = "Title: " +:+ title review1 +:+ newline
        +:+ "Date and Time: " +:+ datetime_str (date_time review1) +:+ newline
        +:+ "Tags: " +:+ Py.join ", " (t :: ts) +:+ newline
    ∧ Py.split "," (Py.join ", " (t :: ts)) = t :: map (String " ") ts.
Proof.
  apply (shown_tags_do_not_read_back review1 "work,first"). reflexivity.
Defined.
